(** * SARI bookkeeping core: import classifier and aggregation engine

    A shallow embedding of the pure logic of [src/App.tsx]: the chart
    down-sampler [optimizeChartData], the spreadsheet import loop of
    [processFile] (header location, per-row extraction, keyword
    classification), the [dashboardStats] / [reportStats] aggregations, the
    debt grouper [debtList] and the settlement [handleSettleClientDebt].

    Conventions of the embedding.
    - A JavaScript string is the list of its UTF-16 code units ([jsstring]);
      [length] is therefore the JavaScript [.length].
    - A JavaScript number is the exact rational value of the double ([Q]);
      [NaN] is kept apart in [number] where the source can produce it
      ([parseFloat]).  Comparisons, [Math.round], [Math.floor] and [Math.abs]
      are exact on doubles and are computed on these values.  The chart
      down-sampler, whose result depends on how the sum and the quotient of
      a window are rounded, takes the addition and the division of doubles
      as parameters ([doubleAdd], [doubleDiv]).  The totals of the
      aggregations are accumulated as rationals; what is stated of a total is
      that it is the sum of its own bucket of transactions taken in list
      order, or a comparison between such totals, and never an identity that
      regroups the additions of two different accumulators.
    - Built-ins whose full semantics is a table outside the repository
      ([String.prototype.toLowerCase], [Number::toString], the [Date]
      parser, [Math.random]) are Section variables: every statement holds for
      any behaviour of them. *)

From Stdlib Require Import Ascii String.
From Stdlib Require Import List Bool Arith ZArith NArith QArith Qround Qabs.
From Stdlib Require Import Permutation Sorted Lia Lqa.
From Stdlib Require Floats.PrimFloat Floats.SpecFloat Floats.FloatOps Uint63.
Import ListNotations.

Close Scope Q_scope.

(* ------------------------------------------------------------------ *)
(** * JavaScript strings *)

Module JS.

Definition jsstring := list N.

(** An ASCII literal as code units. *)
Definition lit (s : string) : jsstring :=
  map N_of_ascii (list_ascii_of_string s).

Fixpoint eqb (a b : jsstring) : bool :=
  match a, b with
  | [], [] => true
  | x :: a', y :: b' => (x =? y)%N && eqb a' b'
  | _, _ => false
  end.

Fixpoint startsWith (k s : jsstring) : bool :=
  match k, s with
  | [], _ => true
  | x :: k', y :: s' => (x =? y)%N && startsWith k' s'
  | _ :: _, [] => false
  end.

(** [s.includes(k)] *)
Fixpoint includes (s k : jsstring) : bool :=
  startsWith k s ||
  match s with
  | [] => false
  | _ :: s' => includes s' k
  end.

(** [\d] *)
Definition isDigit (c : N) : bool := ((48 <=? c) && (c <=? 57))%N.

Definition hyphen : N := 45%N.
Definition dot : N := 46%N.
Definition space : N := 32%N.
Definition comma : N := 44%N.

(** The regular expression [/\d{4}-\d{2}-\d{2}/] tried at the head of [s]. *)
Definition dateAtHead (s : jsstring) : bool :=
  match s with
  | y1 :: y2 :: y3 :: y4 :: h1 :: m1 :: m2 :: h2 :: d1 :: d2 :: _ =>
      isDigit y1 && isDigit y2 && isDigit y3 && isDigit y4 &&
      (h1 =? hyphen)%N && isDigit m1 && isDigit m2 &&
      (h2 =? hyphen)%N && isDigit d1 && isDigit d2
  | _ => false
  end.

(** [s.match(/\d{4}-\d{2}-\d{2}/)] is truthy: the pattern is not anchored,
    so it is searched at every offset. *)
Fixpoint matchDate (s : jsstring) : bool :=
  dateAtHead s ||
  match s with
  | [] => false
  | _ :: s' => matchDate s'
  end.

(** ECMAScript WhiteSpace and LineTerminator code units, as removed by
    [String.prototype.trim]. *)
Definition isWhite (c : N) : bool :=
  ((9 <=? c) && (c <=? 13) || (c =? 32) || (c =? 160) || (c =? 5760) ||
   (8192 <=? c) && (c <=? 8202) || (c =? 8232) || (c =? 8233) ||
   (c =? 8239) || (c =? 8287) || (c =? 12288) || (c =? 65279))%N.

Fixpoint trimStart (s : jsstring) : jsstring :=
  match s with
  | c :: s' => if isWhite c then trimStart s' else s
  | [] => []
  end.

Definition trim (s : jsstring) : jsstring :=
  rev (trimStart (rev (trimStart s))).

(** [a.join(sep)] on already converted elements. *)
Fixpoint join (sep : jsstring) (l : list jsstring) : jsstring :=
  match l with
  | [] => []
  | [x] => x
  | x :: l' => x ++ sep ++ join sep l'
  end.

(** Decimal digits of a non-negative integer, as [String(n)] prints it. *)
Fixpoint digitsOfUint (d : Decimal.uint) : jsstring :=
  match d with
  | Decimal.Nil => []
  | Decimal.D0 r => 48%N :: digitsOfUint r
  | Decimal.D1 r => 49%N :: digitsOfUint r
  | Decimal.D2 r => 50%N :: digitsOfUint r
  | Decimal.D3 r => 51%N :: digitsOfUint r
  | Decimal.D4 r => 52%N :: digitsOfUint r
  | Decimal.D5 r => 53%N :: digitsOfUint r
  | Decimal.D6 r => 54%N :: digitsOfUint r
  | Decimal.D7 r => 55%N :: digitsOfUint r
  | Decimal.D8 r => 56%N :: digitsOfUint r
  | Decimal.D9 r => 57%N :: digitsOfUint r
  end.

Definition natToString (n : N) : jsstring := digitsOfUint (N.to_uint n).

(** A JavaScript number that may be [NaN]. *)
Inductive number :=
| NaN
| Num (q : Q).

(** [!x] on a number: true for [0] and [NaN]. *)
Definition isFalsyNumber (x : number) : bool :=
  match x with
  | NaN => true
  | Num q => Qeq_bool q 0%Q
  end.

(** Value of a run of decimal digits, and what follows it. *)
Fixpoint readDigits (acc : Z) (s : jsstring) : Z * nat * jsstring :=
  match s with
  | c :: s' =>
      if isDigit c
      then let '(v, n, rest) := readDigits (acc * 10 + (Z.of_N c - 48))%Z s' in
           (v, S n, rest)
      else (acc, O, s)
  | [] => (acc, O, [])
  end.

(** [parseFloat] on the strings that reach it in [processFile]: after
    [replace(/[^0-9.]/g, '')] only digits and dots remain, so there is no
    sign, exponent or leading blank to read.  The longest prefix of the form
    [digits], [digits.], [digits.digits] or [.digits] is the value; without
    such a prefix the result is [NaN]. *)
Definition parseFloat (s : jsstring) : number :=
  let '(ip, ni, rest) := readDigits 0%Z s in
  match rest with
  | c :: rest' =>
      if (c =? dot)%N then
        let '(fp, nf, _) := readDigits 0%Z rest' in
        match ni, nf with
        | O, O => NaN
        | _, _ => Num (inject_Z ip + inject_Z fp / inject_Z (10 ^ Z.of_nat nf))%Q
        end
      else match ni with O => NaN | _ => Num (inject_Z ip) end
  | [] => match ni with O => NaN | _ => Num (inject_Z ip) end
  end.

(** [Math.round]: nearest integer, halves towards +infinity. *)
Definition Math_round (q : Q) : Q := inject_Z (Qfloor (q + (1 # 2))%Q).

(** [Math.floor] *)
Definition Math_floor (q : Q) : Z := Qfloor q.

End JS.

Import JS.

(* ------------------------------------------------------------------ *)
(** * Data model *)

Inductive TransactionStatus := completed | pending | failed.
Inductive TransactionType := sale | expense | refund | debt | cash.
Inductive Currency := USD | IQD.

Record InventoryItem := mkItem {
  inv_id : jsstring;
  inv_name : jsstring;
  inv_category : jsstring;
  inv_quantity : Q;
  inv_minLevel : Q;
  inv_price : Q;
  inv_cost : Q
}.

(** [interface Transaction]; the optional fields are [option]s. *)
Record Transaction := mkTx {
  tx_id : jsstring;
  tx_type : TransactionType;
  tx_client : jsstring;
  tx_clientPhone : option jsstring;
  tx_itemId : option jsstring;
  tx_date : jsstring;
  tx_time : jsstring;
  tx_amount : Q;
  tx_currency : Currency;
  tx_status : TransactionStatus;
  tx_method : jsstring;
  tx_rawText : option jsstring
}.

Definition status_eqb (a b : TransactionStatus) : bool :=
  match a, b with
  | completed, completed | pending, pending | failed, failed => true
  | _, _ => false
  end.

Definition type_eqb (a b : TransactionType) : bool :=
  match a, b with
  | sale, sale | expense, expense | refund, refund
  | debt, debt | cash, cash => true
  | _, _ => false
  end.

Definition EXCHANGE_RATE : Q := 1520%Q.

(** A cell of the decoded grid: empty ([undefined]), a number or a string. *)
Inductive cell :=
| CEmpty
| CNum (n : Q)
| CStr (s : jsstring).

Definition Row := list cell.

(** [row[i]]: reading past the end of an array gives [undefined]. *)
Definition cellAt (row : Row) (i : nat) : cell := nth i row CEmpty.

(** JavaScript truthiness of a cell. *)
Definition truthy (c : cell) : bool :=
  match c with
  | CEmpty => false
  | CNum n => negb (Qeq_bool n 0%Q)
  | CStr [] => false
  | CStr (_ :: _) => true
  end.

(* ------------------------------------------------------------------ *)
(** * Reference instances of the built-ins

    Concrete functions that agree with the JavaScript built-ins on the inputs
    used in the worked examples: ASCII text, non-negative integers, ISO
    calendar days, and doubles whose numerator and denominator are below
    2^53 with finite results. *)

Module Demo.

(** [toLowerCase] on ASCII letters; other code units are kept. *)
Definition lowerAscii (s : jsstring) : jsstring :=
  map (fun c => if ((65 <=? c) && (c <=? 90))%N then (c + 32)%N else c) s.

(** [String(n)] for a non-negative integer [n]. *)
Definition showNumber (q : Q) : jsstring := natToString (Z.to_N (Qfloor q)).

(** A sequence of draws that yields the ids TX-1000, TX-1001, ... *)
Definition draws (k : nat) : Q := (Z.of_nat k # 9000)%Q.

Definition digitValue (c : N) : Z := (Z.of_N c - 48)%Z.

(** Days from 1970-01-01 to the civil date [y]-[m]-[d]. *)
Definition daysFromCivil (y m d : Z) : Z :=
  let y' := (if m <=? 2 then y - 1 else y)%Z in
  let era := (y' / 400)%Z in
  let yoe := (y' - era * 400)%Z in
  let mp := (if m <=? 2 then m + 9 else m - 3)%Z in
  let doy := ((153 * mp + 2) / 5 + d - 1)%Z in
  let doe := (yoe * 365 + yoe / 4 - yoe / 100 + doy)%Z in
  (era * 146097 + doe - 719468)%Z.

(** The civil day of a [YYYY-MM-DD] string, if it is one. *)
Definition isoDays (s : jsstring) : option Z :=
  match s with
  | [y1; y2; y3; y4; h1; m1; m2; h2; d1; d2] =>
      if dateAtHead s then
        let y := (digitValue y1 * 1000 + digitValue y2 * 100 +
                  digitValue y3 * 10 + digitValue y4)%Z in
        let m := (digitValue m1 * 10 + digitValue m2)%Z in
        let d := (digitValue d1 * 10 + digitValue d2)%Z in
        if ((1 <=? m) && (m <=? 12) && (1 <=? d) && (d <=? 31))%Z
        then Some (daysFromCivil y m d) else None
      else None
  | _ => None
  end.

(** [new Date(s).getTime()] for a date-only ISO string (UTC midnight). *)
Definition isoTime (s : jsstring) : option Z :=
  option_map (fun days => (days * 86400000)%Z) (isoDays s).

(** [new Date(s).getDay()]: 1970-01-01 was a Thursday. *)
Definition isoDay (s : jsstring) : option nat :=
  option_map (fun days => Z.to_nat ((days + 4) mod 7)%Z) (isoDays s).

(** The double of an integer below 2^63 in absolute value. *)
Definition floatOfZ (z : Z) : PrimFloat.float :=
  if (z <? 0)%Z
  then PrimFloat.opp (PrimFloat.of_uint63 (Uint63.of_Z (- z)))
  else PrimFloat.of_uint63 (Uint63.of_Z z).

(** The double nearest to a rational. *)
Definition toDouble (q : Q) : PrimFloat.float :=
  PrimFloat.div (floatOfZ (Qnum q)) (floatOfZ (Z.pos (Qden q))).

(** The exact value of a finite double. *)
Definition ofDouble (f : PrimFloat.float) : Q :=
  match FloatOps.Prim2SF f with
  | SpecFloat.S754_finite s m e =>
      let v := if (0 <=? e)%Z then inject_Z (Z.pos m * 2 ^ e)
               else (Z.pos m # Pos.pow 2 (Z.to_pos (- e)))%Q in
      Qred (if s then (- v)%Q else v)
  | _ => 0%Q
  end.

(** [a + b] and [a / b] as IEEE 754 binary64 computes them. *)
Definition doubleAdd (a b : Q) : Q := ofDouble (PrimFloat.add (toDouble a) (toDouble b)).
Definition doubleDiv (a b : Q) : Q := ofDouble (PrimFloat.div (toDouble a) (toDouble b)).

End Demo.

(* ------------------------------------------------------------------ *)
(** * The import pipeline of [processFile] *)

Section Engine.

Set Default Proof Using "Type".

(** [String(n)] for a number. *)
Variable numberToString : Q -> jsstring.
(** [s.toLowerCase()] *)
Variable toLowerCase : jsstring -> jsstring.
(** The k-th value returned by [Math.random()] during one import. *)
Variable random : nat -> Q.
(** [new Date(s).getTime()]; [None] is the [NaN] of an unparsable date. *)
Variable getTime : jsstring -> option Z.
(** [new Date(s).getDay()], 0 = Sunday; [None] is [NaN]. *)
Variable getDay : jsstring -> option nat.
(** [a + b] and [a / b] on doubles: the exact result, rounded to a double. *)
Variable doubleAdd : Q -> Q -> Q.
Variable doubleDiv : Q -> Q -> Q.

(** [String(c)] *)
Definition cellString (c : cell) : jsstring :=
  match c with
  | CEmpty => lit "undefined"
  | CNum n => numberToString n
  | CStr s => s
  end.

(** The conversion [Array.prototype.join] applies to an element:
    [undefined] becomes the empty string. *)
Definition joinString (c : cell) : jsstring :=
  match c with
  | CEmpty => []
  | _ => cellString c
  end.

(** ** Header detection *)

Definition rowStr (row : Row) : jsstring :=
  toLowerCase (join [space] (map joinString row)).

Definition isHeaderRow (row : Row) : bool :=
  includes (rowStr row) (lit "menu_item_name") || includes (rowStr row) (lit "name").

Definition cellStr (c : cell) : jsstring := trim (toLowerCase (cellString c)).

Definition isNameHeader (s : jsstring) : bool :=
  eqb s (lit "menu_item_name") || eqb s (lit "name") || eqb s (lit "product").
Definition isPriceHeader (s : jsstring) : bool :=
  eqb s (lit "actual_selling_price") || eqb s (lit "price") || eqb s (lit "amount").
Definition isDateHeader (s : jsstring) : bool :=
  eqb s (lit "date") || eqb s (lit "time").

(** The three column variables; [None] is the initial [-1]. *)
Record Columns := mkColumns {
  nameColIndex : option nat;
  priceColIndex : option nat;
  dateColIndex : option nat
}.

(** Body of [rows[i].forEach((cell, idx) => ...)]. *)
Definition mapColumn (cols : Columns) (ic : nat * cell) : Columns :=
  let '(idx, c) := ic in
  mkColumns
    (if isNameHeader (cellStr c) then Some idx else nameColIndex cols)
    (if isPriceHeader (cellStr c) then Some idx else priceColIndex cols)
    (if isDateHeader (cellStr c) then Some idx else dateColIndex cols).

Definition indexed (row : Row) : list (nat * cell) :=
  combine (seq 0 (length row)) row.

Definition mapColumns (row : Row) : Columns :=
  fold_left mapColumn (indexed row) (mkColumns None None None).

(** The search loop [for (i = 0; i < Math.min(rows.length, 10); i++)] with
    its [break]: the first row that passes [isHeaderRow], with its index. *)
Fixpoint scanHeader (i : nat) (rows : list Row) : option (nat * Row) :=
  match rows with
  | [] => None
  | r :: rest => if isHeaderRow r then Some (i, r) else scanHeader (S i) rest
  end.

Definition findHeader (rows : list Row) : option (nat * Row) :=
  scanHeader 0 (firstn (Nat.min (length rows) 10) rows).

(** What the import loop works with, after the fall-backs. *)
Record Layout := mkLayout {
  headerRowIndex : option nat;
  nameCol : nat;
  priceCol : nat;
  dateCol : nat;
  startDataRow : nat
}.

Definition orElse (o : option nat) (d : nat) : nat :=
  match o with Some i => i | None => d end.

Definition locateHeader (rows : list Row) : Layout :=
  let found := findHeader rows in
  let cols := match found with
              | Some (_, r) => mapColumns r
              | None => mkColumns None None None
              end in
  mkLayout (option_map fst found)
           (orElse (nameColIndex cols) 3)
           (orElse (priceColIndex cols) 8)
           (orElse (dateColIndex cols) 0)
           (match found with Some (i, _) => i + 1 | None => 1 end).

(** ** Per-row extraction *)

(** "مادة مستوردة" *)
Definition defaultName : jsstring :=
  [1605; 1575; 1583; 1577; 32; 1605; 1587; 1578; 1608; 1585; 1583; 1577]%N.

Definition isNameCandidate (c : cell) : bool :=
  match c with
  | CStr s => (2 <? length s) && negb (includes s [comma]) && negb (matchDate s)
  | _ => false
  end.

Definition extractName (nameCol : nat) (row : Row) : jsstring :=
  if truthy (cellAt row nameCol) then cellString (cellAt row nameCol)
  else match find isNameCandidate row with
       | Some (CStr s) => s
       | _ => defaultName
       end.

(** [rawPrice.replace(/[^0-9.]/g, '')] *)
Definition stripNonNumeric (s : jsstring) : jsstring :=
  filter (fun c => isDigit c || (c =? dot)%N) s.

Definition extractAmount (priceCol : nat) (row : Row) : number :=
  match cellAt row priceCol with
  | CEmpty => Num 0%Q
  | CNum n => Num n
  | CStr s => parseFloat (stripNonNumeric s)
  end.

(** The date of a row, from the cell of the date column; [today] is the
    value of [getToday()]. *)
Definition extractDate (today : jsstring) (c : cell) : jsstring :=
  if truthy c
  then (if matchDate (cellString c) then cellString c else today)
  else today.

(** ** Classification *)

Definition expenseKeywords : list jsstring :=
  [ [1601; 1575; 1578; 1608; 1585; 1577]%N;        (* فاتورة *)
    [1575; 1610; 1580; 1575; 1585]%N;              (* ايجار *)
    [1585; 1575; 1578; 1576]%N;                    (* راتب *)
    [1603; 1607; 1585; 1576; 1575; 1569]%N;        (* كهرباء *)
    [1575; 1606; 1578; 1585; 1606; 1578]%N;        (* انترنت *)
    [1589; 1610; 1575; 1606; 1577]%N;              (* صيانة *)
    [1588; 1585; 1575; 1569]%N;                    (* شراء *)
    [1589; 1585; 1601]%N;                          (* صرف *)
    lit "expense"; lit "bill"; lit "rent"; lit "salary" ].

Definition debtKeywords : list jsstring :=
  [ [1583; 1610; 1606]%N;                          (* دين *)
    [1575; 1580; 1604]%N;                          (* اجل *)
    [1570; 1580; 1604]%N;                          (* آجل *)
    [1602; 1585; 1590]%N;                          (* قرض *)
    lit "debt"; lit "credit" ].

Definition classify (lowerName : jsstring) : TransactionType * TransactionStatus :=
  if existsb (fun k => includes lowerName k) expenseKeywords
  then (expense, completed)
  else if existsb (fun k => includes lowerName k) debtKeywords
       then (debt, pending)
       else (sale, completed).

(** [`TX-${Math.floor(1000 + Math.random() * 9000)}`] for the draw [r]. *)
Definition generateId (r : Q) : jsstring :=
  lit "TX-" ++ numberToString (inject_Z (Math_floor (1000 + r * 9000)%Q)).

(** One iteration of the import loop: [None] is a [continue]. *)
Definition importRow (inventory : list InventoryItem) (today : jsstring)
    (lay : Layout) (r : Q) (row : Row) : option Transaction :=
  match row with
  | [] => None
  | _ :: _ =>
      let clientName := extractName (nameCol lay) row in
      let amount := extractAmount (priceCol lay) row in
      let finalDate := extractDate today (cellAt row (dateCol lay)) in
      match amount with
      | NaN => None
      | Num a =>
          if Qeq_bool a 0%Q then None
          else
            let lowerName := toLowerCase clientName in
            let '(type, status) := classify lowerName in
            let matchedItem :=
              find (fun inv => eqb (toLowerCase (inv_name inv)) (toLowerCase clientName))
                   inventory in
            Some (mkTx (generateId r) type clientName None
                       (option_map inv_id matchedItem)
                       finalDate (lit "12:00") (Qabs a) IQD status
                       (lit "Import") None)
      end
  end.

(** The loop state: [newTxs] and the number of [Math.random()] calls made. *)
Definition importStep (inventory : list InventoryItem) (today : jsstring)
    (lay : Layout) (st : list Transaction * nat) (row : Row)
    : list Transaction * nat :=
  let '(newTxs, k) := st in
  match importRow inventory today lay (random k) row with
  | Some tx => (newTxs ++ [tx], S k)
  | None => (newTxs, k)
  end.

Definition importRows (inventory : list InventoryItem) (today : jsstring)
    (lay : Layout) (rows : list Row) (st : list Transaction * nat)
    : list Transaction * nat :=
  fold_left (importStep inventory today lay) rows st.

(** The batch [newTxs] that [processFile] builds from a decoded grid.
    [today] is what [getToday()] returns while the (synchronous) loop runs,
    [inventory] the state the handler captured. *)
Definition processFile (inventory : list InventoryItem) (today : jsstring)
    (rows : list Row) : list Transaction :=
  let lay := locateHeader rows in
  fst (importRows inventory today lay (skipn (startDataRow lay) rows) ([], 0)).

(* ------------------------------------------------------------------ *)
(** * Chart down-sampling: [optimizeChartData] *)

Record ChartPoint := mkPoint {
  fullDate : jsstring;
  date : jsstring;
  revenue : Q;
  expenses : Q
}.

(** [data.slice(a, b)] for [0 <= a <= b]. *)
Definition slice {A : Type} (data : list A) (a b : nat) : list A :=
  firstn (b - a) (skipn a data).

(** [Math.ceil(len / limit)].  For [limit = 0] JavaScript computes
    [Infinity]; a window of [len] elements has the same effect on the loop
    (one slice takes everything and the index leaves the array). *)
Definition windowSizeOf (len limit : nat) : nat :=
  match limit with
  | O => len
  | S _ => Z.to_nat (Qceiling (inject_Z (Z.of_nat len) / inject_Z (Z.of_nat limit))%Q)
  end.

(** [Math.round(window.reduce((sum, item) => sum + f(item), 0) / window.length)] *)
Definition windowAverage (f : ChartPoint -> Q) (window : list ChartPoint) : Q :=
  Math_round (doubleDiv (fold_left (fun sum item => doubleAdd sum (f item)) window 0%Q)
                        (inject_Z (Z.of_nat (length window)))).

(** The [for (i = 0; i < data.length; i += windowSize)] loop, started at
    index [i] with the points pushed so far in [result].  [fuel] bounds the
    number of iterations; [None] means it was not enough. *)
Fixpoint windowLoop (fuel : nat) (data : list ChartPoint) (windowSize i : nat)
    (result : list ChartPoint) : option (list ChartPoint) :=
  if i <? length data then
    match fuel with
    | O => None
    | S fuel' =>
        let window := slice data i (i + windowSize) in
        match window with
        | [] => windowLoop fuel' data windowSize (i + windowSize) result
        | w0 :: _ =>
            windowLoop fuel' data windowSize (i + windowSize)
              (result ++ [mkPoint (fullDate w0) (date w0)
                                  (windowAverage revenue window)
                                  (windowAverage expenses window)])
        end
    end
  else Some result.

Definition optimizeChartData (data : list ChartPoint) (limit : nat)
    : option (list ChartPoint) :=
  if length data <=? limit then Some data
  else windowLoop (length data) data (windowSizeOf (length data) limit) 0 [].

(** [reportStats]: [const chartData = optimizeChartData(rawChartData, 100)] *)
Definition chartData (rawChartData : list ChartPoint) : option (list ChartPoint) :=
  optimizeChartData rawChartData 100.

(** ** What the specification says of a window *)

Definition sumQ (l : list Q) : Q := fold_right Qplus 0%Q l.

Definition mean (l : list Q) : Q := (sumQ l / inject_Z (Z.of_nat (length l)))%Q.

(** [r] is the integer nearest to [q] (a half is rounded up). *)
Definition nearestInteger (q r : Q) : Prop :=
  exists z : Z, r = inject_Z z /\ (q - (1 # 2) < inject_Z z)%Q /\ (inject_Z z <= q + (1 # 2))%Q.

(** [p] is the point that stands for the window [w]. *)
Definition summarises (p : ChartPoint) (w : list ChartPoint) : Prop :=
  match w with
  | [] => False
  | w0 :: _ =>
      date p = date w0 /\ fullDate p = fullDate w0 /\
      nearestInteger (mean (map revenue w)) (revenue p) /\
      nearestInteger (mean (map expenses w)) (expenses p)
  end.

(** The mean as doubles give it: the values added from the left, starting
    from 0, and the sum divided by their number. *)
Definition computedMean (l : list Q) : Q :=
  doubleDiv (fold_left doubleAdd l 0%Q) (inject_Z (Z.of_nat (length l))).

(** No rounding error was made on the mean of [l]. *)
Definition exactMean (l : list Q) : Prop := (computedMean l == mean l)%Q.

(** [p] stands for the window [w] with the means as doubles give them. *)
Definition averages (p : ChartPoint) (w : list ChartPoint) : Prop :=
  match w with
  | [] => False
  | w0 :: _ =>
      date p = date w0 /\ fullDate p = fullDate w0 /\
      nearestInteger (computedMean (map revenue w)) (revenue p) /\
      nearestInteger (computedMean (map expenses w)) (expenses p)
  end.

(** [ws] cuts [data] into consecutive windows of [size] elements, the last
    one possibly shorter (but not empty). *)
Definition partitions {A : Type} (size : nat) (data : list A) (ws : list (list A)) : Prop :=
  concat ws = data /\
  (forall w, In w ws -> 0 < length w <= size) /\
  (forall k, S k < length ws -> length (nth k ws []) = size).

(** The consecutive windows of [size] elements of a list. *)
Fixpoint chunksFrom {A : Type} (fuel size : nat) (l : list A) : list (list A) :=
  match fuel with
  | O => []
  | S fuel' =>
      match l with
      | [] => []
      | _ :: _ => firstn size l :: chunksFrom fuel' size (skipn size l)
      end
  end.

Definition chunks {A : Type} (size : nat) (l : list A) : list (list A) :=
  chunksFrom (length l) size l.

(** What one turn of the loop pushes for a window. *)
Definition windowPoint (window : list ChartPoint) : list ChartPoint :=
  match window with
  | [] => []
  | w0 :: _ => [mkPoint (fullDate w0) (date w0)
                        (windowAverage revenue window)
                        (windowAverage expenses window)]
  end.

(** The integer [ceil(len / limit)]. *)
Definition ceilDiv (len limit : nat) : nat := (len + limit - 1) / limit.

(* ------------------------------------------------------------------ *)
(** * Aggregation: [dashboardStats] and [reportStats] *)

(** [const val = t.currency === 'IQD' ? t.amount / EXCHANGE_RATE : t.amount] *)
Definition normalized (t : Transaction) : Q :=
  match tx_currency t with
  | IQD => (tx_amount t / EXCHANGE_RATE)%Q
  | USD => tx_amount t
  end.

Definition isSaleOrCash (t : Transaction) : bool :=
  type_eqb (tx_type t) sale || type_eqb (tx_type t) cash.

(** [arr[i] += v]; an index outside the array is never produced by
    [getDay()] and is left without effect here. *)
Fixpoint addAt (i : nat) (v : Q) (arr : list Q) : list Q :=
  match arr, i with
  | [], _ => []
  | x :: arr', O => (x + v)%Q :: arr'
  | x :: arr', S i' => x :: addAt i' v arr'
  end.

(** The mutable locals of [dashboardStats]. *)
Record DashAcc := mkDashAcc {
  acc_totalSalesUSD : Q;
  acc_totalExpensesUSD : Q;
  acc_totalDebt : Q;
  acc_dailyTotals : list Q
}.

Definition dashStep (acc : DashAcc) (t : Transaction) : DashAcc :=
  let val := normalized t in
  if isSaleOrCash t && status_eqb (tx_status t) completed then
    mkDashAcc (acc_totalSalesUSD acc + val)%Q (acc_totalExpensesUSD acc)
              (acc_totalDebt acc)
              (match getDay (tx_date t) with
               | Some d => addAt d val (acc_dailyTotals acc)
               | None => acc_dailyTotals acc
               end)
  else if type_eqb (tx_type t) expense then
    mkDashAcc (acc_totalSalesUSD acc) (acc_totalExpensesUSD acc + val)%Q
              (acc_totalDebt acc) (acc_dailyTotals acc)
  else if type_eqb (tx_type t) debt && negb (status_eqb (tx_status t) completed) then
    mkDashAcc (acc_totalSalesUSD acc) (acc_totalExpensesUSD acc)
              (acc_totalDebt acc + val)%Q (acc_dailyTotals acc)
  else acc.

Record DashboardStats := mkDashboardStats {
  ds_totalSalesUSD : Q;
  ds_totalSalesIQD : Q;
  ds_netProfit : Q;
  ds_totalDebt : Q;
  ds_totalExpenses : Q;
  ds_count : nat;
  ds_weeklyData : list (nat * Q)
}.

Definition dashboardStats (filteredTransactions : list Transaction) : DashboardStats :=
  let acc := fold_left dashStep filteredTransactions
                       (mkDashAcc 0%Q 0%Q 0%Q (repeat 0%Q 7)) in
  mkDashboardStats
    (acc_totalSalesUSD acc)
    (acc_totalSalesUSD acc * EXCHANGE_RATE)%Q
    (acc_totalSalesUSD acc - acc_totalExpensesUSD acc)%Q
    (acc_totalDebt acc * EXCHANGE_RATE)%Q
    (acc_totalExpensesUSD acc)
    (length filteredTransactions)
    (combine (seq 0 7) (acc_dailyTotals acc)).

(** [tDate >= start && tDate <= end]: any comparison with [NaN] is false. *)
Definition matchesDate (start end_ : option Z) (t : Transaction) : bool :=
  match getTime (tx_date t), start, end_ with
  | Some d, Some s, Some e => (s <=? d)%Z && (d <=? e)%Z
  | _, _, _ => false
  end.

Definition matchesSearch (lowerSearch : jsstring) (t : Transaction) : bool :=
  match lowerSearch with
  | [] => true
  | _ :: _ =>
      includes (toLowerCase (tx_client t)) lowerSearch ||
      includes (numberToString (tx_amount t)) lowerSearch
  end.

(** The [filtered] list of [reportStats]. *)
Definition reportFiltered (reportStartDate reportEndDate reportSearchTerm : jsstring)
    (transactions : list Transaction) : list Transaction :=
  let start := getTime reportStartDate in
  let end_ := getTime reportEndDate in
  let lowerSearch := toLowerCase reportSearchTerm in
  filter (fun t => matchesDate start end_ t && matchesSearch lowerSearch t) transactions.

(** The scalar locals of [reportStats].  The maps the same loop fills
    ([dailyMap], [productMap], [expenseCategoryMap], [debtorMap],
    [dayOfWeekMap]) are written but never read back into these four. *)
Record ReportAcc := mkReportAcc {
  acc_revenue : Q;
  acc_expenses : Q;
  acc_pendingDebt : Q;
  acc_collectedDebt : Q
}.

Definition reportStep (acc : ReportAcc) (t : Transaction) : ReportAcc :=
  let val := normalized t in
  if type_eqb (tx_type t) sale && status_eqb (tx_status t) completed then
    mkReportAcc (acc_revenue acc + val)%Q (acc_expenses acc)
                (acc_pendingDebt acc) (acc_collectedDebt acc)
  else if type_eqb (tx_type t) expense then
    mkReportAcc (acc_revenue acc) (acc_expenses acc + val)%Q
                (acc_pendingDebt acc) (acc_collectedDebt acc)
  else if type_eqb (tx_type t) debt then
    if status_eqb (tx_status t) pending then
      mkReportAcc (acc_revenue acc) (acc_expenses acc)
                  (acc_pendingDebt acc + val)%Q (acc_collectedDebt acc)
    else if status_eqb (tx_status t) completed then
      mkReportAcc (acc_revenue acc + val)%Q (acc_expenses acc)
                  (acc_pendingDebt acc) (acc_collectedDebt acc + val)%Q
    else acc
  else acc.

(** The fields of [ReportStats] computed from the scalar locals. *)
Record ReportStats := mkReportStats {
  rs_totalRevenue : Q;
  rs_totalExpenses : Q;
  rs_netProfit : Q;
  rs_collectionRate : Q;
  rs_compositionDebt : Q;
  rs_compositionExpense : Q
}.

Definition Qpositive (q : Q) : bool := negb (Qle_bool q 0%Q).

Definition reportTotals (filtered : list Transaction) : ReportStats :=
  let acc := fold_left reportStep filtered (mkReportAcc 0%Q 0%Q 0%Q 0%Q) in
  let collectedDebt := acc_collectedDebt acc in
  let pendingDebt := acc_pendingDebt acc in
  mkReportStats
    (acc_revenue acc)
    (acc_expenses acc)
    (acc_revenue acc - acc_expenses acc)%Q
    (if Qpositive (collectedDebt + pendingDebt)%Q
     then (collectedDebt / (collectedDebt + pendingDebt) * 100)%Q
     else 0%Q)
    pendingDebt
    (acc_expenses acc).

Definition reportStats (reportStartDate reportEndDate reportSearchTerm : jsstring)
    (transactions : list Transaction) : ReportStats :=
  reportTotals (reportFiltered reportStartDate reportEndDate reportSearchTerm transactions).

(** ** Sums the specification speaks of *)

Definition isDebt (t : Transaction) : bool := type_eqb (tx_type t) debt.
Definition isCompleted (t : Transaction) : bool := status_eqb (tx_status t) completed.
Definition isPending (t : Transaction) : bool := status_eqb (tx_status t) pending.

Definition collectedSum (l : list Transaction) : Q :=
  sumQ (map normalized (filter (fun t => isDebt t && isCompleted t) l)).

Definition pendingSum (l : list Transaction) : Q :=
  sumQ (map normalized (filter (fun t => isDebt t && isPending t) l)).

Definition outstandingSum (l : list Transaction) : Q :=
  sumQ (map normalized (filter (fun t => isDebt t && negb (isCompleted t)) l)).

Definition completedSalesSum (l : list Transaction) : Q :=
  sumQ (map normalized (filter (fun t => isSaleOrCash t && isCompleted t) l)).

(** ** The collection rate in the words of the specification *)






(* ------------------------------------------------------------------ *)
(** * Debts: [debtList] and [handleSettleClientDebt] *)

(** A value of the [grouped] map. *)
Record DebtGroup := mkGroup {
  total : Q;
  lastDate : jsstring;
  phone : jsstring;
  count : nat
}.

(** A JavaScript [Map] with string keys keeps its keys in insertion order;
    [set] on a present key replaces the value where it stands. *)
Definition JSMap (V : Type) := list (jsstring * V).

Fixpoint mapGet {V : Type} (k : jsstring) (m : JSMap V) : option V :=
  match m with
  | [] => None
  | (k', v) :: m' => if eqb k k' then Some v else mapGet k m'
  end.

Fixpoint mapSet {V : Type} (k : jsstring) (v : V) (m : JSMap V) : JSMap V :=
  match m with
  | [] => [(k, v)]
  | (k', v') :: m' => if eqb k k' then (k', v) :: m' else (k', v') :: mapSet k v m'
  end.

(** [t.clientPhone || ''] *)
Definition phoneOrEmpty (t : Transaction) : jsstring :=
  match tx_clientPhone t with
  | Some p => p
  | None => []
  end.

(** [if (t.clientPhone)] *)
Definition hasPhone (t : Transaction) : bool :=
  match tx_clientPhone t with
  | Some (_ :: _) => true
  | _ => false
  end.

(** [new Date(a) > new Date(b)] *)
Definition dateAfter (a b : jsstring) : bool :=
  match getTime a, getTime b with
  | Some x, Some y => (y <? x)%Z
  | _, _ => false
  end.

(** The object made for a client met for the first time. *)
Definition freshGroup (t : Transaction) : DebtGroup :=
  mkGroup 0%Q (tx_date t) (phoneOrEmpty t) 0.

(** The four updates of [existing] for the debt [t]. *)
Definition addDebt (existing : DebtGroup) (t : Transaction) : DebtGroup :=
  mkGroup (total existing + tx_amount t)%Q
          (if dateAfter (tx_date t) (lastDate existing)
           then tx_date t else lastDate existing)
          (if hasPhone t then phoneOrEmpty t else phone existing)
          (count existing + 1).

Definition groupStep (grouped : JSMap DebtGroup) (t : Transaction) : JSMap DebtGroup :=
  let existing :=
    match mapGet (tx_client t) grouped with
    | Some e => e
    | None => freshGroup t
    end in
  mapSet (tx_client t) (addDebt existing t) grouped.

Definition isPendingDebt (t : Transaction) : bool := isDebt t && isPending t.

(** The array of [{ name, ...data }] in the order of the map's keys. *)
Definition debtList (transactions : list Transaction) : list (jsstring * DebtGroup) :=
  fold_left groupStep (filter isPendingDebt transactions) [].

(** The pending debts of one client, in list order. *)
Definition debtsOf (name : jsstring) (transactions : list Transaction) : list Transaction :=
  filter (fun t => eqb (tx_client t) name) (filter isPendingDebt transactions).

(** What the map holds for [name] after the debts [l], from [init]. *)
Definition groupOf (name : jsstring) (l : list Transaction) (init : option DebtGroup)
    : option DebtGroup :=
  fold_left
    (fun o t =>
       if eqb (tx_client t) name
       then Some (addDebt (match o with Some e => e | None => freshGroup t end) t)
       else o)
    l init.

(** The last non-empty phone of a list of transactions, [''] without one. *)
Definition lastPhone (l : list Transaction) : jsstring :=
  match filter hasPhone (rev l) with
  | t :: _ => phoneOrEmpty t
  | [] => []
  end.

(** [{ ...t, status: 'completed', date: getToday() }] *)
Definition settled (today : jsstring) (t : Transaction) : Transaction :=
  mkTx (tx_id t) (tx_type t) (tx_client t) (tx_clientPhone t) (tx_itemId t)
       today (tx_time t) (tx_amount t) (tx_currency t) completed
       (tx_method t) (tx_rawText t).

Definition isClientPendingDebt (clientName : jsstring) (t : Transaction) : bool :=
  eqb (tx_client t) clientName && type_eqb (tx_type t) debt &&
  status_eqb (tx_status t) pending.

(** [updatedTxs] *)
Definition settledCopies (today clientName : jsstring) (transactions : list Transaction)
    : list Transaction :=
  map (settled today) (filter (isClientPendingDebt clientName) transactions).

(** [prev.map(t => updatedTxs.find(u => u.id === t.id) || t)] *)
Definition applySettlement (updatedTxs prev : list Transaction) : list Transaction :=
  map (fun t => match find (fun u => eqb (tx_id u) (tx_id t)) updatedTxs with
                | Some updated => updated
                | None => t
                end) prev.

(** The new value of the [transactions] state; [confirmed] is the answer to
    the [confirm] dialog, and the state is the one the handler captured. *)
Definition handleSettleClientDebt (confirmed : bool) (today clientName : jsstring)
    (transactions : list Transaction) : list Transaction :=
  if confirmed
  then applySettlement (settledCopies today clientName transactions) transactions
  else transactions.

(* ------------------------------------------------------------------ *)
(** * Vocabulary of the specification *)

(** [d] is written YYYY-MM-DD: four digits, a hyphen, two digits, a hyphen,
    two digits, and nothing else. *)
Definition isYmd (d : jsstring) : Prop :=
  exists y m dd,
    d = y ++ [hyphen] ++ m ++ [hyphen] ++ dd /\
    length y = 4 /\ length m = 2 /\ length dd = 2 /\
    forallb isDigit y = true /\ forallb isDigit m = true /\
    forallb isDigit dd = true.

(** [k] occurs in [s]. *)
Definition contains (s k : jsstring) : Prop :=
  exists pre post, s = pre ++ k ++ post.

Definition containsAny (s : jsstring) (ks : list jsstring) : Prop :=
  exists k, In k ks /\ contains s k.

(** [s] has a YYYY-MM-DD run somewhere inside. *)
Definition containsYmd (s : jsstring) : Prop :=
  exists pre d post, s = pre ++ d ++ post /\ isYmd d.

(** No row among the first [min(10, rowCount)] is a header row. *)
Definition noHeader (rows : list Row) : Prop :=
  forall i, i < Nat.min 10 (length rows) -> isHeaderRow (nth i rows []) = false.

(** Row [i] is the first header row among the first [min(10, rowCount)]. *)
Definition headerAt (rows : list Row) (i : nat) : Prop :=
  i < Nat.min 10 (length rows) /\
  isHeaderRow (nth i rows []) = true /\
  forall j, j < i -> isHeaderRow (nth j rows []) = false.

(** No cell of the row names the semantic column recognised by [p]. *)
Definition neverMatched (p : jsstring -> bool) (row : Row) : Prop :=
  forall j, j < length row -> p (cellStr (cellAt row j)) = false.

(** [idx] is the last cell of the row that names the column. *)
Definition lastMatch (p : jsstring -> bool) (row : Row) (idx : nat) : Prop :=
  idx < length row /\ p (cellStr (cellAt row idx)) = true /\
  forall j, idx < j < length row -> p (cellStr (cellAt row j)) = false.

(** The keyword precedence of the classifier, on a stored record. *)
Definition classifiedByKeywords (t : Transaction) : Prop :=
  let lower := toLowerCase (tx_client t) in
  (containsAny lower expenseKeywords ->
     tx_type t = expense /\ tx_status t = completed) /\
  (~ containsAny lower expenseKeywords -> containsAny lower debtKeywords ->
     tx_type t = debt /\ tx_status t = pending) /\
  (~ containsAny lower expenseKeywords -> ~ containsAny lower debtKeywords ->
     tx_type t = sale /\ tx_status t = completed).

(** [t'] is [t] with a new status and date and nothing else changed. *)
Definition sameButStatusAndDate (t t' : Transaction) : Prop :=
  tx_id t' = tx_id t /\ tx_type t' = tx_type t /\ tx_client t' = tx_client t /\
  tx_clientPhone t' = tx_clientPhone t /\ tx_itemId t' = tx_itemId t /\
  tx_time t' = tx_time t /\ tx_amount t' = tx_amount t /\
  tx_currency t' = tx_currency t /\ tx_method t' = tx_method t /\
  tx_rawText t' = tx_rawText t.

(** ** Worked examples *)

Definition exampleToday : jsstring := lit "2026-11-01".

(** A grid with its header in row 0 and the columns date, name, price. *)
Definition gridHeader : Row :=
  [CStr (lit "Date"); CStr (lit " name "); CStr (lit "price")].
Definition gridBill : Row :=
  [CStr (lit "2024-01-01"); CStr (lit "Electric BILL on credit"); CStr (lit "5000")].
Definition gridUnpriced : Row :=
  [CStr (lit "2024-01-02"); CStr (lit "Acme"); CStr (lit "n/a")].
Definition gridPriced : Row :=
  [CStr (lit "2024-01-02"); CStr (lit "Acme"); CStr (lit "1,200 IQD")].
Definition gridRefund : Row :=
  [CStr (lit "2024-01-05T09:30"); CStr (lit "Store credit"); CNum (-750)%Q].

(** The record the import makes of [gridBill] as its first record. *)
Definition billRecord : Transaction :=
  mkTx (lit "TX-1000") expense (lit "Electric BILL on credit") None None
       (lit "2024-01-01") (lit "12:00") 5000%Q IQD completed (lit "Import") None.

(** A grid without any header row. *)
Definition headerlessGrid : list Row :=
  [ [CStr (lit "a"); CStr (lit "b")]; [CNum 1%Q; CNum 2%Q] ].

(** Three pending debts of Ali (10, 20, 30 on increasing days), stored
    newest first, around a sale to Bob. *)
Definition aliDebt (i : jsstring) (d : jsstring) (a : Q) (ph : option jsstring)
    : Transaction :=
  mkTx i debt (lit "Ali") ph None d (lit "12:00") a USD pending (lit "Manual") None.
Definition ali1 : Transaction := aliDebt (lit "TX-1001") (lit "2024-01-01") 10%Q None.
Definition ali2 : Transaction :=
  aliDebt (lit "TX-1002") (lit "2024-01-02") 20%Q (Some (lit "0770")).
Definition ali3 : Transaction := aliDebt (lit "TX-1003") (lit "2024-01-03") 30%Q None.
Definition bobSale : Transaction :=
  mkTx (lit "TX-1004") sale (lit "Bob") None None (lit "2024-01-02") (lit "12:00")
       500%Q IQD completed (lit "Manual") None.
Definition exampleStore : list Transaction := [ali3; bobSale; ali2; ali1].

(** A series of 101 daily points. *)
Definition longSeries : list ChartPoint :=
  map (fun k => mkPoint (lit "2024") (lit "01/01") (inject_Z (Z.of_nat k)) 1%Q)
      (seq 0 101).

(** Two pending debts of one client, 10 USD and 1520 IQD. *)
Definition mixedDebts : list Transaction :=
  [ mkTx (lit "TX-1000") debt (lit "Ali") None None (lit "2024-01-01") (lit "12:00")
         10%Q USD pending (lit "Manual") None;
    mkTx (lit "TX-1001") debt (lit "Ali") None None (lit "2024-01-02") (lit "12:00")
         1520%Q IQD pending (lit "Manual") None ].

(** [t] with another currency tag. *)
Definition withCurrency (c : Currency) (t : Transaction) : Transaction :=
  mkTx (tx_id t) (tx_type t) (tx_client t) (tx_clientPhone t) (tx_itemId t)
       (tx_date t) (tx_time t) (tx_amount t) c (tx_status t)
       (tx_method t) (tx_rawText t).

(* ------------------------------------------------------------------ *)
(** * The rest of the engine *)

(** ** The import, row by row *)

(** The row has a price that makes the loop emit a record. *)
Definition pricedRow (lay : Layout) (row : Row) : bool :=
  negb (isFalsyNumber (extractAmount (priceCol lay) row)).

(** The ids [generateId] can produce from a draw in [0, 1). *)
Definition idPool : list jsstring :=
  map (fun i => lit "TX-" ++ numberToString (inject_Z (1000 + Z.of_nat i)))
      (seq 0 (Z.to_nat 9000)).

(** ** More sums over a list of transactions *)

Definition isExpense (t : Transaction) : bool := type_eqb (tx_type t) expense.

Definition expenseSum (l : list Transaction) : Q :=
  sumQ (map normalized (filter isExpense l)).

(** What the report counts as revenue: a completed sale (not a cash
    movement) or a completed, that is settled, debt. *)
Definition isRevenue (t : Transaction) : bool :=
  (type_eqb (tx_type t) sale || type_eqb (tx_type t) debt) && isCompleted t.

Definition revenueSum (l : list Transaction) : Q :=
  sumQ (map normalized (filter isRevenue l)).

(** [t] is a completed sale or cash movement dated on the weekday [d]. *)
Definition soldOn (d : nat) (t : Transaction) : bool :=
  isSaleOrCash t && isCompleted t &&
  match getDay (tx_date t) with
  | Some d' => d' =? d
  | None => false
  end.

(** ** [Array.prototype.sort] *)

(** The value a comparator result stands for: [NaN] counts as [+0]. *)
Definition comparison (v : number) : Q :=
  match v with
  | NaN => 0%Q
  | Num q => q
  end.

(** [x] goes behind every leading element that is not to come after it. *)
Fixpoint insertSorted {A : Type} (compareFn : A -> A -> number) (x : A)
    (sorted : list A) : list A :=
  match sorted with
  | [] => [x]
  | y :: rest =>
      if Qle_bool (comparison (compareFn y x)) 0%Q
      then y :: insertSorted compareFn x rest
      else x :: y :: rest
  end.

(** [l.sort(compareFn)].  The sort is stable, and for a consistent
    comparator this fixes the result, computed here by insertion; for a
    comparator that is not consistent the order is left to the
    implementation and only the elements are known. *)
Definition sortArray {A : Type} (compareFn : A -> A -> number) (l : list A) : list A :=
  fold_left (fun sorted x => insertSorted compareFn x sorted) l [].

(** ** [filteredTransactions] *)

Inductive Tab :=
| TabDashboard | TabTransactions | TabDebts | TabInventory | TabReports | TabSettings.

Inductive SortOption := newest | oldest | highest | lowest.

Inductive HistoryFilter := FilterAll | FilterSale | FilterExpense.

Definition isEmptyString (s : jsstring) : bool :=
  match s with [] => true | _ :: _ => false end.

Definition matchesSearchTerm (lowerSearch : jsstring) (t : Transaction) : bool :=
  includes (toLowerCase (tx_client t)) lowerSearch ||
  includes (numberToString (tx_amount t)) lowerSearch ||
  match tx_rawText t with
  | Some raw => negb (isEmptyString raw) && includes (toLowerCase raw) lowerSearch
  | None => false
  end.

Definition matchesType (activeTab : Tab) (historyFilterType : HistoryFilter)
    (t : Transaction) : bool :=
  match activeTab with
  | TabDebts => type_eqb (tx_type t) debt
  | TabTransactions =>
      match historyFilterType with
      | FilterAll => true
      | FilterSale => type_eqb (tx_type t) sale || type_eqb (tx_type t) cash
      | FilterExpense => type_eqb (tx_type t) expense || type_eqb (tx_type t) refund
      end
  | _ => true
  end.

(** [new Date(`${t.date}T${t.time || '00:00'}`).getTime()] *)
Definition dateTimeOf (t : Transaction) : option Z :=
  getTime (tx_date t ++ lit "T" ++
           (if isEmptyString (tx_time t) then lit "00:00" else tx_time t)).

(** [x - y] on two times, [NaN] as soon as one of them is. *)
Definition timeDiff (x y : option Z) : number :=
  match x, y with
  | Some a, Some b => Num (inject_Z (a - b))
  | _, _ => NaN
  end.

Definition compareTransactions (activeSort : SortOption) (a b : Transaction) : number :=
  match activeSort with
  | newest => timeDiff (dateTimeOf b) (dateTimeOf a)
  | oldest => timeDiff (dateTimeOf a) (dateTimeOf b)
  | highest => Num (tx_amount b - tx_amount a)%Q
  | lowest => Num (tx_amount a - tx_amount b)%Q
  end.

(** The rows that pass the filter of [filteredTransactions], in store order. *)
Definition matchingTransactions (activeTab : Tab) (searchTerm searchQuery : jsstring)
    (historyFilterType : HistoryFilter) (transactions : list Transaction)
    : list Transaction :=
  let activeSearch :=
    match activeTab with TabDashboard => searchTerm | _ => searchQuery end in
  let lowerSearch := toLowerCase activeSearch in
  filter (fun t => matchesSearchTerm lowerSearch t &&
                   matchesType activeTab historyFilterType t) transactions.

Definition filteredTransactions (activeTab : Tab) (searchTerm searchQuery : jsstring)
    (sortOption historySortOption : SortOption) (historyFilterType : HistoryFilter)
    (transactions : list Transaction) : list Transaction :=
  let activeSort :=
    match activeTab with TabDashboard => sortOption | _ => historySortOption end in
  sortArray (compareTransactions activeSort)
    (matchingTransactions activeTab searchTerm searchQuery historyFilterType transactions).

(** ** Pagination *)

(** [Math.ceil(length / itemsPerPage) || 1] for a page size that is a
    natural number; [None] is the [Infinity] of a division of a positive
    length by zero. *)
Definition totalPages (len itemsPerPage : nat) : option nat :=
  match itemsPerPage with
  | O => match len with O => Some 1 | S _ => None end
  | S _ =>
      match Z.to_nat (Qceiling (inject_Z (Z.of_nat len) / inject_Z (Z.of_nat itemsPerPage))%Q) with
      | O => Some 1
      | S k => Some (S k)
      end
  end.

(** [filteredTransactions.slice(s, s + itemsPerPage)] with
    [s = (currentPage - 1) * itemsPerPage]; for page 0 the start is negative
    and the slice, ending at 0, is empty. *)
Definition currentItems {A : Type} (filtered : list A) (currentPage itemsPerPage : nat)
    : list A :=
  match currentPage with
  | O => []
  | S q => slice filtered (q * itemsPerPage) (q * itemsPerPage + itemsPerPage)
  end.

(** [setCurrentPage(p => Math.max(p - 1, 1))] *)
Definition previousPage (p : nat) : nat := Nat.max (p - 1) 1.

(** [setCurrentPage(p => Math.min(p + 1, totalPages))] *)
Definition nextPage (p : nat) (pages : option nat) : nat :=
  match pages with
  | Some n => Nat.min (p + 1) n
  | None => p + 1
  end.

(** ** [calculateProfitMargin] *)



(** ** [getTransactionName] *)

(** [s.replace(pattern, replacement)] with a string pattern: the first
    occurrence only. *)
Fixpoint replaceFirst (pattern replacement s : jsstring) : jsstring :=
  if startsWith pattern s then replacement ++ skipn (length pattern) s
  else match s with
       | [] => []
       | c :: s' => c :: replaceFirst pattern replacement s'
       end.

Definition getTransactionName (t : Transaction) : jsstring :=
  if isEmptyString (tx_client t) || eqb (tx_client t) (lit "Imported") ||
     isEmptyString (trim (tx_client t))
  then lit "Process #" ++ replaceFirst (lit "TX-") [] (tx_id t)
  else tx_client t.

(** ** The maps of [reportStats] *)

Definition mapHas {V : Type} (k : jsstring) (m : JSMap V) : bool :=
  match mapGet k m with Some _ => true | None => false end.

(** [m.get(k) || d] *)
Definition getOr {V : Type} (d : V) (k : jsstring) (m : JSMap V) : V :=
  match mapGet k m with Some v => v | None => d end.

(** The update the loop applies to one of its maps for the transactions
    that pass [g]: [m.set(t.client, u(m.get(t.client) || d, t))]. *)
Definition accumulateStep {V : Type} (g : Transaction -> bool) (d : V)
    (u : V -> Transaction -> V) (m : JSMap V) (t : Transaction) : JSMap V :=
  if g t then mapSet (tx_client t) (u (getOr d (tx_client t) m) t) m else m.

(** The transactions of [l] that pass [g] and belong to [name]. *)
Definition entriesOf (g : Transaction -> bool) (name : jsstring)
    (l : list Transaction) : list Transaction :=
  filter (fun t => g t && eqb (tx_client t) name) l.

Definition addNormalized (v : Q) (t : Transaction) : Q := (v + normalized t)%Q.

Definition addProduct (cur : Q * nat) (t : Transaction) : Q * nat :=
  ((fst cur + normalized t)%Q, snd cur + 1).

Definition isCompletedSale (t : Transaction) : bool :=
  type_eqb (tx_type t) sale && status_eqb (tx_status t) completed.

(** [l] is in descending order of [amount]. *)
Definition descending {A : Type} (amount : A -> Q) (l : list A) : Prop :=
  StronglySorted (fun a b => (amount b <= amount a)%Q) l.

(** The maps the loop of [reportStats] fills, besides its scalar totals. *)
Record ReportMaps := mkReportMaps {
  dailyMap : JSMap (Q * Q);            (* revenue, expenses *)
  expenseCategoryMap : JSMap Q;
  productMap : JSMap (Q * nat);        (* amount, count *)
  debtorMap : JSMap Q;
  dayOfWeekMap : list Q
}.

Definition mapsStep (maps : ReportMaps) (t : Transaction) : ReportMaps :=
  let val := normalized t in
  let dateKey := tx_date t in
  let dayIndex := getDay (tx_date t) in
  let daily := if mapHas dateKey (dailyMap maps) then dailyMap maps
               else mapSet dateKey (0%Q, 0%Q) (dailyMap maps) in
  let dayEntry := getOr (0%Q, 0%Q) dateKey daily in
  if type_eqb (tx_type t) sale && status_eqb (tx_status t) completed then
    let cur := getOr (0%Q, 0) (tx_client t) (productMap maps) in
    mkReportMaps
      (mapSet dateKey (fst dayEntry + val, snd dayEntry)%Q daily)
      (expenseCategoryMap maps)
      (mapSet (tx_client t) ((fst cur + val)%Q, snd cur + 1) (productMap maps))
      (debtorMap maps)
      (match dayIndex with
       | Some d => addAt d val (dayOfWeekMap maps)
       | None => dayOfWeekMap maps
       end)
  else if type_eqb (tx_type t) expense then
    mkReportMaps
      (mapSet dateKey (fst dayEntry, snd dayEntry + val)%Q daily)
      (mapSet (tx_client t)
              (getOr 0%Q (tx_client t) (expenseCategoryMap maps) + val)%Q
              (expenseCategoryMap maps))
      (productMap maps) (debtorMap maps) (dayOfWeekMap maps)
  else if type_eqb (tx_type t) debt then
    if status_eqb (tx_status t) pending then
      mkReportMaps daily (expenseCategoryMap maps) (productMap maps)
        (mapSet (tx_client t) (getOr 0%Q (tx_client t) (debtorMap maps) + val)%Q
                (debtorMap maps))
        (dayOfWeekMap maps)
    else if status_eqb (tx_status t) completed then
      mkReportMaps
        (mapSet dateKey (fst dayEntry + val, snd dayEntry)%Q daily)
        (expenseCategoryMap maps) (productMap maps) (debtorMap maps)
        (dayOfWeekMap maps)
    else
      mkReportMaps daily (expenseCategoryMap maps) (productMap maps)
        (debtorMap maps) (dayOfWeekMap maps)
  else
    mkReportMaps daily (expenseCategoryMap maps) (productMap maps)
      (debtorMap maps) (dayOfWeekMap maps).

Definition reportMaps (filtered : list Transaction) : ReportMaps :=
  fold_left mapsStep filtered (mkReportMaps [] [] [] [] (repeat 0%Q 7)).

(** [.sort((a, b) => b.amount - a.amount)] on entries keyed by [amount]. *)
Definition byAmountDesc {A : Type} (amount : A -> Q) (a b : A) : number :=
  Num (amount b - amount a)%Q.

Definition topProducts (filtered : list Transaction) : list (jsstring * (Q * nat)) :=
  firstn 5 (sortArray (byAmountDesc (fun e => fst (snd e)))
                      (productMap (reportMaps filtered))).

Definition pieData (filtered : list Transaction) : list (jsstring * Q) :=
  sortArray (byAmountDesc snd) (expenseCategoryMap (reportMaps filtered)).

Definition topDebtors (filtered : list Transaction) : list (jsstring * Q) :=
  firstn 5 (sortArray (byAmountDesc snd) (debtorMap (reportMaps filtered))).





(** The transactions of [l] that pass [g] and are dated [key]. *)
Definition entriesOn (g : Transaction -> bool) (key : jsstring)
    (l : list Transaction) : list Transaction :=
  filter (fun t => g t && eqb (tx_date t) key) l.

(** The map without the key [name]. *)
Definition dropKey {V : Type} (name : jsstring) (m : JSMap V) : JSMap V :=
  filter (fun e => negb (eqb (fst e) name)) m.

(** ** [inventoryStats] and [lowStockItems] *)

Definition isLowStock (i : InventoryItem) : bool :=
  Qle_bool (inv_quantity i) (inv_minLevel i).

Definition lowStockItems (inventory : list InventoryItem) : list InventoryItem :=
  filter isLowStock inventory.

Definition lowStockCount (inventory : list InventoryItem) : nat :=
  length (filter isLowStock inventory).

(** ** The handlers that change the state *)

Inductive DeleteType := DeleteSingle | DeleteAll.

Record DeleteModal := mkDeleteModal {
  dm_isOpen : bool;
  dm_type : DeleteType;
  dm_targetId : option jsstring;
  dm_targetName : option jsstring
}.

(** The new [transactions] and [inventory] after [handleDeleteConfirm]. *)
Definition handleDeleteConfirm (deleteModal : DeleteModal)
    (transactions : list Transaction) (inventory : list InventoryItem)
    : list Transaction * list InventoryItem :=
  match dm_type deleteModal, dm_targetId deleteModal with
  | DeleteSingle, Some (c :: rest) =>
      (filter (fun t => negb (eqb (tx_id t) (c :: rest))) transactions, inventory)
  | DeleteSingle, _ => (transactions, inventory)
  | DeleteAll, _ => ([], [])
  end.

(** [parseFloat(s)] for an arbitrary string typed by the user. *)
Variable parseUserFloat : jsstring -> number.

Record ManualForm := mkManualForm {
  mf_type : TransactionType;
  mf_client : jsstring;
  mf_phone : jsstring;
  mf_amount : jsstring;
  mf_itemId : jsstring;
  mf_description : jsstring
}.

(** [{ ...item, quantity: item.quantity - 1 }] *)
Definition soldOne (item : InventoryItem) : InventoryItem :=
  mkItem (inv_id item) (inv_name item) (inv_category item)
         (inv_quantity item - 1)%Q (inv_minLevel item) (inv_price item)
         (inv_cost item).

(** The new [inventory] and [transactions] after [handleManualTransaction];
    [r] is the draw of [Math.random()], [today] and [timeNow] the date and
    the time string read from the clock. *)
Definition handleManualTransaction (manualForm : ManualForm)
    (companySearch currencySymbol : jsstring) (r : Q) (today timeNow : jsstring)
    (inventory : list InventoryItem) (transactions : list Transaction)
    : list InventoryItem * list Transaction :=
  let type := mf_type manualForm in
  let itemId := mf_itemId manualForm in
  let finalClient :=
    if type_eqb type expense then mf_description manualForm
    else if isEmptyString companySearch then mf_client manualForm
         else companySearch in
  match parseUserFloat (mf_amount manualForm) with
  | NaN => (inventory, transactions)
  | Num val =>
      if Qle_bool val 0%Q then (inventory, transactions)
      else
        let newTx :=
          mkTx (generateId r)
               (if type_eqb type expense then expense
                else if type_eqb type debt then debt else sale)
               finalClient (Some (mf_phone manualForm)) (Some itemId)
               today timeNow val
               (if eqb currencySymbol (lit "$") then USD else IQD)
               (if type_eqb type debt then pending else completed)
               (lit "Manual") None in
        let inventory' :=
          if (type_eqb type sale || type_eqb type debt) && negb (isEmptyString itemId)
          then match find (fun i => eqb (inv_id i) itemId) inventory with
               | Some item =>
                   map (fun i => if eqb (inv_id i) itemId then soldOne item else i)
                       inventory
               | None => inventory
               end
          else inventory in
        (inventory', newTx :: transactions)
  end.

(** What a save does: nothing, a new state, or a record written with a
    [NaN] field, which the rational fields of the records here cannot hold. *)
Inductive Saved (S : Type) :=
| Ignored
| Stored (s : S)
| StoredNaN.
Arguments Ignored {S}.
Arguments Stored {S} s.
Arguments StoredNaN {S}.

(** [{ ...t, amount: a }] *)
Definition withAmount (t : Transaction) (a : Q) : Transaction :=
  mkTx (tx_id t) (tx_type t) (tx_client t) (tx_clientPhone t) (tx_itemId t)
       (tx_date t) (tx_time t) a (tx_currency t) (tx_status t)
       (tx_method t) (tx_rawText t).

(** [handleEditSave]; the edited record is given by its other fields and by
    its amount, which comes from [parseFloat] and may be [NaN]. *)
Definition handleEditSave (editingItem : option (Transaction * number))
    (prev : list Transaction) : Saved (list Transaction) :=
  match editingItem with
  | None => Ignored
  | Some (_, NaN) => StoredNaN
  | Some (item, Num a) =>
      if Qle_bool a 0%Q then Ignored
      else Stored (map (fun t => if eqb (tx_id t) (tx_id item)
                                 then withAmount item a else t) prev)
  end.

Record ItemForm := mkItemForm {
  if_id : jsstring;
  if_name : jsstring;
  if_category : jsstring;
  if_quantity : number;
  if_minLevel : number;
  if_price : number;
  if_cost : number
}.

(** [`ITM-${Math.floor(10000 + Math.random() * 90000)}`] *)
Definition generateItemId (r : Q) : jsstring :=
  lit "ITM-" ++ numberToString (inject_Z (Math_floor (10000 + r * 90000)%Q)).

(** [{ ...newItemForm, id }] when no field is [NaN]. *)
Definition formItem (f : ItemForm) (id : jsstring) : option InventoryItem :=
  match if_quantity f, if_minLevel f, if_price f, if_cost f with
  | Num q, Num m, Num p, Num c => Some (mkItem id (if_name f) (if_category f) q m p c)
  | _, _, _, _ => None
  end.

(** [prev.findIndex(i => i.id === id)] *)
Fixpoint findIndex (id : jsstring) (l : list InventoryItem) : option nat :=
  match l with
  | [] => None
  | i :: l' => if eqb (inv_id i) id then Some 0
               else option_map S (findIndex id l')
  end.

(** [copy[idx] = item] for an index inside the array. *)
Fixpoint replaceAt {A : Type} (idx : nat) (x : A) (l : list A) : list A :=
  match l, idx with
  | [], _ => []
  | _ :: l', O => x :: l'
  | y :: l', S idx' => y :: replaceAt idx' x l'
  end.

Definition priceRejected (p : number) : bool :=
  match p with
  | NaN => false
  | Num q => Qle_bool q 0%Q
  end.

Definition handleInventorySave (newItemForm : ItemForm) (r : Q)
    (prev : list InventoryItem) : Saved (list InventoryItem) :=
  if isEmptyString (if_name newItemForm) || priceRejected (if_price newItemForm)
  then Ignored
  else
    let id := if isEmptyString (if_id newItemForm) then generateItemId r
              else if_id newItemForm in
    match formItem newItemForm id with
    | None => StoredNaN
    | Some item =>
        Stored (match findIndex id prev with
                | Some idx => replaceAt idx item prev
                | None => prev ++ [item]
                end)
    end.

(** The id under which [handleInventorySave] stores the form. *)
Definition savedId (f : ItemForm) (r : Q) : jsstring :=
  if isEmptyString (if_id f) then generateItemId r else if_id f.

Definition handleDeleteInventory (confirmed : bool) (id : jsstring)
    (prev : list InventoryItem) : list InventoryItem :=
  if confirmed then filter (fun i => negb (eqb (inv_id i) id)) prev else prev.

(** The new [knownCompanies]. *)
Definition handleAddCompany (newCompany : jsstring) (knownCompanies : list jsstring)
    : list jsstring :=
  if negb (isEmptyString newCompany) && negb (existsb (eqb newCompany) knownCompanies)
  then knownCompanies ++ [newCompany]
  else knownCompanies.

Definition handleDeleteCompany (name : jsstring) (knownCompanies : list jsstring)
    : list jsstring :=
  filter (fun c => negb (eqb c name)) knownCompanies.

(** ** Sign-up and login *)

Definition atSign : N := 64%N.

(** [[^\s@]] *)
Definition isAddressChar (c : N) : bool := negb (isWhite c) && negb (c =? atSign)%N.

(** A dot with something before and something after it. *)
Fixpoint dotInside (s : jsstring) : bool :=
  match s with
  | [] => false
  | _ :: rest =>
      match rest with
      | c :: (_ :: _) => (c =? dot)%N || dotInside rest
      | _ => false
      end
  end.

(** The longest run of address characters at the head and what follows. *)
Fixpoint spanAddress (s : jsstring) : jsstring * jsstring :=
  match s with
  | c :: s' => if isAddressChar c
               then let '(run, rest) := spanAddress s' in (c :: run, rest)
               else ([], s)
  | [] => ([], [])
  end.

(** [/^[^\s@]+@[^\s@]+\.[^\s@]+$/.test(email)]: the first class cannot go
    past an [@], so the local part is the whole run before it. *)
Definition validateEmail (email : jsstring) : bool :=
  match spanAddress email with
  | (_ :: _, c :: domain) =>
      (c =? atSign)%N && forallb isAddressChar domain && dotInside domain
  | _ => false
  end.

Record SignUpData := mkSignUp {
  su_storeName : jsstring;
  su_fullName : jsstring;
  su_email : jsstring;
  su_phone : jsstring;
  su_countryCode : jsstring;
  su_password : jsstring
}.

(** The outcome of [handleAuthSubmit]: the error shown, or the user record
    stored by a sign-up, or a login. *)
Inductive AuthOutcome :=
| MissingFields
| InvalidEmail
| ShortPassword
| BadCredentials
| SignedUp (userData : SignUpData)
| LoggedIn.

(** [storedUser] is the record under [SARI_USER_DATA], if any. *)
Definition handleAuthSubmit (isSignUp : bool) (signUpData : SignUpData)
    (loginEmail loginPassword : jsstring) (storedUser : option SignUpData)
    : AuthOutcome :=
  if isSignUp then
    if isEmptyString (su_storeName signUpData) || isEmptyString (su_fullName signUpData) ||
       isEmptyString (su_email signUpData) || isEmptyString (su_password signUpData)
    then MissingFields
    else if negb (validateEmail (su_email signUpData)) then InvalidEmail
    else if length (su_password signUpData) <? 6 then ShortPassword
    else SignedUp signUpData
  else
    let isValidUser :=
      match storedUser with
      | Some u => eqb (su_email u) loginEmail && eqb (su_password u) loginPassword
      | None => false
      end in
    let isAdmin := eqb loginEmail (lit "admin") && eqb loginPassword (lit "123456") in
    if isValidUser || isAdmin then LoggedIn else BadCredentials.

(** ** Further worked examples *)

(** An inventory of two items; the first is named like the client of
    [gridPriced] up to case. *)
Definition exampleInventory : list InventoryItem :=
  [ mkItem (lit "ITM-10001") (lit "ACME") (lit "tools") 3%Q 5%Q 10%Q 7%Q;
    mkItem (lit "ITM-10002") (lit "Bolt") (lit "parts") 40%Q 5%Q 2%Q 1%Q ].

Definition refundRecord : Transaction :=
  mkTx (lit "TX-1006") refund (lit "Bob") None None (lit "2024-01-04") (lit "12:00")
       50%Q IQD completed (lit "Manual") None.

Definition rentExpense : Transaction :=
  mkTx (lit "TX-1007") expense (lit "Rent") None None (lit "2024-01-05") (lit "12:00")
       200%Q IQD completed (lit "Manual") None.

(** A sale stored under the id of [ali1]. *)
Definition bobDuplicate : Transaction :=
  mkTx (lit "TX-1001") sale (lit "Bob") None None (lit "2024-01-02") (lit "12:00")
       500%Q IQD completed (lit "Manual") None.

(** The form of a debt of 25 for the first item of [exampleInventory]. *)
Definition exampleManualForm : ManualForm :=
  mkManualForm debt (lit "Ali") (lit "0770") (lit "25") (lit "ITM-10001") [].

(** The form of a new item. *)
Definition exampleItemForm : ItemForm :=
  mkItemForm [] (lit "Nail") (lit "parts") (Num 10%Q) (Num 5%Q) (Num 2%Q) (Num 1%Q).

Definition exampleSignUp : SignUpData :=
  mkSignUp (lit "Shop") (lit "Ali") (lit "ali@shop.iq") (lit "0770") (lit "+964")
           (lit "secret1").

(** The record the import makes of [gridPriced] with [exampleInventory]
    when every draw is 1/2. *)
Definition acmeRecord : Transaction :=
  mkTx (lit "TX-5500") sale (lit "Acme") None (Some (lit "ITM-10001"))
       (lit "2024-01-02") (lit "12:00") 1200%Q IQD completed (lit "Import") None.

(** A series of 101 points whose first window holds the doubles 0.7 and
    0.3 (their exact values). *)
Definition tieSeries : list ChartPoint :=
  mkPoint (lit "2024-01-01") (lit "01/01")
          (3152519739159347 # 4503599627370496)%Q 0%Q ::
  mkPoint (lit "2024-01-02") (lit "01/02")
          (5404319552844595 # 18014398509481984)%Q 0%Q ::
  map (fun k => mkPoint (lit "2024") (lit "01/03") 0%Q 0%Q) (seq 2 99).


(** A pending debt of Ali whose date matches the pattern of the import and
    is no calendar day. *)
Definition aliUndated : Transaction :=
  aliDebt (lit "TX-1008") (lit "9999-99-99") 10%Q None.

(* ------------------------------------------------------------------ *)
(** * Strings *)

Lemma eqb_refl (a : jsstring) : eqb a a = true.
Proof.
  induction a as [|x a IH]; simpl; [reflexivity|].
  now rewrite N.eqb_refl.
Qed.

Lemma eqb_eq (a b : jsstring) : eqb a b = true <-> a = b.
Proof.
  split; [|intros ->; apply eqb_refl].
  revert b; induction a as [|x a IH]; intros [|y b]; simpl; try discriminate; auto.
  rewrite andb_true_iff, N.eqb_eq. intros [-> H]. f_equal. now apply IH.
Qed.

Lemma eqb_neq (a b : jsstring) : eqb a b = false <-> a <> b.
Proof.
  rewrite <- eqb_eq. destruct (eqb a b); split; congruence.
Qed.

Lemma startsWith_iff (k s : jsstring) :
  startsWith k s = true <-> exists post, s = k ++ post.
Proof.
  revert s; induction k as [|x k IH]; intros s; simpl.
  - split; eauto.
  - destruct s as [|y s].
    + split; [discriminate|]. intros [post H]; discriminate.
    + rewrite andb_true_iff, N.eqb_eq, IH. split.
      * intros [-> [post ->]]. now exists post.
      * intros [post H]. injection H as -> ->. eauto.
Qed.

Lemma includes_iff (s k : jsstring) : includes s k = true <-> contains s k.
Proof.
  unfold contains. induction s as [|c s IH]; simpl.
  - rewrite orb_false_r, startsWith_iff. split.
    + intros [post H]. now exists [], post.
    + intros [pre [post H]]. destruct pre as [|x pre]; [eauto | discriminate].
  - rewrite orb_true_iff, startsWith_iff, IH. split.
    + intros [[post H] | [pre [post H]]].
      * now exists [], post.
      * exists (c :: pre), post. simpl. now rewrite H.
    + intros [[|x pre] [post H]].
      * left. now exists post.
      * right. injection H as -> H. now exists pre, post.
Qed.

Lemma isYmd_length (d : jsstring) : isYmd d -> length d = 10.
Proof.
  intros (y & m & dd & -> & Hy & Hm & Hd & _).
  rewrite !length_app. simpl. lia.
Qed.

Lemma dateAtHead_iff (s : jsstring) :
  dateAtHead s = true <-> exists d post, s = d ++ post /\ isYmd d.
Proof.
  split.
  - destruct s as [|y1 [|y2 [|y3 [|y4 [|h1 [|m1 [|m2 [|h2 [|d1 [|d2 post]]]]]]]]]];
      simpl; try discriminate.
    rewrite !andb_true_iff, !N.eqb_eq.
    intros [[[[[[[[[? ?] ?] ?] ->] ?] ?] ->] ?] ?].
    exists [y1; y2; y3; y4; hyphen; m1; m2; hyphen; d1; d2], post.
    split; [reflexivity|].
    exists [y1; y2; y3; y4], [m1; m2], [d1; d2]. simpl.
    repeat match goal with H : _ = true |- _ => rewrite H; clear H end.
    repeat split; reflexivity.
  - intros (d & post & -> & y & m & dd & -> & Hy & Hm & Hd & Dy & Dm & Dd).
    destruct y as [|y1 [|y2 [|y3 [|y4 [|]]]]]; try discriminate.
    destruct m as [|m1 [|m2 [|]]]; try discriminate.
    destruct dd as [|d1 [|d2 [|]]]; try discriminate.
    simpl in Dy, Dm, Dd |- *.
    destruct (isDigit y1), (isDigit y2), (isDigit y3), (isDigit y4);
      try discriminate;
      destruct (isDigit m1), (isDigit m2); try discriminate;
      destruct (isDigit d1), (isDigit d2); try discriminate; reflexivity.
Qed.

Lemma matchDate_iff (s : jsstring) : matchDate s = true <-> containsYmd s.
Proof.
  unfold containsYmd. induction s as [|c s IH].
  - split.
    + simpl. discriminate.
    + intros (pre & d & post & H & Hd). apply isYmd_length in Hd.
      destruct pre; [destruct d|]; simpl in *; discriminate.
  - change (matchDate (c :: s)) with (dateAtHead (c :: s) || matchDate s).
    rewrite orb_true_iff, dateAtHead_iff, IH. split.
    + intros [(d & post & H & Hd) | (pre & d & post & H & Hd)].
      * now exists [], d, post.
      * exists (c :: pre), d, post. simpl. now rewrite H.
    + intros ([|x pre] & d & post & H & Hd).
      * left. now exists d, post.
      * right. injection H as -> H. now exists pre, d, post.
Qed.

Lemma isYmd_nonempty (d : jsstring) : isYmd d -> d <> [].
Proof.
  intros H E. apply isYmd_length in H. subst d. discriminate.
Qed.

Lemma isYmd_containsYmd (d : jsstring) : isYmd d -> containsYmd d.
Proof.
  intros H. exists [], d, []. now rewrite app_nil_r.
Qed.

(* ------------------------------------------------------------------ *)
(** * Import: the date of a row *)

Lemma importRow_date inventory today lay r row tx :
  importRow inventory today lay r row = Some tx ->
  tx_date tx = extractDate today (cellAt row (dateCol lay)).
Proof.
  unfold importRow. destruct row as [|c0 row0]; [discriminate|].
  destruct (extractAmount _ _) as [|a]; [discriminate|].
  destruct (Qeq_bool a 0); [discriminate|].
  destruct (classify _) as [ty st]. intros H. injection H as <-. reflexivity.
Qed.

(** C1 (as the code has it).  A truthy cell whose string form contains a
    YYYY-MM-DD run anywhere -- in particular every YYYY-MM-DD string -- is
    returned verbatim; every other cell (empty, missing, the empty string,
    zero, or text without such a run) gives the current date; and that value
    is what the emitted record carries as its date. *)
Theorem extractDate_spec (today : jsstring) (c : cell) :
  (forall d, isYmd d -> extractDate today (CStr d) = d) /\
  (truthy c = true -> containsYmd (cellString c) ->
     extractDate today c = cellString c) /\
  (truthy c = false \/ ~ containsYmd (cellString c) ->
     extractDate today c = today) /\
  (forall inventory lay r row tx,
     c = cellAt row (dateCol lay) ->
     importRow inventory today lay r row = Some tx ->
     tx_date tx = extractDate today c).
Proof.
  repeat split.
  - intros d Hd. unfold extractDate.
    assert (Ht : truthy (CStr d) = true).
    { destruct d; [now apply isYmd_nonempty in Hd | reflexivity]. }
    rewrite Ht. simpl.
    apply isYmd_containsYmd, matchDate_iff in Hd. now rewrite Hd.
  - intros Ht Hc. unfold extractDate. rewrite Ht.
    apply matchDate_iff in Hc. now rewrite Hc.
  - intros [Ht | Hn]; unfold extractDate.
    + now rewrite Ht.
    + destruct (truthy c); [|reflexivity].
      destruct (matchDate (cellString c)) eqn:E; [|reflexivity].
      apply matchDate_iff in E. contradiction.
  - intros inventory lay r row tx -> H. now apply importRow_date in H.
Qed.

(* ------------------------------------------------------------------ *)
(** * Import: amounts *)

Lemma importRow_amount inventory today lay r row tx :
  importRow inventory today lay r row = Some tx ->
  exists a, extractAmount (priceCol lay) row = Num a /\
            ~ (a == 0)%Q /\ tx_amount tx = Qabs a.
Proof.
  unfold importRow. destruct row as [|c0 row0]; [discriminate|].
  destruct (extractAmount _ _) as [|a]; [discriminate|].
  destruct (Qeq_bool a 0) eqn:E; [discriminate|].
  destruct (classify _) as [ty st]. intros H. injection H as <-.
  exists a. repeat split. now apply Qeq_bool_neq.
Qed.

Lemma extractAmount_nil priceCol : extractAmount priceCol [] = Num 0%Q.
Proof. unfold extractAmount, cellAt. now destruct priceCol. Qed.

Lemma importRow_None inventory today lay r row :
  isFalsyNumber (extractAmount (priceCol lay) row) = true ->
  importRow inventory today lay r row = None.
Proof.
  unfold importRow. destruct row as [|c0 row0]; [reflexivity|].
  destruct (extractAmount _ _) as [|a]; [reflexivity|].
  simpl. now intros ->.
Qed.

Lemma importRow_Some inventory today lay r row :
  isFalsyNumber (extractAmount (priceCol lay) row) = false ->
  exists tx, importRow inventory today lay r row = Some tx.
Proof.
  unfold importRow. destruct row as [|c0 row0].
  - now rewrite extractAmount_nil.
  - destruct (extractAmount _ _) as [|a]; [discriminate|].
    simpl. intros ->. destruct (classify _) as [ty st]. eauto.
Qed.

Lemma Qabs_positive (a : Q) : ~ (a == 0)%Q -> (0 < Qabs a)%Q.
Proof.
  intros Ha. destruct (Qlt_le_dec 0 (Qabs a)) as [H|H]; [exact H|].
  exfalso. apply Ha.
  apply Qabs_Qle_condition in H. destruct H as [H1 H2].
  apply Qle_antisym; [exact H2 | exact H1].
Qed.

Lemma importRows_app inventory today lay a b st :
  importRows inventory today lay (a ++ b) st =
  importRows inventory today lay b (importRows inventory today lay a st).
Proof. apply fold_left_app. Qed.

Lemma importRows_In inventory today lay rows : forall st tx,
  In tx (fst (importRows inventory today lay rows st)) ->
  In tx (fst st) \/
  exists row k, In row rows /\ importRow inventory today lay (random k) row = Some tx.
Proof.
  induction rows as [|row rows IH]; intros [txs k] tx; simpl; [auto|].
  intros H. apply IH in H. destruct H as [H | (row' & k' & Hin & Hrow)].
  - destruct (importRow inventory today lay (random k) row) as [tx'|] eqn:E; simpl in H.
    + apply in_app_or in H. destruct H as [H | [<- | []]]; [now left|].
      right. exists row, k. auto.
    + now left.
  - right. exists row', k'. auto.
Qed.

Lemma importRows_length inventory today lay rows : forall st,
  length (fst (importRows inventory today lay rows st)) =
  length (fst st) +
  length (filter (fun row => negb (isFalsyNumber (extractAmount (priceCol lay) row))) rows).
Proof.
  induction rows as [|row rows IH]; intros [txs k]; simpl; [lia|].
  destruct (isFalsyNumber (extractAmount (priceCol lay) row)) eqn:E.
  - rewrite (importRow_None inventory today lay (random k) row E). simpl.
    now rewrite IH.
  - destruct (importRow_Some inventory today lay (random k) row E) as [tx ->].
    rewrite IH. simpl. rewrite length_app. simpl. lia.
Qed.

Lemma importRows_skip inventory today lay pre row post st :
  isFalsyNumber (extractAmount (priceCol lay) row) = true ->
  importRows inventory today lay (pre ++ row :: post) st =
  importRows inventory today lay (pre ++ post) st.
Proof.
  intros Hz. rewrite !importRows_app.
  destruct (importRows inventory today lay pre st) as [txs k].
  change (importRows inventory today lay (row :: post) (txs, k))
    with (importRows inventory today lay post
            (importStep inventory today lay (txs, k) row)).
  unfold importStep.
  now rewrite (importRow_None inventory today lay (random k) row Hz).
Qed.

Lemma processFile_In inventory today rows tx :
  In tx (processFile inventory today rows) ->
  exists row k,
    In row (skipn (startDataRow (locateHeader rows)) rows) /\
    importRow inventory today (locateHeader rows) (random k) row = Some tx.
Proof.
  unfold processFile. intros H. apply importRows_In in H.
  destruct H as [[] | H]. exact H.
Qed.

(** C3.  Every record the import emits has a positive amount, the absolute
    value of the non-zero number read from the price cell; a row whose price
    cell gives zero, [NaN] or nothing emits no record: the loop runs as if
    the row were not there, and its batch is exactly one record shorter than
    with a variant of the row that gives a non-zero amount.  The same holds
    of [processFile] when the row is a data row and the header layout of the
    two grids is the same. *)
Theorem import_amount_positive inventory today :
  (forall rows tx, In tx (processFile inventory today rows) ->
     (0 < tx_amount tx)%Q) /\
  (forall lay r row tx, importRow inventory today lay r row = Some tx ->
     exists a, extractAmount (priceCol lay) row = Num a /\
               ~ (a == 0)%Q /\ tx_amount tx = Qabs a) /\
  (forall lay r row,
     isFalsyNumber (extractAmount (priceCol lay) row) = true ->
     importRow inventory today lay r row = None) /\
  (forall lay pre row row' post st,
     isFalsyNumber (extractAmount (priceCol lay) row) = true ->
     isFalsyNumber (extractAmount (priceCol lay) row') = false ->
     importRows inventory today lay (pre ++ row :: post) st =
     importRows inventory today lay (pre ++ post) st /\
     length (fst (importRows inventory today lay (pre ++ row' :: post) st)) =
     S (length (fst (importRows inventory today lay (pre ++ row :: post) st)))) /\
  (forall lay pre row row' post,
     locateHeader (pre ++ row :: post) = lay ->
     locateHeader (pre ++ row' :: post) = lay ->
     startDataRow lay <= length pre ->
     isFalsyNumber (extractAmount (priceCol lay) row) = true ->
     isFalsyNumber (extractAmount (priceCol lay) row') = false ->
     length (processFile inventory today (pre ++ row' :: post)) =
     S (length (processFile inventory today (pre ++ row :: post)))).
Proof.
  split; [|split; [|split; [|split]]].
  - intros rows tx H. apply processFile_In in H.
    destruct H as (row & k & _ & H). apply importRow_amount in H.
    destruct H as (a & _ & Ha & ->). now apply Qabs_positive.
  - intros lay r row tx. apply importRow_amount.
  - intros lay r row. apply importRow_None.
  - intros lay pre row row' post st Hz Hnz.
    split; [now apply importRows_skip|].
    rewrite !importRows_length, !filter_app. simpl.
    rewrite Hz, Hnz. simpl. rewrite !length_app. simpl. lia.
  - intros lay pre row row' post L L' Hstart Hz Hnz.
    unfold processFile. rewrite L, L'.
    assert (Hsk : forall x, skipn (startDataRow lay) (pre ++ x :: post) =
                            skipn (startDataRow lay) pre ++ x :: post).
    { intros x. rewrite skipn_app.
      replace (startDataRow lay - length pre) with 0 by lia. reflexivity. }
    rewrite !Hsk, !importRows_length, !filter_app. simpl.
    rewrite Hz, Hnz. simpl. rewrite !length_app. simpl. lia.
Qed.

(* ------------------------------------------------------------------ *)
(** * Import: classification *)

Lemma existsb_includes (s : jsstring) (ks : list jsstring) :
  existsb (fun k => includes s k) ks = true <-> containsAny s ks.
Proof.
  rewrite existsb_exists. unfold containsAny.
  split; intros (k & Hk & H); exists k; split; auto; now apply includes_iff.
Qed.

Lemma classify_spec (lowerName : jsstring) :
  (containsAny lowerName expenseKeywords ->
     classify lowerName = (expense, completed)) /\
  (~ containsAny lowerName expenseKeywords -> containsAny lowerName debtKeywords ->
     classify lowerName = (debt, pending)) /\
  (~ containsAny lowerName expenseKeywords -> ~ containsAny lowerName debtKeywords ->
     classify lowerName = (sale, completed)).
Proof.
  unfold classify.
  destruct (existsb (fun k => includes lowerName k) expenseKeywords) eqn:E;
    destruct (existsb (fun k => includes lowerName k) debtKeywords) eqn:D;
    repeat split; intros; try reflexivity;
    try (apply existsb_includes in E);
    try (apply existsb_includes in D);
    try contradiction;
    match goal with
    | H : containsAny _ _ |- _ =>
        apply existsb_includes in H; congruence
    end.
Qed.

Lemma importRow_classified inventory today lay r row tx :
  importRow inventory today lay r row = Some tx ->
  tx_client tx = extractName (nameCol lay) row /\
  (tx_type tx, tx_status tx) = classify (toLowerCase (tx_client tx)).
Proof.
  unfold importRow. destruct row as [|c0 row0]; [discriminate|].
  destruct (extractAmount _ _) as [|a]; [discriminate|].
  destruct (Qeq_bool a 0); [discriminate|].
  destruct (classify _) as [ty st] eqn:E. intros H. injection H as <-.
  simpl. now rewrite E.
Qed.

(** C4.  Every record of the batch carries the name extracted from one of
    the data rows and is typed by that name in lower case: an expense keyword
    makes it a completed expense even when a debt keyword is present too;
    otherwise a debt keyword makes it a pending debt; otherwise it is a
    completed sale. *)
Theorem classification_precedence inventory today rows tx :
  In tx (processFile inventory today rows) ->
  classifiedByKeywords tx /\
  exists row,
    In row (skipn (startDataRow (locateHeader rows)) rows) /\
    tx_client tx = extractName (nameCol (locateHeader rows)) row.
Proof.
  intros H. apply processFile_In in H. destruct H as (row & k & Hin & H).
  apply importRow_classified in H. destruct H as [Hname Hcls].
  split; [|now exists row].
  unfold classifiedByKeywords.
  destruct (classify_spec (toLowerCase (tx_client tx))) as (He & Hd & Hs).
  repeat split; intros;
    first [ rewrite He in Hcls by assumption
          | rewrite Hd in Hcls by assumption
          | rewrite Hs in Hcls by assumption ];
    congruence.
Qed.

(* ------------------------------------------------------------------ *)
(** * Import: the header locator *)

Lemma scanHeader_none (rows : list Row) : forall s,
  (forall i, i < length rows -> isHeaderRow (nth i rows []) = false) ->
  scanHeader s rows = None.
Proof.
  induction rows as [|r rows IH]; intros s H; simpl; [reflexivity|].
  pose proof (H 0 ltac:(simpl; lia)) as H0. simpl in H0. rewrite H0.
  apply IH. intros i Hi. apply (H (S i)). simpl. lia.
Qed.

Lemma scanHeader_first (rows : list Row) : forall s i,
  i < length rows ->
  isHeaderRow (nth i rows []) = true ->
  (forall j, j < i -> isHeaderRow (nth j rows []) = false) ->
  scanHeader s rows = Some (s + i, nth i rows []).
Proof.
  induction rows as [|r rows IH]; intros s i Hi Ht Hf; simpl in Hi; [lia|].
  destruct i as [|i].
  - simpl in *. rewrite Ht. now rewrite Nat.add_0_r.
  - pose proof (Hf 0 ltac:(lia)) as H0. simpl in H0. simpl. rewrite H0.
    rewrite (IH (S s) i); [|lia|exact Ht|].
    + now rewrite Nat.add_succ_r.
    + intros j Hj. apply (Hf (S j)). lia.
Qed.

Lemma nth_scanned (rows : list Row) (i : nat) :
  i < Nat.min 10 (length rows) ->
  nth i (firstn (Nat.min (length rows) 10) rows) [] = nth i rows [].
Proof.
  intros Hi. rewrite nth_firstn.
  destruct (i <? Nat.min (length rows) 10) eqn:E; [reflexivity|].
  apply Nat.ltb_ge in E. lia.
Qed.

Lemma length_scanned (rows : list Row) :
  length (firstn (Nat.min (length rows) 10) rows) = Nat.min 10 (length rows).
Proof. rewrite length_firstn. lia. Qed.

Lemma findHeader_none (rows : list Row) : noHeader rows -> findHeader rows = None.
Proof.
  intros H. unfold findHeader. apply scanHeader_none.
  rewrite length_scanned. intros i Hi. rewrite nth_scanned by exact Hi. now apply H.
Qed.

Lemma findHeader_at (rows : list Row) (i : nat) :
  headerAt rows i -> findHeader rows = Some (i, nth i rows []).
Proof.
  intros (Hi & Ht & Hf). unfold findHeader.
  rewrite (scanHeader_first _ 0 i).
  - now rewrite nth_scanned.
  - now rewrite length_scanned.
  - now rewrite nth_scanned.
  - intros j Hj. rewrite nth_scanned by lia. now apply Hf.
Qed.

Section ColumnScan.

(** One of the three column variables, and the test that sets it. *)
Variable proj : Columns -> option nat.
Variable p : jsstring -> bool.
Hypothesis proj_step : forall cols idx c,
  proj (mapColumn cols (idx, c)) = if p (cellStr c) then Some idx else proj cols.

Lemma scan_never (row : Row) : forall s cols,
  neverMatched p row ->
  proj (fold_left mapColumn (combine (seq s (length row)) row) cols) = proj cols.
Proof using proj_step.
  induction row as [|c row IH]; intros s cols H; [reflexivity|].
  cbn [length seq combine fold_left].
  rewrite IH.
  - rewrite proj_step.
    pose proof (H 0 ltac:(simpl; lia)) as H0. unfold cellAt in H0. simpl in H0.
    now rewrite H0.
  - intros j Hj. apply (H (S j)). simpl. lia.
Qed.

Lemma scan_last (row : Row) : forall s cols idx,
  lastMatch p row idx ->
  proj (fold_left mapColumn (combine (seq s (length row)) row) cols) = Some (s + idx).
Proof using proj_step.
  induction row as [|c row IH]; intros s cols idx (Hi & Ht & Hf);
    simpl in Hi; [lia|].
  cbn [length seq combine fold_left].
  destruct idx as [|idx].
  - rewrite scan_never.
    + rewrite proj_step. unfold cellAt in Ht. simpl in Ht. rewrite Ht.
      now rewrite Nat.add_0_r.
    + intros j Hj. apply (Hf (S j)). simpl. lia.
  - rewrite (IH (S s) _ idx).
    + now rewrite Nat.add_succ_r.
    + repeat split; [lia | exact Ht |].
      intros j Hj. apply (Hf (S j)). simpl. lia.
Qed.

End ColumnScan.

Lemma name_step cols idx c :
  nameColIndex (mapColumn cols (idx, c)) =
  if isNameHeader (cellStr c) then Some idx else nameColIndex cols.
Proof. reflexivity. Qed.

Lemma price_step cols idx c :
  priceColIndex (mapColumn cols (idx, c)) =
  if isPriceHeader (cellStr c) then Some idx else priceColIndex cols.
Proof. reflexivity. Qed.

Lemma date_step cols idx c :
  dateColIndex (mapColumn cols (idx, c)) =
  if isDateHeader (cellStr c) then Some idx else dateColIndex cols.
Proof. reflexivity. Qed.

(** C5.  Without a header row among the first [min(10, rowCount)] rows the
    columns are name 3, price 8, date 0 and the data starts at row 1; with
    the first header row at index [i] the data starts at row [i + 1], a
    column no cell of that row names falls back to the same fixed index, and
    a column that is named takes the index of the last cell naming it.  Row 0
    is never a data row, and the batch is built from the rows from the start
    row on. *)
Theorem header_fallback_policy (rows : list Row) :
  (noHeader rows ->
     headerRowIndex (locateHeader rows) = None /\
     nameCol (locateHeader rows) = 3 /\
     priceCol (locateHeader rows) = 8 /\
     dateCol (locateHeader rows) = 0 /\
     startDataRow (locateHeader rows) = 1) /\
  (forall i, headerAt rows i ->
     headerRowIndex (locateHeader rows) = Some i /\
     startDataRow (locateHeader rows) = i + 1 /\
     (neverMatched isNameHeader (nth i rows []) -> nameCol (locateHeader rows) = 3) /\
     (neverMatched isPriceHeader (nth i rows []) -> priceCol (locateHeader rows) = 8) /\
     (neverMatched isDateHeader (nth i rows []) -> dateCol (locateHeader rows) = 0) /\
     (forall idx, lastMatch isNameHeader (nth i rows []) idx ->
        nameCol (locateHeader rows) = idx) /\
     (forall idx, lastMatch isPriceHeader (nth i rows []) idx ->
        priceCol (locateHeader rows) = idx) /\
     (forall idx, lastMatch isDateHeader (nth i rows []) idx ->
        dateCol (locateHeader rows) = idx)) /\
  1 <= startDataRow (locateHeader rows) /\
  (forall inventory today,
     processFile inventory today rows =
     fst (importRows inventory today (locateHeader rows)
            (skipn (startDataRow (locateHeader rows)) rows) ([], 0))).
Proof.
  split; [|split; [|split]].
  - intros H. unfold locateHeader. rewrite (findHeader_none rows H). simpl. auto.
  - intros i H. unfold locateHeader. rewrite (findHeader_at rows i H). simpl.
    unfold mapColumns, indexed.
    repeat split.
    + intros Hn. now rewrite (scan_never nameColIndex _ name_step _ _ _ Hn).
    + intros Hn. now rewrite (scan_never priceColIndex _ price_step _ _ _ Hn).
    + intros Hn. now rewrite (scan_never dateColIndex _ date_step _ _ _ Hn).
    + intros idx Hl. now rewrite (scan_last nameColIndex _ name_step _ _ _ _ Hl).
    + intros idx Hl. now rewrite (scan_last priceColIndex _ price_step _ _ _ _ Hl).
    + intros idx Hl. now rewrite (scan_last dateColIndex _ date_step _ _ _ _ Hl).
  - unfold locateHeader. destruct (findHeader rows) as [[i r]|]; simpl; lia.
  - reflexivity.
Qed.

(* ------------------------------------------------------------------ *)
(** * Chart down-sampling *)

Lemma ceil_div_Z (a b : Z) : (0 < b)%Z -> (- (- a / b) = (a + b - 1) / b)%Z.
Proof.
  intros Hb.
  pose proof (Z.div_mod (- a) b ltac:(lia)) as E.
  pose proof (Z.mod_pos_bound (- a) b Hb) as R.
  apply Z.div_unique with (r := (b - 1 - (- a) mod b)%Z); [left; lia|].
  nia.
Qed.

Lemma windowSizeOf_ceilDiv (len limit : nat) :
  0 < limit -> windowSizeOf len limit = ceilDiv len limit.
Proof.
  intros Hl. unfold windowSizeOf, ceilDiv.
  destruct limit as [|l]; [lia|].
  set (b := Z.of_nat (S l)). set (a := Z.of_nat len).
  assert (Hb : (0 < b)%Z) by (unfold b; lia).
  unfold Qceiling.
  assert (E : (- (inject_Z a / inject_Z b) == inject_Z (- a) / inject_Z b)%Q).
  { unfold Qdiv. rewrite inject_Z_opp. ring. }
  rewrite (Qfloor_comp _ _ E), <- Zdiv_Qdiv, ceil_div_Z by exact Hb.
  apply Nat2Z.inj. rewrite Z2Nat.id.
  - rewrite Nat2Z.inj_div. f_equal. unfold a, b. lia.
  - apply Z.div_pos; unfold a, b; lia.
Qed.

Lemma ceilDiv_covers (len limit : nat) :
  0 < limit -> len <= ceilDiv len limit * limit.
Proof.
  intros Hl. unfold ceilDiv.
  pose proof (Nat.div_mod (len + limit - 1) limit ltac:(lia)) as E.
  pose proof (Nat.mod_upper_bound (len + limit - 1) limit ltac:(lia)) as R.
  nia.
Qed.

Lemma ceilDiv_positive (len limit : nat) :
  0 < limit -> 0 < len -> 0 < ceilDiv len limit.
Proof.
  intros Hl Hn. pose proof (ceilDiv_covers len limit Hl).
  destruct (ceilDiv len limit); simpl in *; lia.
Qed.

Section Chunks.

Context {A : Type}.
Variable size : nat.
Hypothesis size_positive : 0 < size.

Lemma chunksFrom_nil fuel : chunksFrom fuel size (@nil A) = [].
Proof. now destruct fuel. Qed.

Lemma chunksFrom_concat fuel : forall l : list A,
  length l <= fuel -> concat (chunksFrom fuel size l) = l.
Proof using size_positive.
  induction fuel as [|fuel IH]; intros l Hl.
  - destruct l; [reflexivity | simpl in Hl; lia].
  - destruct l as [|x l]; [reflexivity|].
    cbn [chunksFrom concat]. rewrite IH.
    + apply firstn_skipn.
    + rewrite length_skipn. cbn [length] in *. lia.
Qed.

Lemma chunksFrom_bounds fuel : forall (l w : list A),
  In w (chunksFrom fuel size l) -> 0 < length w <= size.
Proof using size_positive.
  induction fuel as [|fuel IH]; intros l w H; [destruct H|].
  destruct l as [|x l]; [destruct H|].
  cbn [chunksFrom] in H. destruct H as [<- | H].
  - rewrite length_firstn. simpl length. lia.
  - eapply IH, H.
Qed.

Lemma chunksFrom_full fuel : forall (l : list A) k,
  S k < length (chunksFrom fuel size l) ->
  length (nth k (chunksFrom fuel size l) []) = size.
Proof using size_positive.
  induction fuel as [|fuel IH]; intros l k H; [simpl in H; lia|].
  destruct l as [|x l]; [simpl in H; lia|].
  cbn [chunksFrom] in *. cbn [length] in H.
  destruct k as [|k].
  - cbn [nth]. rewrite length_firstn.
    destruct (le_lt_dec (length (x :: l)) size) as [Hle|Hlt]; [|lia].
    rewrite (skipn_all2 _ Hle), chunksFrom_nil in H. simpl in H. lia.
  - cbn [nth]. apply IH. lia.
Qed.

Lemma chunksFrom_count fuel : forall l : list A,
  length l <= fuel ->
  length (chunksFrom fuel size l) * size < length l + size.
Proof using size_positive.
  induction fuel as [|fuel IH]; intros l Hl; [simpl; lia|].
  destruct l as [|x l]; [simpl; lia|].
  cbn [chunksFrom length].
  assert (Hs : length (skipn size (x :: l)) <= fuel).
  { rewrite length_skipn. cbn [length] in *. lia. }
  specialize (IH _ Hs). rewrite length_skipn in IH. cbn [length] in *.
  destruct (le_lt_dec size (S (length l))) as [Hle|Hlt]; [nia|].
  assert (E : skipn size (x :: l) = []) by (apply skipn_all2; simpl; lia).
  rewrite E, chunksFrom_nil. simpl. lia.
Qed.

End Chunks.

Lemma windowLoop_chunks fuel : forall data windowSize i result,
  0 < windowSize ->
  length (skipn i data) <= fuel ->
  windowLoop fuel data windowSize i result =
  Some (result ++ flat_map windowPoint (chunksFrom fuel windowSize (skipn i data))).
Proof.
  induction fuel as [|fuel IH]; intros data w i result Hw Hf.
  - rewrite length_skipn in Hf. simpl.
    destruct (i <? length data) eqn:E; [apply Nat.ltb_lt in E; lia|].
    now rewrite app_nil_r.
  - cbn [windowLoop]. destruct (i <? length data) eqn:E.
    + apply Nat.ltb_lt in E.
      unfold slice. replace (i + w - i) with w by lia.
      destruct (skipn i data) as [|x rest] eqn:R.
      { apply (f_equal (@length _)) in R. rewrite length_skipn in R. simpl in R. lia. }
      assert (Hskip : skipn (i + w) data = skipn w (x :: rest)).
      { rewrite <- R, skipn_skipn. f_equal. lia. }
      assert (Hlen : length (skipn (i + w) data) <= fuel).
      { rewrite length_skipn. cbn [length] in Hf.
        apply (f_equal (@length _)) in R. rewrite length_skipn in R.
        cbn [length] in R. lia. }
      cbn [chunksFrom flat_map].
      destruct (firstn w (x :: rest)) as [|w0 win] eqn:F.
      { destruct w; [lia | discriminate]. }
      rewrite (IH data w (i + w) _ Hw Hlen), Hskip.
      cbn [windowPoint]. now rewrite <- app_assoc.
    + apply Nat.ltb_ge in E. rewrite (skipn_all2 _ E), chunksFrom_nil.
      simpl. now rewrite app_nil_r.
Qed.

Lemma optimizeChartData_small data limit :
  length data <= limit -> optimizeChartData data limit = Some data.
Proof.
  intros H. unfold optimizeChartData.
  apply Nat.leb_le in H. now rewrite H.
Qed.

Lemma optimizeChartData_large data limit :
  0 < limit -> limit < length data ->
  optimizeChartData data limit =
  Some (flat_map windowPoint (chunks (ceilDiv (length data) limit) data)).
Proof.
  intros Hl H. unfold optimizeChartData.
  destruct (length data <=? limit) eqn:E; [apply Nat.leb_le in E; lia|].
  rewrite windowSizeOf_ceilDiv by exact Hl.
  rewrite windowLoop_chunks.
  - reflexivity.
  - apply ceilDiv_positive; lia.
  - rewrite length_skipn. lia.
Qed.

Lemma fold_sum (f : ChartPoint -> Q) (l : list ChartPoint) : forall a,
  fold_left (fun sum item => doubleAdd sum (f item)) l a =
  fold_left doubleAdd (map f l) a.
Proof.
  induction l as [|x l IH]; intros a; simpl; [reflexivity | apply IH].
Qed.

Lemma Math_round_nearest (q q' : Q) :
  (q == q')%Q -> nearestInteger q' (Math_round q).
Proof.
  intros E. unfold nearestInteger, Math_round.
  exists (Qfloor (q + (1 # 2))). split; [reflexivity|].
  pose proof (Qfloor_le (q + (1 # 2))) as Hle.
  pose proof (Qlt_floor (q + (1 # 2))) as Hlt.
  rewrite inject_Z_plus in Hlt. change (inject_Z 1) with 1%Q in Hlt.
  generalize dependent (inject_Z (Qfloor (q + (1 # 2)))). intros z Hle Hlt.
  split; lra.
Qed.

Lemma windowAverage_computed (f : ChartPoint -> Q) (w : list ChartPoint) :
  nearestInteger (computedMean (map f w)) (windowAverage f w).
Proof.
  apply Math_round_nearest. unfold computedMean.
  now rewrite fold_sum, length_map.
Qed.

Lemma nearestInteger_compat (q q' r : Q) :
  (q == q')%Q -> nearestInteger q r -> nearestInteger q' r.
Proof.
  intros E (z & Hr & Hlo & Hhi). exists z. split; [exact Hr|]. split; lra.
Qed.

Lemma windowPoint_averages (ws : list (list ChartPoint)) :
  (forall w, In w ws -> 0 < length w) ->
  Forall2 averages (flat_map windowPoint ws) ws.
Proof.
  induction ws as [|w ws IH]; intros H; [constructor|].
  pose proof (H w (or_introl eq_refl)) as Hw.
  destruct w as [|w0 w]; [simpl in Hw; lia|].
  cbn [flat_map windowPoint app]. constructor.
  - cbn [averages date fullDate revenue expenses].
    repeat split; apply windowAverage_computed.
  - apply IH. intros w' Hin. apply H. now right.
Qed.

Lemma averages_summarises (out : list ChartPoint) (ws : list (list ChartPoint)) :
  Forall2 averages out ws ->
  (forall w, In w ws -> exactMean (map revenue w) /\ exactMean (map expenses w)) ->
  Forall2 summarises out ws.
Proof.
  induction 1 as [|p w out ws Hp Hrest IH]; intros Hex; [constructor|].
  constructor.
  - destruct (Hex w (or_introl eq_refl)) as [Er Ee].
    destruct w as [|w0 w]; [destruct Hp|].
    destruct Hp as (Hd & Hf & Hr & He).
    repeat split; [exact Hd | exact Hf | |].
    + exact (nearestInteger_compat _ _ _ Er Hr).
    + exact (nearestInteger_compat _ _ _ Ee He).
  - apply IH. intros w' Hin. apply Hex. now right.
Qed.

Lemma length_flat_map_windowPoint (ws : list (list ChartPoint)) :
  (forall w, In w ws -> 0 < length w) ->
  length (flat_map windowPoint ws) = length ws.
Proof.
  intros H. apply Forall2_length with (R := averages).
  now apply windowPoint_averages.
Qed.

Lemma chunks_partitions {A : Type} (size : nat) (data : list A) :
  0 < size -> partitions size data (chunks size data).
Proof.
  intros Hs. unfold partitions, chunks. repeat split.
  - now apply chunksFrom_concat.
  - eapply chunksFrom_bounds; eauto.
  - eapply chunksFrom_bounds; eauto.
  - intros k Hk. now apply chunksFrom_full.
Qed.

Lemma optimizeChartData_large_spec data limit :
  0 < limit -> limit < length data ->
  exists out ws,
    optimizeChartData data limit = Some out /\
    partitions (ceilDiv (length data) limit) data ws /\
    Forall2 averages out ws /\
    length out <= limit.
Proof.
  intros Hl H.
  set (size := ceilDiv (length data) limit).
  assert (Hs : 0 < size) by (apply ceilDiv_positive; lia).
  pose proof (chunks_partitions size data Hs) as P.
  assert (Hne : forall w, In w (chunks size data) -> 0 < length w).
  { intros w Hw. now apply (proj1 (proj2 P)). }
  exists (flat_map windowPoint (chunks size data)), (chunks size data).
  split; [|split; [|split]].
  - now apply optimizeChartData_large.
  - exact P.
  - now apply windowPoint_averages.
  - rewrite (length_flat_map_windowPoint _ Hne).
    pose proof (chunksFrom_count size Hs (length data) data (le_n _)) as C.
    pose proof (ceilDiv_covers (length data) limit Hl) as V.
    fold (chunks size data) in C. fold size in V. nia.
Qed.

(** C2.  With the cap of 100 points a series of at most 100 points is
    returned as it is; a longer one is cut into consecutive windows of
    [ceil(L / 100)] points (the last one possibly shorter), each window is
    replaced by one point carrying the window's first date and, for revenue
    and expenses, the integer nearest to the mean as doubles give it (the
    values added from the left, then one division), and at most 100 points
    come out; the function always returns, and down-sampling its result again
    changes nothing.  Where no rounding error is made on the means of the
    windows, the values are the arithmetic means rounded to the nearest
    integer. *)
Theorem downsampling_spec (data : list ChartPoint) :
  (length data <= 100 -> chartData data = Some data) /\
  (100 < length data ->
     exists out ws,
       chartData data = Some out /\
       partitions (ceilDiv (length data) 100) data ws /\
       Forall2 averages out ws /\
       length out <= 100 /\
       ((forall w, In w ws ->
           exactMean (map revenue w) /\ exactMean (map expenses w)) ->
        Forall2 summarises out ws)) /\
  (exists out, chartData data = Some out) /\
  (forall out, chartData data = Some out -> chartData out = Some out).
Proof.
  unfold chartData.
  assert (Hcases : exists out, optimizeChartData data 100 = Some out /\ length out <= 100).
  { destruct (le_lt_dec (length data) 100) as [Hle|Hlt].
    - exists data. split; [now apply optimizeChartData_small | exact Hle].
    - destruct (optimizeChartData_large_spec data 100 ltac:(lia) Hlt)
        as (out & ws & E & _ & _ & L). now exists out. }
  split; [|split; [|split]].
  - apply optimizeChartData_small.
  - intros Hlt.
    destruct (optimizeChartData_large_spec data 100 ltac:(lia) Hlt)
      as (out & ws & E & P & A & L).
    exists out, ws.
    split; [exact E|]. split; [exact P|]. split; [exact A|]. split; [exact L|].
    now apply averages_summarises.
  - destruct Hcases as (out & E & _). now exists out.
  - intros out E. destruct Hcases as (out' & E' & L).
    rewrite E in E'. injection E' as <-. now apply optimizeChartData_small.
Qed.

(* ------------------------------------------------------------------ *)
(** * Aggregation *)

Lemma type_eqb_eq (a b : TransactionType) : type_eqb a b = true <-> a = b.
Proof. destruct a, b; simpl; split; congruence. Qed.

Lemma status_eqb_eq (a b : TransactionStatus) : status_eqb a b = true <-> a = b.
Proof. destruct a, b; simpl; split; congruence. Qed.

Lemma sum_filter_cons {A : Type} (f : A -> Q) (p : A -> bool) (x : A) (l : list A) :
  (sumQ (map f (filter p (x :: l))) ==
   (if p x then f x else 0) + sumQ (map f (filter p l)))%Q.
Proof. simpl. destruct (p x); simpl; ring. Qed.

Lemma dashStep_sales acc t :
  (acc_totalSalesUSD (dashStep acc t) ==
   acc_totalSalesUSD acc +
   (if isSaleOrCash t && isCompleted t then normalized t else 0))%Q.
Proof.
  unfold dashStep, isCompleted.
  destruct (isSaleOrCash t && status_eqb (tx_status t) completed);
    [simpl; ring|].
  destruct (type_eqb (tx_type t) expense); [simpl; ring|].
  destruct (type_eqb (tx_type t) debt && negb (status_eqb (tx_status t) completed));
    simpl; ring.
Qed.

Lemma dashStep_debt acc t :
  (acc_totalDebt (dashStep acc t) ==
   acc_totalDebt acc +
   (if isDebt t && negb (isCompleted t) then normalized t else 0))%Q.
Proof.
  unfold dashStep, isSaleOrCash, isDebt, isCompleted.
  destruct (tx_type t), (tx_status t); simpl; ring.
Qed.

Lemma dash_fold l : forall acc,
  (acc_totalSalesUSD (fold_left dashStep l acc) ==
   acc_totalSalesUSD acc + completedSalesSum l)%Q /\
  (acc_totalDebt (fold_left dashStep l acc) ==
   acc_totalDebt acc + outstandingSum l)%Q.
Proof.
  unfold completedSalesSum, outstandingSum.
  induction l as [|t l IH]; intros acc.
  - simpl. split; ring.
  - cbn [fold_left]. destruct (IH (dashStep acc t)) as [Hs Hd].
    rewrite Hs, Hd, dashStep_sales, dashStep_debt, !sum_filter_cons.
    split; ring.
Qed.

(** C9.  In the dashboard statistics the IQD sales total is the USD sales
    total times 1520, the USD sales total being the normalized sum of the
    completed sale and cash transactions; the debt total is the normalized
    sum of the debts whose status is not completed, times 1520; normalizing
    divides an IQD amount by 1520 and leaves a USD amount as it is. *)
Theorem dashboard_derived_totals (filteredTransactions : list Transaction) :
  (ds_totalSalesIQD (dashboardStats filteredTransactions) ==
   ds_totalSalesUSD (dashboardStats filteredTransactions) * 1520)%Q /\
  (ds_totalSalesUSD (dashboardStats filteredTransactions) ==
   completedSalesSum filteredTransactions)%Q /\
  (ds_totalDebt (dashboardStats filteredTransactions) ==
   outstandingSum filteredTransactions * 1520)%Q /\
  (forall t, tx_currency t = IQD -> normalized t = (tx_amount t / 1520)%Q) /\
  (forall t, tx_currency t = USD -> normalized t = tx_amount t).
Proof.
  destruct (dash_fold filteredTransactions (mkDashAcc 0 0 0 (repeat 0%Q 7)))
    as [Hs Hd].
  unfold dashboardStats. cbn [ds_totalSalesIQD ds_totalSalesUSD ds_totalDebt].
  split; [|split; [|split; [|split]]].
  - reflexivity.
  - rewrite Hs. simpl. ring.
  - rewrite Hd. unfold EXCHANGE_RATE. simpl. ring.
  - intros t H. unfold normalized. now rewrite H.
  - intros t H. unfold normalized. now rewrite H.
Qed.

Lemma reportStep_debts acc t :
  (acc_collectedDebt (reportStep acc t) ==
   acc_collectedDebt acc +
   (if isDebt t && isCompleted t then normalized t else 0))%Q /\
  (acc_pendingDebt (reportStep acc t) ==
   acc_pendingDebt acc +
   (if isDebt t && isPending t then normalized t else 0))%Q.
Proof.
  unfold reportStep, isDebt, isCompleted, isPending.
  destruct (tx_type t), (tx_status t); simpl; split; ring.
Qed.

Lemma report_fold l : forall acc,
  (acc_collectedDebt (fold_left reportStep l acc) ==
   acc_collectedDebt acc + collectedSum l)%Q /\
  (acc_pendingDebt (fold_left reportStep l acc) ==
   acc_pendingDebt acc + pendingSum l)%Q.
Proof.
  unfold collectedSum, pendingSum.
  induction l as [|t l IH]; intros acc.
  - simpl. split; ring.
  - cbn [fold_left]. destruct (IH (reportStep acc t)) as [Hc Hp].
    destruct (reportStep_debts acc t) as [Sc Sp].
    rewrite Hc, Hp, Sc, Sp, !sum_filter_cons.
    split; ring.
Qed.












(* ------------------------------------------------------------------ *)
(** * Settlement *)

Lemma isClientPendingDebt_iff clientName t :
  isClientPendingDebt clientName t = true <->
  tx_client t = clientName /\ tx_type t = debt /\ tx_status t = pending.
Proof.
  unfold isClientPendingDebt.
  rewrite !andb_true_iff, eqb_eq, type_eqb_eq, status_eqb_eq.
  split; [intros [[? ?] ?] | intros (? & ? & ?)]; auto.
Qed.

Lemma find_settled_absent today (p : Transaction -> bool) i l :
  (forall u, In u l -> tx_id u <> i) ->
  find (fun u => eqb (tx_id u) i) (map (settled today) (filter p l)) = None.
Proof.
  induction l as [|x l IH]; intros H; [reflexivity|].
  simpl. destruct (p x).
  - simpl. rewrite (proj2 (eqb_neq _ _) (H x (or_introl eq_refl))).
    apply IH. intros u Hu. apply H. now right.
  - apply IH. intros u Hu. apply H. now right.
Qed.

Lemma find_settled today (p : Transaction -> bool) l :
  NoDup (map tx_id l) ->
  forall t, In t l ->
  find (fun u => eqb (tx_id u) (tx_id t)) (map (settled today) (filter p l)) =
  if p t then Some (settled today t) else None.
Proof.
  induction l as [|x l IH]; intros Hnd t Hin; [destruct Hin|].
  simpl in Hnd. inversion Hnd as [|? ? Hx Hnd']; subst.
  assert (Hrest : forall u, In u l -> tx_id u <> tx_id x).
  { intros u Hu E. apply Hx. rewrite <- E. now apply in_map. }
  destruct Hin as [-> | Hin].
  - simpl. destruct (p t) eqn:P.
    + simpl. now rewrite eqb_refl.
    + now apply find_settled_absent.
  - assert (Hne : tx_id x <> tx_id t) by (intros E; apply (Hrest t Hin); auto).
    simpl. destruct (p x).
    + simpl. rewrite (proj2 (eqb_neq _ _) Hne). now apply IH.
    + now apply IH.
Qed.

Lemma settlement_map today clientName transactions :
  NoDup (map tx_id transactions) ->
  handleSettleClientDebt true today clientName transactions =
  map (fun t => if isClientPendingDebt clientName t then settled today t else t)
      transactions.
Proof.
  intros Hnd. unfold handleSettleClientDebt, applySettlement, settledCopies.
  apply map_ext_in. intros t Ht.
  rewrite (find_settled today _ transactions Hnd t Ht).
  now destruct (isClientPendingDebt clientName t).
Qed.

Lemma settled_not_pending today clientName t :
  isClientPendingDebt clientName (settled today t) = false.
Proof.
  unfold isClientPendingDebt. simpl. now rewrite andb_false_r.
Qed.

Lemma settledCopies_find today clientName transactions t :
  In t transactions -> isClientPendingDebt clientName t = true ->
  exists u, find (fun u => eqb (tx_id u) (tx_id t))
                 (settledCopies today clientName transactions) = Some u.
Proof.
  intros Hin Hp.
  destruct (find (fun u => eqb (tx_id u) (tx_id t))
                 (settledCopies today clientName transactions)) as [u|] eqn:E;
    [now exists u|].
  exfalso.
  assert (Hs : In (settled today t) (settledCopies today clientName transactions)).
  { unfold settledCopies. apply in_map, filter_In. auto. }
  pose proof (find_none _ _ E _ Hs) as Hn. simpl in Hn.
  now rewrite eqb_refl in Hn.
Qed.

Lemma settledCopies_shape today clientName transactions u :
  In u (settledCopies today clientName transactions) ->
  tx_client u = clientName /\ tx_type u = debt /\ tx_status u = completed /\
  tx_date u = today.
Proof.
  unfold settledCopies. intros H. apply in_map_iff in H.
  destruct H as (t & <- & Ht). apply filter_In in Ht. destruct Ht as [_ Hp].
  apply isClientPendingDebt_iff in Hp. destruct Hp as (Hc & Hty & _).
  simpl. auto.
Qed.

Lemma settlement_leaves_none today clientName transactions t' :
  In t' (handleSettleClientDebt true today clientName transactions) ->
  isClientPendingDebt clientName t' = false.
Proof.
  unfold handleSettleClientDebt, applySettlement. intros H.
  apply in_map_iff in H. destruct H as (t & <- & Hin).
  destruct (find (fun u => eqb (tx_id u) (tx_id t))
                 (settledCopies today clientName transactions)) as [u|] eqn:E.
  - apply find_some in E. destruct E as [Hu _].
    unfold settledCopies in Hu. apply in_map_iff in Hu.
    destruct Hu as (t0 & <- & _). apply settled_not_pending.
  - destruct (isClientPendingDebt clientName t) eqn:P; [|reflexivity].
    destruct (settledCopies_find today clientName transactions t Hin P) as [u Hu].
    congruence.
Qed.

Lemma find_settled_none today (p : Transaction -> bool) i l :
  (forall u, In u l -> p u = true -> tx_id u <> i) ->
  find (fun u => eqb (tx_id u) i) (map (settled today) (filter p l)) = None.
Proof.
  induction l as [|x l IH]; intros H; [reflexivity|].
  cbn [filter]. destruct (p x) eqn:P.
  - cbn [map find]. change (tx_id (settled today x)) with (tx_id x).
    rewrite (proj2 (eqb_neq _ _) (H x (or_introl eq_refl) P)).
    apply IH. intros u Hu. apply H. now right.
  - apply IH. intros u Hu. apply H. now right.
Qed.

Lemma settlement_distinct_ids today clientName transactions :
  NoDup (map tx_id transactions) ->
  forall i t, nth_error transactions i = Some t ->
    exists t',
      nth_error (handleSettleClientDebt true today clientName transactions) i = Some t' /\
      (tx_client t = clientName -> tx_type t = debt -> tx_status t = pending ->
         tx_status t' = completed /\ tx_date t' = today /\
         sameButStatusAndDate t t') /\
      (tx_client t <> clientName \/ tx_type t <> debt \/ tx_status t <> pending ->
         t' = t).
Proof.
  intros Hnd. rewrite (settlement_map today clientName transactions Hnd).
  intros i t Hi.
  exists (if isClientPendingDebt clientName t then settled today t else t).
  split; [now rewrite nth_error_map, Hi|]. split.
  - intros Hc Hty Hst.
    rewrite (proj2 (isClientPendingDebt_iff clientName t)) by auto.
    unfold sameButStatusAndDate. simpl. repeat split.
  - intros Hother. destruct (isClientPendingDebt clientName t) eqn:E; [|reflexivity].
    apply isClientPendingDebt_iff in E. destruct E as (? & ? & ?).
    destruct Hother as [H'|[H'|H']]; contradiction.
Qed.

(** C7.  Settling a client deletes nothing: the number of records is
    unchanged.  Every pending debt of that client comes out, at its place and
    under its id, as a completed debt of the client dated today, and no
    pending debt of the client is left.  A record whose id is not the id of
    one of the client's pending debts comes out identical.  In a store whose
    ids are pairwise distinct this covers every record of another client, of
    another type or of another status, and a settled debt then keeps every
    field but status and date. *)
Theorem settlement_frame (today clientName : jsstring) (transactions : list Transaction) :
  length (handleSettleClientDebt true today clientName transactions) =
  length transactions /\
  (forall t', In t' (handleSettleClientDebt true today clientName transactions) ->
     ~ (tx_client t' = clientName /\ tx_type t' = debt /\ tx_status t' = pending)) /\
  (forall i t, nth_error transactions i = Some t ->
     tx_client t = clientName -> tx_type t = debt -> tx_status t = pending ->
     exists t',
       nth_error (handleSettleClientDebt true today clientName transactions) i = Some t' /\
       tx_id t' = tx_id t /\ tx_client t' = clientName /\ tx_type t' = debt /\
       tx_status t' = completed /\ tx_date t' = today) /\
  (forall i t, nth_error transactions i = Some t ->
     (forall u, In u transactions ->
        tx_client u = clientName -> tx_type u = debt -> tx_status u = pending ->
        tx_id u <> tx_id t) ->
     nth_error (handleSettleClientDebt true today clientName transactions) i = Some t) /\
  (NoDup (map tx_id transactions) ->
   forall i t, nth_error transactions i = Some t ->
     exists t',
       nth_error (handleSettleClientDebt true today clientName transactions) i = Some t' /\
       (tx_client t = clientName -> tx_type t = debt -> tx_status t = pending ->
          tx_status t' = completed /\ tx_date t' = today /\
          sameButStatusAndDate t t') /\
       (tx_client t <> clientName \/ tx_type t <> debt \/ tx_status t <> pending ->
          t' = t)).
Proof.
  split; [|split; [|split; [|split]]].
  - unfold handleSettleClientDebt, applySettlement. apply length_map.
  - intros t' Hin H. apply isClientPendingDebt_iff in H.
    rewrite (settlement_leaves_none today clientName transactions t' Hin) in H.
    discriminate.
  - intros i t Hi Hc Hty Hst.
    assert (Hp : isClientPendingDebt clientName t = true)
      by (apply isClientPendingDebt_iff; auto).
    destruct (settledCopies_find today clientName transactions t
                (nth_error_In _ _ Hi) Hp) as [t' Hf].
    exists t'. unfold handleSettleClientDebt, applySettlement.
    rewrite nth_error_map, Hi. cbn [option_map]. rewrite Hf.
    split; [reflexivity|].
    pose proof (find_some _ _ Hf) as [Hin Heq]. apply eqb_eq in Heq.
    split; [exact Heq|]. now apply settledCopies_shape in Hin.
  - intros i t Hi Hfree.
    unfold handleSettleClientDebt, applySettlement, settledCopies.
    rewrite nth_error_map, Hi. cbn [option_map].
    rewrite find_settled_none; [reflexivity|].
    intros u Hu Hp. apply isClientPendingDebt_iff in Hp.
    destruct Hp as (Hc & Hty & Hst). now apply Hfree.
  - apply settlement_distinct_ids.
Qed.

(* ------------------------------------------------------------------ *)
(** * Debt grouping *)

Lemma eqb_sym (a b : jsstring) : eqb a b = eqb b a.
Proof.
  destruct (eqb a b) eqn:E.
  - apply eqb_eq in E. subst. symmetry. apply eqb_refl.
  - apply eqb_neq in E. symmetry. apply eqb_neq. congruence.
Qed.

Section JSMapFacts.

Context {V : Type}.

Lemma mapGet_mapSet (k k' : jsstring) (v : V) (m : JSMap V) :
  mapGet k' (mapSet k v m) = if eqb k' k then Some v else mapGet k' m.
Proof.
  induction m as [|[k0 v0] m IH]; simpl; [reflexivity|].
  destruct (eqb k k0) eqn:E; simpl.
  - apply eqb_eq in E. subst k0. now destruct (eqb k' k).
  - rewrite IH. destruct (eqb k' k0) eqn:E0; [|reflexivity].
    apply eqb_eq in E0. subst k0. apply eqb_neq in E.
    now rewrite (proj2 (eqb_neq k' k)) by congruence.
Qed.

Lemma mapGet_None (k : jsstring) (m : JSMap V) :
  mapGet k m = None <-> ~ In k (map fst m).
Proof.
  induction m as [|[k0 v0] m IH]; simpl; [split; [intros _ [] | reflexivity]|].
  destruct (eqb k k0) eqn:E.
  - apply eqb_eq in E. subst. split; [discriminate|]. intros H. exfalso. auto.
  - apply eqb_neq in E. rewrite IH. split.
    + intros H [H'|H']; [congruence | contradiction].
    + intros H H'. apply H. now right.
Qed.

Lemma mapGet_In (k : jsstring) (v : V) (m : JSMap V) :
  mapGet k m = Some v -> In (k, v) m.
Proof.
  induction m as [|[k0 v0] m IH]; simpl; [discriminate|].
  destruct (eqb k k0) eqn:E.
  - apply eqb_eq in E. subst. intros H. injection H as ->. now left.
  - intros H. right. now apply IH.
Qed.

Lemma In_mapGet (k : jsstring) (v : V) (m : JSMap V) :
  NoDup (map fst m) -> In (k, v) m -> mapGet k m = Some v.
Proof.
  induction m as [|[k0 v0] m IH]; simpl; intros Hnd Hin; [destruct Hin|].
  inversion Hnd as [|? ? Hk Hnd']; subst.
  destruct Hin as [H | H].
  - injection H as -> ->. now rewrite eqb_refl.
  - destruct (eqb k k0) eqn:E.
    + apply eqb_eq in E. subst. exfalso. apply Hk.
      change k0 with (fst (k0, v)). now apply in_map.
    + now apply IH.
Qed.

Lemma mapSet_keys (k : jsstring) (v : V) (m : JSMap V) :
  map fst (mapSet k v m) =
  match mapGet k m with
  | Some _ => map fst m
  | None => map fst m ++ [k]
  end.
Proof.
  induction m as [|[k0 v0] m IH]; simpl; [reflexivity|].
  destruct (eqb k k0) eqn:E; simpl; [reflexivity|].
  rewrite IH. now destruct (mapGet k m).
Qed.

Lemma mapSet_NoDup (k : jsstring) (v : V) (m : JSMap V) :
  NoDup (map fst m) -> NoDup (map fst (mapSet k v m)).
Proof.
  intros H. rewrite mapSet_keys. destruct (mapGet k m) eqn:E; [exact H|].
  apply mapGet_None in E.
  apply NoDup_rev in H. rewrite <- (rev_involutive (map fst m ++ [k])).
  apply NoDup_rev. rewrite rev_app_distr. simpl. constructor; [|exact H].
  now rewrite <- in_rev.
Qed.

Lemma mapSet_In_keys (k k' : jsstring) (v : V) (m : JSMap V) :
  In k' (map fst (mapSet k v m)) <-> In k' (map fst m) \/ k' = k.
Proof.
  rewrite mapSet_keys. destruct (mapGet k m) eqn:E.
  - split; [now left|]. intros [H | ->]; [exact H|].
    apply mapGet_In in E. change k with (fst (k, v0)). now apply in_map.
  - rewrite in_app_iff. simpl. split.
    + intros [H | [H | []]]; [now left | right; congruence].
    + intros [H | H]; [now left | right; left; congruence].
Qed.

End JSMapFacts.

Lemma groupStep_get name m t :
  mapGet name (groupStep m t) =
  if eqb (tx_client t) name
  then Some (addDebt (match mapGet name m with Some e => e | None => freshGroup t end) t)
  else mapGet name m.
Proof.
  unfold groupStep. rewrite mapGet_mapSet, (eqb_sym name).
  destruct (eqb (tx_client t) name) eqn:E; [|reflexivity].
  apply eqb_eq in E. now rewrite E.
Qed.

Lemma fold_groupStep_get name l : forall m,
  mapGet name (fold_left groupStep l m) = groupOf name l (mapGet name m).
Proof.
  unfold groupOf. induction l as [|t l IH]; intros m; [reflexivity|].
  cbn [fold_left]. now rewrite IH, groupStep_get.
Qed.

Lemma fold_groupStep_NoDup l : forall m,
  NoDup (map fst m) -> NoDup (map fst (fold_left groupStep l m)).
Proof.
  induction l as [|t l IH]; intros m H; [exact H|].
  cbn [fold_left]. apply IH. unfold groupStep. now apply mapSet_NoDup.
Qed.

Lemma fold_groupStep_keys name l : forall m,
  In name (map fst (fold_left groupStep l m)) <->
  In name (map fst m) \/ exists t, In t l /\ tx_client t = name.
Proof.
  induction l as [|t l IH]; intros m.
  - simpl. split; [now left|]. intros [H | (t & [] & _)]. exact H.
  - cbn [fold_left]. rewrite IH. unfold groupStep. rewrite mapSet_In_keys. split.
    + intros [[H | ->] | (t' & Hin & E)].
      * now left.
      * right. exists t. split; [now left | reflexivity].
      * right. exists t'. split; [now right | exact E].
    + intros [H | (t' & [<- | Hin] & E)].
      * left. now left.
      * left. right. now symmetry.
      * right. now exists t'.
Qed.

Lemma groupOf_Some name l : forall e,
  groupOf name l (Some e) =
  Some (fold_left addDebt (filter (fun t => eqb (tx_client t) name) l) e).
Proof.
  unfold groupOf. induction l as [|t l IH]; intros e; [reflexivity|].
  cbn [fold_left filter]. destruct (eqb (tx_client t) name).
  - now rewrite IH.
  - apply IH.
Qed.

Lemma groupOf_None name l :
  groupOf name l None =
  match filter (fun t => eqb (tx_client t) name) l with
  | [] => None
  | t :: ts => Some (fold_left addDebt (t :: ts) (freshGroup t))
  end.
Proof.
  induction l as [|t l IH]; [reflexivity|].
  cbn [filter]. unfold groupOf in *. cbn [fold_left].
  destruct (eqb (tx_client t) name).
  - apply groupOf_Some.
  - exact IH.
Qed.

Lemma addDebt_fold_total ts : forall e,
  (total (fold_left addDebt ts e) == total e + sumQ (map tx_amount ts))%Q.
Proof.
  induction ts as [|t ts IH]; intros e; simpl.
  - ring.
  - rewrite IH. simpl. ring.
Qed.

Lemma addDebt_fold_count ts : forall e,
  count (fold_left addDebt ts e) = count e + length ts.
Proof.
  induction ts as [|t ts IH]; intros e; simpl; [lia|].
  rewrite IH. simpl. lia.
Qed.

Lemma addDebt_fold_phone ts : forall e,
  phone (fold_left addDebt ts e) =
  match filter hasPhone (rev ts) with
  | t :: _ => phoneOrEmpty t
  | [] => phone e
  end.
Proof.
  induction ts as [|t ts IH] using rev_ind; intros e; [reflexivity|].
  rewrite fold_left_app, rev_app_distr. simpl.
  destruct (hasPhone t); [reflexivity | apply IH].
Qed.

Lemma addDebt_fold_lastDate_In ts : forall e,
  In (lastDate (fold_left addDebt ts e)) (lastDate e :: map tx_date ts).
Proof.
  induction ts as [|t ts IH]; intros e; [now left|].
  cbn [fold_left map]. destruct (IH (addDebt e t)) as [H | H].
  - rewrite <- H. simpl. destruct (dateAfter (tx_date t) (lastDate e)).
    + right. now left.
    + now left.
  - right. now right.
Qed.

Lemma addDebt_fold_latest ts : forall e z0,
  getTime (lastDate e) = Some z0 ->
  (forall t, In t ts -> getTime (tx_date t) <> None) ->
  exists z,
    getTime (lastDate (fold_left addDebt ts e)) = Some z /\ (z0 <= z)%Z /\
    forall t z', In t ts -> getTime (tx_date t) = Some z' -> (z' <= z)%Z.
Proof.
  induction ts as [|t ts IH]; intros e z0 H0 Hp.
  - exists z0. repeat split; [exact H0 | lia | intros t z' []].
  - destruct (getTime (tx_date t)) as [zt|] eqn:Et;
      [|exfalso; apply (Hp t); [now left | exact Et]].
    assert (H1 : getTime (lastDate (addDebt e t)) = Some (Z.max z0 zt)).
    { simpl. unfold dateAfter. rewrite Et, H0.
      destruct (z0 <? zt)%Z eqn:C.
      - apply Z.ltb_lt in C. rewrite Et. f_equal. lia.
      - apply Z.ltb_ge in C. rewrite H0. f_equal. lia. }
    destruct (IH (addDebt e t) _ H1) as (z & Hz & Hle & Hall).
    { intros t' Ht'. apply Hp. now right. }
    exists z. cbn [fold_left]. repeat split; [exact Hz | lia |].
    intros t' z' [<- | Hin] E'.
    + rewrite Et in E'. injection E' as <-. lia.
    + now apply (Hall t').
Qed.

Lemma hasPhone_false t : hasPhone t = false -> phoneOrEmpty t = [].
Proof.
  unfold hasPhone, phoneOrEmpty. destruct (tx_clientPhone t) as [[|c p]|];
    [reflexivity | discriminate | reflexivity].
Qed.

Lemma fresh_fold_phone t ts :
  phone (fold_left addDebt (t :: ts) (freshGroup t)) = lastPhone (t :: ts).
Proof.
  rewrite addDebt_fold_phone. unfold lastPhone.
  destruct (filter hasPhone (rev (t :: ts))) as [|t' r] eqn:E; [|reflexivity].
  simpl. apply hasPhone_false.
  destruct (hasPhone t) eqn:H; [|reflexivity].
  assert (Hin : In t (filter hasPhone (rev (t :: ts)))).
  { apply filter_In. split; [apply -> in_rev; now left | exact H]. }
  rewrite E in Hin. destruct Hin.
Qed.

Lemma sumQ_perm (l l' : list Q) : Permutation l l' -> (sumQ l == sumQ l')%Q.
Proof.
  induction 1; simpl.
  - reflexivity.
  - now rewrite IHPermutation.
  - ring.
  - now rewrite IHPermutation1.
Qed.

Lemma debtList_lookup transactions name g :
  In (name, g) (debtList transactions) ->
  exists t ts, debtsOf name transactions = t :: ts /\
               g = fold_left addDebt (t :: ts) (freshGroup t).
Proof.
  intros H. unfold debtList in H.
  apply In_mapGet in H; [|apply fold_groupStep_NoDup; constructor].
  rewrite fold_groupStep_get, groupOf_None in H. cbn [mapGet] in H.
  unfold debtsOf.
  destruct (filter (fun t => eqb (tx_client t) name) (filter isPendingDebt transactions))
    as [|t ts]; [discriminate|].
  injection H as <-. now exists t, ts.
Qed.

Lemma debtList_keys transactions name :
  In name (map fst (debtList transactions)) <->
  exists t, In t transactions /\ isPendingDebt t = true /\ tx_client t = name.
Proof.
  unfold debtList. rewrite fold_groupStep_keys. simpl. split.
  - intros [[] | (t & Hin & E)]. apply filter_In in Hin. exists t.
    destruct Hin; auto.
  - intros (t & Hin & Hp & E). right. exists t. split; [|exact E].
    apply filter_In. auto.
Qed.

Lemma debtList_group transactions name g :
  In (name, g) (debtList transactions) ->
  (total g == sumQ (map tx_amount (debtsOf name transactions)))%Q /\
  count g = length (debtsOf name transactions) /\
  phone g = lastPhone (debtsOf name transactions) /\
  In (lastDate g) (map tx_date (debtsOf name transactions)) /\
  ((forall t, In t (debtsOf name transactions) -> getTime (tx_date t) <> None) ->
   exists z, getTime (lastDate g) = Some z /\
             forall t z', In t (debtsOf name transactions) ->
                          getTime (tx_date t) = Some z' -> (z' <= z)%Z).
Proof.
  intros H. apply debtList_lookup in H. destruct H as (t & ts & -> & ->).
  split; [|split; [|split; [|split]]].
  - rewrite addDebt_fold_total. simpl. ring.
  - rewrite addDebt_fold_count. reflexivity.
  - apply fresh_fold_phone.
  - destruct (addDebt_fold_lastDate_In (t :: ts) (freshGroup t)) as [E | E].
    + rewrite <- E. now left.
    + exact E.
  - intros Hp.
    destruct (getTime (tx_date t)) as [z0|] eqn:E0;
      [|exfalso; apply (Hp t); [now left | exact E0]].
    destruct (addDebt_fold_latest (t :: ts) (freshGroup t) z0 E0 Hp)
      as (z & Hz & _ & Hall).
    exists z. split; [exact Hz|]. intros t' z'. apply Hall.
Qed.

Lemma addDebt_fold_unparsable ts : forall e,
  getTime (lastDate e) = None ->
  lastDate (fold_left addDebt ts e) = lastDate e.
Proof.
  induction ts as [|t ts IH]; intros e H; [reflexivity|].
  assert (E : lastDate (addDebt e t) = lastDate e).
  { simpl. unfold dateAfter. rewrite H. now destruct (getTime (tx_date t)). }
  cbn [fold_left]. rewrite IH; [exact E | now rewrite E].
Qed.

Lemma addDebt_fold_latest_parsed ts : forall e z0,
  getTime (lastDate e) = Some z0 ->
  exists z,
    getTime (lastDate (fold_left addDebt ts e)) = Some z /\ (z0 <= z)%Z /\
    forall t z', In t ts -> getTime (tx_date t) = Some z' -> (z' <= z)%Z.
Proof.
  induction ts as [|t ts IH]; intros e z0 H0.
  - exists z0. repeat split; [exact H0 | lia | intros t z' []].
  - destruct (getTime (tx_date t)) as [zt|] eqn:Et.
    + assert (H1 : getTime (lastDate (addDebt e t)) = Some (Z.max z0 zt)).
      { simpl. unfold dateAfter. rewrite Et, H0.
        destruct (z0 <? zt)%Z eqn:C.
        - apply Z.ltb_lt in C. rewrite Et. f_equal. lia.
        - apply Z.ltb_ge in C. rewrite H0. f_equal. lia. }
      destruct (IH (addDebt e t) _ H1) as (z & Hz & Hle & Hall).
      exists z. cbn [fold_left]. repeat split; [exact Hz | lia |].
      intros t' z' [<- | Hin] E'.
      * rewrite Et in E'. injection E' as <-. lia.
      * now apply (Hall t').
    + assert (H1 : getTime (lastDate (addDebt e t)) = Some z0).
      { simpl. unfold dateAfter. now rewrite Et. }
      destruct (IH (addDebt e t) _ H1) as (z & Hz & Hle & Hall).
      exists z. cbn [fold_left]. repeat split; [exact Hz | exact Hle |].
      intros t' z' [<- | Hin] E'.
      * congruence.
      * now apply (Hall t').
Qed.

Lemma debtList_lastDate transactions name g :
  In (name, g) (debtList transactions) ->
  exists t0 rest,
    debtsOf name transactions = t0 :: rest /\
    (getTime (tx_date t0) = None -> lastDate g = tx_date t0) /\
    (getTime (tx_date t0) <> None ->
     exists z, getTime (lastDate g) = Some z /\
               forall t z', In t (debtsOf name transactions) ->
                            getTime (tx_date t) = Some z' -> (z' <= z)%Z).
Proof.
  intros H. apply debtList_lookup in H. destruct H as (t & ts & E & ->).
  exists t, ts. split; [exact E|]. rewrite E. split.
  - intros Hn. cbn [fold_left].
    assert (E1 : lastDate (addDebt (freshGroup t) t) = tx_date t).
    { simpl. unfold dateAfter. now rewrite Hn. }
    rewrite addDebt_fold_unparsable; [exact E1 | now rewrite E1].
  - intros Hp. destruct (getTime (tx_date t)) as [z0|] eqn:E0; [|congruence].
    destruct (addDebt_fold_latest_parsed (t :: ts) (freshGroup t) z0 E0)
      as (z & Hz & _ & Hall).
    exists z. split; [exact Hz|]. intros t' z'. apply Hall.
Qed.

Lemma isPendingDebt_iff t :
  isPendingDebt t = true <-> tx_type t = debt /\ tx_status t = pending.
Proof.
  unfold isPendingDebt, isDebt, isPending.
  now rewrite andb_true_iff, type_eqb_eq, status_eqb_eq.
Qed.

(** C8.  The grouper yields one summary per client that has a transaction
    of type debt and status pending, and no other; a client's summary is
    about these transactions alone, and carries the sum of their amounts,
    their number, the last non-empty phone among them in list order (or the
    empty string), and as last date the date of one of them: the date of
    the first of them when that date does not parse, and otherwise the
    latest, by parsed time, of those that parse.  Three pending debts of 10,
    20 and 30 on increasing dates give total 60, count 3 and the third date,
    in whatever order they are stored. *)
Theorem debt_grouping_spec (transactions : list Transaction) :
  NoDup (map fst (debtList transactions)) /\
  (forall name,
     In name (map fst (debtList transactions)) <->
     exists t, In t transactions /\ tx_type t = debt /\ tx_status t = pending /\
               tx_client t = name) /\
  (forall name t,
     In t (debtsOf name transactions) <->
     In t transactions /\ tx_type t = debt /\ tx_status t = pending /\
     tx_client t = name) /\
  (forall name g,
     In (name, g) (debtList transactions) ->
     (total g == sumQ (map tx_amount (debtsOf name transactions)))%Q /\
     count g = length (debtsOf name transactions) /\
     phone g = lastPhone (debtsOf name transactions) /\
     In (lastDate g) (map tx_date (debtsOf name transactions)) /\
     exists first rest,
       debtsOf name transactions = first :: rest /\
       (getTime (tx_date first) = None -> lastDate g = tx_date first) /\
       (getTime (tx_date first) <> None ->
        exists z, getTime (lastDate g) = Some z /\
                  forall t z', In t (debtsOf name transactions) ->
                               getTime (tx_date t) = Some z' -> (z' <= z)%Z)) /\
  (forall name t1 t2 t3 z1 z2 z3,
     Permutation (debtsOf name transactions) [t1; t2; t3] ->
     (tx_amount t1 == 10)%Q -> (tx_amount t2 == 20)%Q -> (tx_amount t3 == 30)%Q ->
     getTime (tx_date t1) = Some z1 -> getTime (tx_date t2) = Some z2 ->
     getTime (tx_date t3) = Some z3 -> (z1 < z2)%Z -> (z2 < z3)%Z ->
     exists g,
       In (name, g) (debtList transactions) /\
       (total g == 60)%Q /\ count g = 3 /\ lastDate g = tx_date t3).
Proof.
  split; [|split; [|split; [|split]]].
  - apply fold_groupStep_NoDup. constructor.
  - intros name. rewrite debtList_keys. split.
    + intros (t & Hin & Hp & Hc). apply isPendingDebt_iff in Hp.
      destruct Hp. exists t. auto.
    + intros (t & Hin & Hty & Hst & Hc). exists t.
      split; [exact Hin|]. split; [|exact Hc]. apply isPendingDebt_iff. auto.
  - intros name t. unfold debtsOf.
    rewrite !filter_In, isPendingDebt_iff, eqb_eq. split.
    + intros [(Hin & Hty & Hst) Hc]. auto.
    + intros (Hin & Hty & Hst & Hc). auto.
  - intros name g Hin.
    destruct (debtList_group transactions name g Hin) as (Ht & Hc & Hph & Hd & _).
    split; [exact Ht|]. split; [exact Hc|]. split; [exact Hph|]. split; [exact Hd|].
    now apply debtList_lastDate.
  - intros name t1 t2 t3 z1 z2 z3 P A1 A2 A3 E1 E2 E3 L12 L23.
    assert (Hmem : forall t, In t (debtsOf name transactions) ->
                             t = t1 \/ t = t2 \/ t = t3).
    { intros t Ht. apply (Permutation_in _ P) in Ht. simpl in Ht.
      destruct Ht as [<- | [<- | [<- | []]]]; auto. }
    assert (H3 : In t3 (debtsOf name transactions)).
    { apply (Permutation_in _ (Permutation_sym P)). simpl. auto. }
    assert (Hkey : In name (map fst (debtList transactions))).
    { apply debtList_keys. unfold debtsOf in H3.
      apply filter_In in H3. destruct H3 as [H3 Hn]. apply filter_In in H3.
      exists t3. apply eqb_eq in Hn. destruct H3; auto. }
    apply in_map_iff in Hkey. destruct Hkey as ([name' g] & En & Hin).
    simpl in En. subst name'. exists g. split; [exact Hin|].
    destruct (debtList_group transactions name g Hin) as (Ht & Hc & _ & Hd & Hmax).
    split; [|split].
    + rewrite Ht, (sumQ_perm _ _ (Permutation_map tx_amount P)). simpl.
      rewrite A1, A2, A3. reflexivity.
    + rewrite Hc, (Permutation_length P). reflexivity.
    + destruct Hmax as (z & Hz & Hall).
      { intros t Ht'. destruct (Hmem t Ht') as [-> | [-> | ->]]; congruence. }
      pose proof (Hall t3 z3 H3 E3) as Hz3.
      apply in_map_iff in Hd. destruct Hd as (t & Edate & Ht').
      rewrite <- Edate in Hz |- *.
      destruct (Hmem t Ht') as [-> | [-> | ->]]; [| |reflexivity];
        rewrite Hz in *; exfalso;
        match goal with H : Some _ = Some _ |- _ => injection H as H; lia end.
Qed.

Lemma debtList_withCurrency (relabel : Transaction -> Currency) transactions : forall m,
  fold_left groupStep
    (filter isPendingDebt (map (fun t => withCurrency (relabel t) t) transactions)) m =
  fold_left groupStep (filter isPendingDebt transactions) m.
Proof.
  induction transactions as [|t l IH]; intros m; [reflexivity|].
  cbn [map filter].
  change (isPendingDebt (withCurrency (relabel t) t)) with (isPendingDebt t).
  destruct (isPendingDebt t); [|apply IH].
  cbn [fold_left].
  change (groupStep m (withCurrency (relabel t) t)) with (groupStep m t).
  apply IH.
Qed.

(** C10.  The grouper never looks at the currency: tagging the records with
    any other currencies leaves its result unchanged, and a client's total is
    the plain sum of the amounts.  For one client owing 10 USD and 1520 IQD
    the grouped total is 1530, whereas the dashboard and the report, which
    normalize to USD first, count 11 USD (16720 in IQD display units). *)
Theorem debt_grouping_raw_amounts
    (transactions : list Transaction) (relabel : Transaction -> Currency) :
  debtList (map (fun t => withCurrency (relabel t) t) transactions) =
  debtList transactions /\
  (forall name g,
     In (name, g) (debtList transactions) ->
     (total g == sumQ (map tx_amount (debtsOf name transactions)))%Q) /\
  In (lit "Ali") (map fst (debtList mixedDebts)) /\
  (forall g, In (lit "Ali", g) (debtList mixedDebts) -> (total g == 1530)%Q) /\
  (ds_totalDebt (dashboardStats mixedDebts) == 11 * 1520)%Q /\
  (rs_compositionDebt (reportTotals mixedDebts) == 11)%Q.
Proof.
  split; [|split; [|split; [|split; [|split]]]].
  - apply debtList_withCurrency.
  - intros name g H. now apply debtList_group in H.
  - apply debtList_keys. eexists. split; [left; reflexivity|]. split; reflexivity.
  - intros g H. apply debtList_group in H. destruct H as [H _].
    rewrite H. reflexivity.
  - reflexivity.
  - reflexivity.
Qed.

(* ------------------------------------------------------------------ *)
(** * More on the import *)

Lemma classify_cases lowerName :
  classify lowerName = (sale, completed) \/
  classify lowerName = (expense, completed) \/
  classify lowerName = (debt, pending).
Proof.
  unfold classify.
  destruct (existsb (fun k => includes lowerName k) expenseKeywords); auto.
  destruct (existsb (fun k => includes lowerName k) debtKeywords); auto.
Qed.

Lemma importRow_fields inventory today lay r row tx :
  importRow inventory today lay r row = Some tx ->
  tx_id tx = generateId r /\
  tx_client tx = extractName (nameCol lay) row /\
  tx_date tx = extractDate today (cellAt row (dateCol lay)) /\
  tx_time tx = lit "12:00" /\ tx_method tx = lit "Import" /\
  tx_currency tx = IQD /\ tx_clientPhone tx = None /\ tx_rawText tx = None /\
  (tx_type tx, tx_status tx) = classify (toLowerCase (tx_client tx)) /\
  tx_itemId tx =
    option_map inv_id
      (find (fun inv => eqb (toLowerCase (inv_name inv)) (toLowerCase (tx_client tx)))
            inventory).
Proof.
  unfold importRow. destruct row as [|c0 row0]; [discriminate|].
  destruct (extractAmount _ _) as [|a]; [discriminate|].
  destruct (Qeq_bool a 0); [discriminate|].
  destruct (classify _) as [ty st] eqn:E. intros H. injection H as <-.
  simpl. rewrite E. repeat split.
Qed.

(** X1.  Every imported record is tagged method "Import", time "12:00",
    currency IQD, carries no phone and no raw text, and is a completed sale,
    a completed expense or a pending debt: the import never produces a
    refund, a cash movement or a failed record. *)
Theorem import_record_shape inventory today rows tx :
  In tx (processFile inventory today rows) ->
  tx_method tx = lit "Import" /\ tx_time tx = lit "12:00" /\
  tx_currency tx = IQD /\ tx_clientPhone tx = None /\ tx_rawText tx = None /\
  ((tx_type tx = sale /\ tx_status tx = completed) \/
   (tx_type tx = expense /\ tx_status tx = completed) \/
   (tx_type tx = debt /\ tx_status tx = pending)).
Proof.
  intros H. apply processFile_In in H. destruct H as (row & k & _ & H).
  apply importRow_fields in H.
  destruct H as (_ & _ & _ & Ht & Hm & Hc & Hp & Hr & Hcls & _).
  repeat (split; [assumption|]).
  destruct (classify_cases (toLowerCase (tx_client tx))) as [E | [E | E]];
    rewrite E in Hcls; injection Hcls as -> ->; auto.
Qed.

Lemma importRows_projection {B : Type} (f : Transaction -> B) (g : Row -> B)
    inventory today lay :
  (forall r row tx, importRow inventory today lay r row = Some tx -> f tx = g row) ->
  forall rows st,
    map f (fst (importRows inventory today lay rows st)) =
    map f (fst st) ++ map g (filter (pricedRow lay) rows).
Proof.
  intros Hfg. induction rows as [|row rows IH]; intros [txs k].
  - simpl. now rewrite app_nil_r.
  - unfold importRows in *. cbn [fold_left filter]. rewrite IH.
    unfold importStep, pricedRow.
    destruct (isFalsyNumber (extractAmount (priceCol lay) row)) eqn:E.
    + now rewrite (importRow_None inventory today lay (random k) row E).
    + destruct (importRow_Some inventory today lay (random k) row E) as [tx Htx].
      rewrite Htx. cbn [fst negb map]. rewrite map_app, <- app_assoc.
      cbn [map app]. now rewrite (Hfg _ _ _ Htx).
Qed.

(** X2.  The batch follows the grid: it has one record for each data row
    whose price cell gives a non-zero number, in the order of the rows, with
    the name and the date extracted from that row; so it is never longer
    than the number of rows after the first, and a grid of at most one row
    imports nothing. *)
Theorem import_follows_rows inventory today rows :
  map (fun t => (tx_client t, tx_date t)) (processFile inventory today rows) =
  map (fun row => (extractName (nameCol (locateHeader rows)) row,
                   extractDate today (cellAt row (dateCol (locateHeader rows)))))
      (filter (pricedRow (locateHeader rows))
              (skipn (startDataRow (locateHeader rows)) rows)) /\
  length (processFile inventory today rows) <= length rows - 1 /\
  (length rows <= 1 -> processFile inventory today rows = []).
Proof.
  assert (Hlen : length (processFile inventory today rows) <= length rows - 1).
  { unfold processFile. rewrite importRows_length. cbn [fst length Nat.add].
    pose proof (filter_length_le
                  (fun row => negb (isFalsyNumber
                     (extractAmount (priceCol (locateHeader rows)) row)))
                  (skipn (startDataRow (locateHeader rows)) rows)) as Hf.
    rewrite length_skipn in Hf.
    assert (1 <= startDataRow (locateHeader rows)).
    { unfold locateHeader. destruct (findHeader rows) as [[i r]|]; simpl; lia. }
    lia. }
  split; [|split; [exact Hlen|]].
  - unfold processFile.
    rewrite (importRows_projection (fun t => (tx_client t, tx_date t))
               (fun row => (extractName (nameCol (locateHeader rows)) row,
                            extractDate today (cellAt row (dateCol (locateHeader rows)))))).
    + reflexivity.
    + intros r row tx H. apply importRow_fields in H.
      destruct H as (_ & Hc & Hd & _). now rewrite Hc, Hd.
  - intros H. destruct (processFile inventory today rows) as [|x l] eqn:E;
      [reflexivity | simpl in Hlen; lia].
Qed.

(** X3.  An imported record is linked to the inventory exactly when some
    item has the record's name up to letter case; the id it carries is that
    of the first such item. *)
Theorem import_inventory_link inventory today rows tx :
  In tx (processFile inventory today rows) ->
  match tx_itemId tx with
  | Some i =>
      exists pre item post,
        inventory = pre ++ item :: post /\ inv_id item = i /\
        toLowerCase (inv_name item) = toLowerCase (tx_client tx) /\
        forall other, In other pre ->
          toLowerCase (inv_name other) <> toLowerCase (tx_client tx)
  | None =>
      forall item, In item inventory ->
        toLowerCase (inv_name item) <> toLowerCase (tx_client tx)
  end.
Proof.
  intros H. apply processFile_In in H. destruct H as (row & k & _ & H).
  apply importRow_fields in H.
  destruct H as (_ & _ & _ & _ & _ & _ & _ & _ & _ & Hitem).
  rewrite Hitem. clear Hitem.
  set (name := toLowerCase (tx_client tx)).
  induction inventory as [|x inv IH]; simpl.
  - intros item [].
  - destruct (eqb (toLowerCase (inv_name x)) name) eqn:E.
    + simpl. apply eqb_eq in E. exists [], x, inv.
      repeat split; [exact E | intros other []].
    + apply eqb_neq in E.
      destruct (find (fun inv0 => eqb (toLowerCase (inv_name inv0)) name) inv)
        as [found|]; simpl in *.
      * destruct IH as (pre & item & post & -> & Hid & Hn & Hpre).
        exists (x :: pre), item, post. repeat split; auto.
        intros other [<- | Ho]; auto.
      * intros item [<- | Hi]; auto.
Qed.

Lemma idNumber_range (r : Q) :
  (0 <= r)%Q -> (r < 1)%Q ->
  (1000 <= Math_floor (1000 + r * 9000) <= 9999)%Z.
Proof.
  intros H0 H1. unfold Math_floor.
  pose proof (Qfloor_le (1000 + r * 9000)) as Hle.
  pose proof (Qlt_floor (1000 + r * 9000)) as Hlt.
  split.
  - apply Z.le_trans with (Qfloor (inject_Z 1000)); [now rewrite Qfloor_Z|].
    apply Qfloor_resp_le. change (inject_Z 1000) with 1000%Q. lra.
  - assert (Hq : (inject_Z (Qfloor (1000 + r * 9000)) < inject_Z 10000)%Q).
    { change (inject_Z 10000) with 10000%Q. lra. }
    rewrite <- Zlt_Qlt in Hq. lia.
Qed.

Lemma generateId_in_pool (r : Q) :
  (0 <= r)%Q -> (r < 1)%Q -> In (generateId r) idPool.
Proof.
  intros H0 H1. pose proof (idNumber_range r H0 H1) as Hr.
  unfold idPool, generateId. apply in_map_iff.
  exists (Z.to_nat (Math_floor (1000 + r * 9000) - 1000)). split.
  - do 3 f_equal. lia.
  - apply in_seq. lia.
Qed.

(** X4.  With draws of [Math.random()] in [0, 1) the ids of a batch come
    from the 9000 strings TX-1000 ... TX-9999; a batch whose ids are
    pairwise distinct therefore has at most 9000 records. *)
Theorem import_ids_from_pool inventory today rows :
  (forall k, (0 <= random k)%Q /\ (random k < 1)%Q) ->
  (forall tx, In tx (processFile inventory today rows) -> In (tx_id tx) idPool) /\
  (NoDup (map tx_id (processFile inventory today rows)) ->
   (Z.of_nat (length (processFile inventory today rows)) <= 9000)%Z).
Proof.
  intros Hr.
  assert (Hpool : forall tx, In tx (processFile inventory today rows) ->
                             In (tx_id tx) idPool).
  { intros tx H. apply processFile_In in H. destruct H as (row & k & _ & H).
    apply importRow_fields in H. destruct H as (-> & _).
    apply generateId_in_pool; apply Hr. }
  split; [exact Hpool|].
  intros Hnd.
  rewrite <- (length_map tx_id).
  assert (Hp : length idPool = Z.to_nat 9000)
    by (unfold idPool; now rewrite length_map, length_seq).
  enough (length (map tx_id (processFile inventory today rows)) <= length idPool) by lia.
  apply NoDup_incl_length; [exact Hnd|].
  intros i Hi. apply in_map_iff in Hi. destruct Hi as (tx & <- & Ht). auto.
Qed.

Lemma readDigits_nonneg (s : jsstring) : forall acc,
  (0 <= acc)%Z -> (0 <= fst (fst (readDigits acc s)))%Z.
Proof.
  induction s as [|c s IH]; intros acc Ha; simpl; [exact Ha|].
  destruct (isDigit c) eqn:D; [|exact Ha].
  specialize (IH (acc * 10 + (Z.of_N c - 48))%Z).
  destruct (readDigits (acc * 10 + (Z.of_N c - 48)) s) as [[v n] rest].
  simpl in *. apply IH.
  unfold isDigit in D. apply andb_true_iff in D. destruct D as [D _].
  apply N.leb_le in D. lia.
Qed.

Lemma parseFloat_nonneg (s : jsstring) (q : Q) :
  parseFloat s = Num q -> (0 <= q)%Q.
Proof.
  unfold parseFloat.
  pose proof (readDigits_nonneg s 0 ltac:(lia)) as Hi.
  destruct (readDigits 0 s) as [[ip ni] rest]. simpl in Hi.
  assert (Hip : (0 <= inject_Z ip)%Q) by (rewrite <- (Zle_Qle 0); exact Hi).
  assert (Hfrac : forall rest', (0 <= fst (fst (readDigits 0 rest')))%Z)
    by (intros; apply readDigits_nonneg; lia).
  destruct rest as [|c rest'].
  - destruct ni; [discriminate|]. intros H. injection H as <-. exact Hip.
  - destruct (c =? dot)%N.
    + specialize (Hfrac rest').
      destruct (readDigits 0 rest') as [[fp nf] rest2]. simpl in Hfrac.
      assert (Hq : (0 <= inject_Z ip + inject_Z fp / inject_Z (10 ^ Z.of_nat nf))%Q).
      { assert (0 <= inject_Z fp / inject_Z (10 ^ Z.of_nat nf))%Q.
        { apply Qle_shift_div_l.
          - rewrite <- (Zlt_Qlt 0). apply Z.pow_pos_nonneg; lia.
          - rewrite Qmult_0_l, <- (Zle_Qle 0). exact Hfrac. }
        lra. }
      destruct ni, nf; try discriminate; intros H; injection H as <-; exact Hq.
    + destruct ni; [discriminate|]. intros H. injection H as <-. exact Hip.
Qed.

(** X5.  A price written as text can only give a non-negative amount: of a
    string cell only the digits and the dots are read, so a sign (as any
    other character) is lost, and what the loop stores is the number read. *)
Theorem text_price_nonnegative priceCol row s q :
  cellAt row priceCol = CStr s ->
  extractAmount priceCol row = Num q ->
  (0 <= q)%Q /\ (Qabs q == q)%Q /\
  extractAmount priceCol row = parseFloat (filter (fun c => isDigit c || (c =? dot)%N) s).
Proof.
  intros Hc. unfold extractAmount. rewrite Hc. intros H.
  pose proof (parseFloat_nonneg _ _ H) as Hq.
  split; [exact Hq|]. split; [now apply Qabs_pos | reflexivity].
Qed.

(* ------------------------------------------------------------------ *)
(** * More on the dashboard and the report *)

Lemma dashStep_expenses acc t :
  (acc_totalExpensesUSD (dashStep acc t) ==
   acc_totalExpensesUSD acc + (if isExpense t then normalized t else 0))%Q.
Proof.
  unfold dashStep, isSaleOrCash, isExpense.
  destruct (tx_type t), (tx_status t); simpl; ring.
Qed.

Lemma dash_fold_expenses l : forall acc,
  (acc_totalExpensesUSD (fold_left dashStep l acc) ==
   acc_totalExpensesUSD acc + expenseSum l)%Q.
Proof.
  unfold expenseSum. induction l as [|t l IH]; intros acc.
  - simpl. ring.
  - cbn [fold_left]. rewrite IH, dashStep_expenses, sum_filter_cons. ring.
Qed.

(** X6.  In the dashboard the expense total is the normalized sum of all
    expenses whatever their status, the net profit is the completed sale and
    cash total minus it, and the count is the size of the working set; a
    refund, a sale or cash movement that is not completed, and a completed
    debt change no figure at all. *)
Theorem dashboard_buckets (filteredTransactions : list Transaction) :
  (ds_totalExpenses (dashboardStats filteredTransactions) ==
   expenseSum filteredTransactions)%Q /\
  (ds_netProfit (dashboardStats filteredTransactions) ==
   completedSalesSum filteredTransactions - expenseSum filteredTransactions)%Q /\
  ds_count (dashboardStats filteredTransactions) = length filteredTransactions /\
  (forall acc t,
     tx_type t = refund \/
     (isSaleOrCash t = true /\ tx_status t <> completed) \/
     (tx_type t = debt /\ tx_status t = completed) ->
     dashStep acc t = acc).
Proof.
  pose proof (dash_fold_expenses filteredTransactions
                (mkDashAcc 0 0 0 (repeat 0%Q 7))) as He.
  destruct (dash_fold filteredTransactions (mkDashAcc 0 0 0 (repeat 0%Q 7)))
    as [Hs _].
  unfold dashboardStats. cbn [ds_totalExpenses ds_netProfit ds_count].
  split; [|split; [|split]].
  - rewrite He. simpl. ring.
  - rewrite He, Hs. simpl. ring.
  - reflexivity.
  - intros acc t H. unfold dashStep, isSaleOrCash in *.
    destruct acc as [a b c d].
    destruct H as [H | [[H1 H2] | [H1 H2]]].
    + rewrite H. reflexivity.
    + destruct (tx_type t); try discriminate;
        destruct (tx_status t); try reflexivity; now elim H2.
    + rewrite H1, H2. reflexivity.
Qed.

Lemma addAt_length d v arr : length (addAt d v arr) = length arr.
Proof.
  revert d. induction arr as [|x arr IH]; intros [|d]; simpl; auto.
Qed.

Lemma map_fst_combine_le {A B : Type} (l : list A) : forall l' : list B,
  length l <= length l' -> map fst (combine l l') = l.
Proof.
  induction l as [|x l IH]; intros [|y l'] H; simpl in *; try lia; auto.
  now rewrite IH by lia.
Qed.

Lemma addAt_nth d v arr : forall i,
  i < length arr ->
  nth i (addAt d v arr) 0%Q = if d =? i then (nth i arr 0 + v)%Q else nth i arr 0%Q.
Proof.
  revert d. induction arr as [|x arr IH]; intros d i Hi; [simpl in Hi; lia|].
  cbn [length] in Hi. destruct d as [|d], i as [|i]; cbn [addAt nth Nat.eqb];
    try reflexivity.
  apply IH. lia.
Qed.

Lemma dashStep_bar acc t i :
  length (acc_dailyTotals acc) = 7 -> i < 7 ->
  length (acc_dailyTotals (dashStep acc t)) = 7 /\
  (nth i (acc_dailyTotals (dashStep acc t)) 0 ==
   nth i (acc_dailyTotals acc) 0 + (if soldOn i t then normalized t else 0))%Q.
Proof.
  intros Hlen Hi. unfold dashStep, soldOn, isCompleted.
  destruct (isSaleOrCash t && status_eqb (tx_status t) completed).
  - cbn [acc_dailyTotals andb].
    destruct (getDay (tx_date t)) as [d|].
    + rewrite addAt_length. split; [exact Hlen|].
      rewrite addAt_nth by lia. destruct (d =? i); ring.
    + split; [exact Hlen | ring].
  - cbn [andb].
    destruct (type_eqb (tx_type t) expense);
      [|destruct (type_eqb (tx_type t) debt && negb (status_eqb (tx_status t) completed))];
      cbn [acc_dailyTotals]; (split; [exact Hlen | ring]).
Qed.

Lemma dash_fold_bar i l : forall acc,
  length (acc_dailyTotals acc) = 7 -> i < 7 ->
  length (acc_dailyTotals (fold_left dashStep l acc)) = 7 /\
  (nth i (acc_dailyTotals (fold_left dashStep l acc)) 0 ==
   nth i (acc_dailyTotals acc) 0 + sumQ (map normalized (filter (soldOn i) l)))%Q.
Proof.
  induction l as [|t l IH]; intros acc Hlen Hi.
  - simpl. split; [exact Hlen | ring].
  - cbn [fold_left]. destruct (dashStep_bar acc t i Hlen Hi) as [Hl Hs].
    destruct (IH _ Hl Hi) as [Hl' Hs']. split; [exact Hl'|].
    rewrite Hs', Hs, sum_filter_cons. ring.
Qed.

Lemma In_combine_seq {A : Type} (v : A) : forall n a (l : list A) d,
  In (d, v) (combine (seq a n) l) -> a <= d /\ nth_error l (d - a) = Some v.
Proof.
  induction n as [|n IH]; intros a l d H; [destruct H|].
  destruct l as [|x l]; [destruct H|].
  cbn [seq combine] in H. destruct H as [H | H].
  - injection H as <- <-. split; [lia|]. now rewrite Nat.sub_diag.
  - apply IH in H. destruct H as [Hle Hn]. split; [lia|].
    replace (d - a) with (S (d - S a)) by lia. exact Hn.
Qed.

(** X7.  The weekly histogram of the dashboard always has the seven days
    0..6 in order, and the bar of a day is the sum, in list order, of the
    normalized amounts of the completed sales and cash movements dated on
    that weekday; a record whose date has no weekday changes no bar. *)
Theorem dashboard_weekly (filteredTransactions : list Transaction) :
  map fst (ds_weeklyData (dashboardStats filteredTransactions)) = seq 0 7 /\
  (forall d v,
     In (d, v) (ds_weeklyData (dashboardStats filteredTransactions)) ->
     d < 7 /\
     (v == sumQ (map normalized (filter (soldOn d) filteredTransactions)))%Q) /\
  (forall acc t, getDay (tx_date t) = None ->
     acc_dailyTotals (dashStep acc t) = acc_dailyTotals acc).
Proof.
  set (acc0 := mkDashAcc 0 0 0 (repeat 0%Q 7)).
  assert (Hlen : length (acc_dailyTotals (fold_left dashStep filteredTransactions acc0)) = 7)
    by (apply (dash_fold_bar 0 filteredTransactions acc0 eq_refl); lia).
  unfold dashboardStats. fold acc0. cbn [ds_weeklyData].
  set (daily := acc_dailyTotals (fold_left dashStep filteredTransactions acc0)) in *.
  split; [|split].
  - apply map_fst_combine_le. rewrite length_seq. lia.
  - intros d v Hin. apply In_combine_seq in Hin. destruct Hin as [_ Hn].
    rewrite Nat.sub_0_r in Hn.
    assert (Hd : d < 7).
    { rewrite <- Hlen. apply nth_error_Some. congruence. }
    split; [exact Hd|].
    destruct (dash_fold_bar d filteredTransactions acc0 eq_refl Hd) as [_ Hs].
    fold daily in Hs. rewrite (nth_error_nth _ _ 0%Q Hn) in Hs. rewrite Hs.
    assert (E0 : nth d (acc_dailyTotals acc0) 0%Q = 0%Q).
    { unfold acc0. cbn [acc_dailyTotals].
      do 7 (destruct d as [|d]; [reflexivity|]). lia. }
    rewrite E0. ring.
  - intros acc t Hn. unfold dashStep. rewrite Hn.
    destruct (isSaleOrCash t && status_eqb (tx_status t) completed); [reflexivity|].
    destruct (type_eqb (tx_type t) expense); [reflexivity|].
    now destruct (type_eqb (tx_type t) debt && negb (status_eqb (tx_status t) completed)).
Qed.

Lemma insertSorted_perm {A : Type} (compareFn : A -> A -> number) x l :
  Permutation (insertSorted compareFn x l) (x :: l).
Proof.
  induction l as [|y l IH]; simpl; [reflexivity|].
  destruct (Qle_bool (comparison (compareFn y x)) 0); [|reflexivity].
  rewrite IH. apply perm_swap.
Qed.

Lemma sortArray_perm {A : Type} (compareFn : A -> A -> number) (l : list A) :
  Permutation (sortArray compareFn l) l.
Proof.
  unfold sortArray.
  enough (H : forall acc,
             Permutation (fold_left (fun sorted x => insertSorted compareFn x sorted) l acc)
                         (acc ++ l))
    by apply (H []).
  induction l as [|x l IH]; intros acc; simpl.
  - now rewrite app_nil_r.
  - rewrite IH, insertSorted_perm. apply Permutation_middle.
Qed.

Lemma reportStep_totals acc t :
  (acc_revenue (reportStep acc t) ==
   acc_revenue acc + (if isRevenue t then normalized t else 0))%Q /\
  (acc_expenses (reportStep acc t) ==
   acc_expenses acc + (if isExpense t then normalized t else 0))%Q.
Proof.
  unfold reportStep, isRevenue, isCompleted, isExpense.
  destruct (tx_type t), (tx_status t); simpl; split; ring.
Qed.

Lemma report_fold_totals l : forall acc,
  (acc_revenue (fold_left reportStep l acc) == acc_revenue acc + revenueSum l)%Q /\
  (acc_expenses (fold_left reportStep l acc) == acc_expenses acc + expenseSum l)%Q.
Proof.
  unfold revenueSum, expenseSum.
  induction l as [|t l IH]; intros acc.
  - simpl. split; ring.
  - cbn [fold_left]. destruct (IH (reportStep acc t)) as [Hr He].
    destruct (reportStep_totals acc t) as [Sr Se].
    rewrite Hr, He, Sr, Se, !sum_filter_cons. split; ring.
Qed.

(** X9.  In the report, revenue is the sum, in list order, of what the
    completed sales and the completed (settled) debts bring; cash movements,
    refunds, pending or failed sales and failed debts count for nothing;
    expenses are all expenses, net profit is revenue minus expenses and the
    debt share is the pending debts. *)
Theorem report_revenue_recognition (filtered : list Transaction) :
  (rs_totalRevenue (reportTotals filtered) == revenueSum filtered)%Q /\
  (rs_totalExpenses (reportTotals filtered) == expenseSum filtered)%Q /\
  rs_netProfit (reportTotals filtered) =
    (rs_totalRevenue (reportTotals filtered) -
     rs_totalExpenses (reportTotals filtered))%Q /\
  (rs_compositionDebt (reportTotals filtered) == pendingSum filtered)%Q /\
  (forall t, isRevenue t = true <->
             (tx_type t = sale \/ tx_type t = debt) /\ tx_status t = completed) /\
  (forall acc t,
     tx_type t = cash \/ tx_type t = refund \/
     (tx_type t = sale /\ tx_status t <> completed) \/
     (tx_type t = debt /\ tx_status t = failed) ->
     reportStep acc t = acc).
Proof.
  destruct (report_fold_totals filtered (mkReportAcc 0 0 0 0)) as [Hr He].
  destruct (report_fold filtered (mkReportAcc 0 0 0 0)) as [_ Hp].
  unfold reportTotals.
  cbn [rs_totalRevenue rs_totalExpenses rs_netProfit rs_compositionDebt].
  split; [rewrite Hr; cbn [acc_revenue]; ring|].
  split; [rewrite He; cbn [acc_expenses]; ring|].
  split; [reflexivity|].
  split; [rewrite Hp; cbn [acc_pendingDebt]; ring|].
  split.
  - intros t. unfold isRevenue, isCompleted.
    rewrite andb_true_iff, orb_true_iff, !type_eqb_eq, status_eqb_eq. reflexivity.
  - intros acc t H. unfold reportStep. destruct acc as [a b c d].
    destruct H as [H | [H | [[H1 H2] | [H1 H2]]]].
    + rewrite H. reflexivity.
    + rewrite H. reflexivity.
    + rewrite H1. destruct (tx_status t); try reflexivity. now elim H2.
    + rewrite H1, H2. reflexivity.
Qed.

Lemma reportFiltered_In start end_ search transactions t :
  In t (reportFiltered start end_ search transactions) ->
  In t transactions /\
  exists d s e,
    getTime (tx_date t) = Some d /\ getTime start = Some s /\
    getTime end_ = Some e /\ (s <= d <= e)%Z.
Proof.
  unfold reportFiltered. intros H. apply filter_In in H.
  destruct H as [Hin H]. apply andb_true_iff in H. destruct H as [H _].
  split; [exact Hin|]. unfold matchesDate in H.
  destruct (getTime (tx_date t)) as [d|]; [|discriminate].
  destruct (getTime start) as [s|]; [|discriminate].
  destruct (getTime end_) as [e|]; [|discriminate].
  apply andb_true_iff in H. destruct H as [H1 H2].
  apply Z.leb_le in H1. apply Z.leb_le in H2.
  exists d, s, e. repeat split; auto.
Qed.

(** X10.  The report keeps a transaction only if its date parses and lies
    between the two bounds, both parsed: a transaction with an unparsable
    date is never in a report, and when a bound does not parse, or the start
    is after the end, the report is empty, with revenue, expenses and
    collection rate all 0. *)
Theorem report_range_edges
    (reportStartDate reportEndDate reportSearchTerm : jsstring)
    (transactions : list Transaction) :
  (forall t, In t (reportFiltered reportStartDate reportEndDate reportSearchTerm
                     transactions) ->
     In t transactions /\
     exists d s e,
       getTime (tx_date t) = Some d /\ getTime reportStartDate = Some s /\
       getTime reportEndDate = Some e /\ (s <= d <= e)%Z) /\
  (getTime reportStartDate = None \/ getTime reportEndDate = None \/
   (exists s e, getTime reportStartDate = Some s /\
                getTime reportEndDate = Some e /\ (e < s)%Z) ->
   reportFiltered reportStartDate reportEndDate reportSearchTerm transactions = [] /\
   (rs_totalRevenue (reportStats reportStartDate reportEndDate reportSearchTerm
                       transactions) == 0)%Q /\
   (rs_totalExpenses (reportStats reportStartDate reportEndDate reportSearchTerm
                        transactions) == 0)%Q /\
   (rs_netProfit (reportStats reportStartDate reportEndDate reportSearchTerm
                    transactions) == 0)%Q /\
   (rs_collectionRate (reportStats reportStartDate reportEndDate reportSearchTerm
                         transactions) == 0)%Q).
Proof.
  split; [intros t; apply reportFiltered_In|].
  intros H.
  assert (E : reportFiltered reportStartDate reportEndDate reportSearchTerm
                transactions = []).
  { destruct (reportFiltered reportStartDate reportEndDate reportSearchTerm
                transactions) as [|t l] eqn:E; [reflexivity|].
    assert (Hin : In t (reportFiltered reportStartDate reportEndDate
                          reportSearchTerm transactions))
      by (rewrite E; now left).
    apply reportFiltered_In in Hin.
    destruct Hin as (_ & d & s & e & _ & Hs & He & Hr).
    destruct H as [H | [H | (s' & e' & Hs' & He' & Hlt)]]; try congruence.
    rewrite Hs in Hs'. rewrite He in He'.
    injection Hs' as <-. injection He' as <-. lia. }
  split; [exact E|]. unfold reportStats. rewrite E. repeat split; reflexivity.
Qed.


(* ------------------------------------------------------------------ *)
(** * The maps of the report *)

Section Accumulate.

Context {V : Type}.
Variable g : Transaction -> bool.
Variable d : V.
Variable u : V -> Transaction -> V.

Lemma accumulateStep_get name m t :
  mapGet name (accumulateStep g d u m t) =
  if g t && eqb (tx_client t) name
  then Some (u (getOr d name m) t)
  else mapGet name m.
Proof.
  unfold accumulateStep. destruct (g t); [|reflexivity].
  rewrite mapGet_mapSet, (eqb_sym name). cbn [andb].
  destruct (eqb (tx_client t) name) eqn:E; [|reflexivity].
  apply eqb_eq in E. now rewrite E.
Qed.

Lemma accumulate_get name l : forall m,
  mapGet name (fold_left (accumulateStep g d u) l m) =
  match entriesOf g name l with
  | [] => mapGet name m
  | _ :: _ => Some (fold_left u (entriesOf g name l) (getOr d name m))
  end.
Proof.
  unfold entriesOf. induction l as [|t l IH]; intros m; [reflexivity|].
  cbn [fold_left filter]. rewrite IH.
  unfold getOr at 1. rewrite accumulateStep_get.
  destruct (g t && eqb (tx_client t) name); cbn [fold_left].
  - now destruct (filter (fun t0 => g t0 && eqb (tx_client t0) name) l).
  - reflexivity.
Qed.

Lemma accumulate_NoDup l : forall m,
  NoDup (map fst m) -> NoDup (map fst (fold_left (accumulateStep g d u) l m)).
Proof.
  induction l as [|t l IH]; intros m H; [exact H|].
  cbn [fold_left]. apply IH. unfold accumulateStep.
  destruct (g t); [now apply mapSet_NoDup | exact H].
Qed.

Lemma accumulate_keys name l : forall m,
  In name (map fst (fold_left (accumulateStep g d u) l m)) <->
  In name (map fst m) \/ exists t, In t l /\ g t = true /\ tx_client t = name.
Proof.
  induction l as [|t l IH]; intros m.
  - simpl. split; [now left|]. intros [H | (t & [] & _)]. exact H.
  - cbn [fold_left]. rewrite IH. unfold accumulateStep.
    destruct (g t) eqn:G.
    + rewrite mapSet_In_keys. split.
      * intros [[H | ->] | (t' & Hin & E)].
        -- now left.
        -- right. exists t. repeat split; [now left | exact G].
        -- right. exists t'. split; [now right | exact E].
      * intros [H | (t' & [<- | Hin] & G' & E)].
        -- left. now left.
        -- left. right. now symmetry.
        -- right. now exists t'.
    + split.
      * intros [H | (t' & Hin & E)]; [now left|].
        right. exists t'. split; [now right | exact E].
      * intros [H | (t' & [<- | Hin] & G' & E)]; [now left | congruence |].
        right. now exists t'.
Qed.

Lemma accumulate_In name v l :
  In (name, v) (fold_left (accumulateStep g d u) l []) ->
  exists t ts, entriesOf g name l = t :: ts /\ v = fold_left u (t :: ts) d.
Proof.
  intros H. apply In_mapGet in H; [|apply accumulate_NoDup; constructor].
  rewrite accumulate_get in H. cbn [mapGet getOr] in H.
  destruct (entriesOf g name l) as [|t ts]; [discriminate|].
  injection H as <-. now exists t, ts.
Qed.

End Accumulate.

Lemma mapsStep_debtorMap maps t :
  debtorMap (mapsStep maps t) =
  accumulateStep isPendingDebt 0%Q addNormalized (debtorMap maps) t.
Proof.
  unfold mapsStep, accumulateStep, isPendingDebt, isDebt, isPending, addNormalized.
  destruct (tx_type t), (tx_status t); reflexivity.
Qed.

Lemma mapsStep_expenseMap maps t :
  expenseCategoryMap (mapsStep maps t) =
  accumulateStep isExpense 0%Q addNormalized (expenseCategoryMap maps) t.
Proof.
  unfold mapsStep, accumulateStep, isExpense, addNormalized.
  destruct (tx_type t), (tx_status t); reflexivity.
Qed.

Lemma mapsStep_productMap maps t :
  productMap (mapsStep maps t) =
  accumulateStep isCompletedSale (0%Q, 0) addProduct (productMap maps) t.
Proof.
  unfold mapsStep, accumulateStep, isCompletedSale, addProduct.
  destruct (tx_type t), (tx_status t); reflexivity.
Qed.

Lemma reportMaps_fold l : forall maps,
  debtorMap (fold_left mapsStep l maps) =
    fold_left (accumulateStep isPendingDebt 0%Q addNormalized) l (debtorMap maps) /\
  expenseCategoryMap (fold_left mapsStep l maps) =
    fold_left (accumulateStep isExpense 0%Q addNormalized) l (expenseCategoryMap maps) /\
  productMap (fold_left mapsStep l maps) =
    fold_left (accumulateStep isCompletedSale (0%Q, 0) addProduct) l (productMap maps).
Proof.
  induction l as [|t l IH]; intros maps; [repeat split|].
  cbn [fold_left]. destruct (IH (mapsStep maps t)) as (H1 & H2 & H3).
  now rewrite H1, H2, H3, mapsStep_debtorMap, mapsStep_expenseMap, mapsStep_productMap.
Qed.

Lemma addNormalized_fold ts : forall v,
  (fold_left addNormalized ts v == v + sumQ (map normalized ts))%Q.
Proof.
  unfold addNormalized. induction ts as [|t ts IH]; intros v; simpl.
  - ring.
  - rewrite IH. ring.
Qed.

Lemma addProduct_fold ts : forall cur,
  (fst (fold_left addProduct ts cur) == fst cur + sumQ (map normalized ts))%Q /\
  snd (fold_left addProduct ts cur) = snd cur + length ts.
Proof.
  induction ts as [|t ts IH]; intros cur; simpl.
  - split; [ring | lia].
  - destruct (IH (addProduct cur t)) as [H1 H2]. rewrite H1, H2.
    unfold addProduct. simpl. split; [ring | lia].
Qed.

(** X12.  The breakdown maps of the report hold one entry per name: a
    debtor for each client with a pending debt, valued at the normalized sum
    of these debts; a category for each expense label, valued at the sum of
    its expenses; a product for each name with a completed sale, with the
    sum and the number of these sales. *)
Theorem report_breakdowns (filtered : list Transaction) :
  (NoDup (map fst (debtorMap (reportMaps filtered))) /\
   NoDup (map fst (expenseCategoryMap (reportMaps filtered))) /\
   NoDup (map fst (productMap (reportMaps filtered)))) /\
  (forall name,
     (In name (map fst (debtorMap (reportMaps filtered))) <->
      exists t, In t filtered /\ isPendingDebt t = true /\ tx_client t = name) /\
     (In name (map fst (expenseCategoryMap (reportMaps filtered))) <->
      exists t, In t filtered /\ isExpense t = true /\ tx_client t = name) /\
     (In name (map fst (productMap (reportMaps filtered))) <->
      exists t, In t filtered /\ isCompletedSale t = true /\ tx_client t = name)) /\
  (forall name v,
     In (name, v) (debtorMap (reportMaps filtered)) ->
     (v == sumQ (map normalized (entriesOf isPendingDebt name filtered)))%Q) /\
  (forall name v,
     In (name, v) (expenseCategoryMap (reportMaps filtered)) ->
     (v == sumQ (map normalized (entriesOf isExpense name filtered)))%Q) /\
  (forall name amount count,
     In (name, (amount, count)) (productMap (reportMaps filtered)) ->
     (amount == sumQ (map normalized (entriesOf isCompletedSale name filtered)))%Q /\
     count = length (entriesOf isCompletedSale name filtered)).
Proof.
  unfold reportMaps.
  destruct (reportMaps_fold filtered (mkReportMaps [] [] [] [] (repeat 0%Q 7)))
    as (Hd & He & Hp).
  rewrite Hd, He, Hp. cbn [debtorMap expenseCategoryMap productMap].
  split; [|split; [|split; [|split]]].
  - repeat split; apply accumulate_NoDup; constructor.
  - intros name. repeat split; intros H.
    + apply accumulate_keys in H. destruct H as [[] | H]. exact H.
    + apply accumulate_keys. now right.
    + apply accumulate_keys in H. destruct H as [[] | H]. exact H.
    + apply accumulate_keys. now right.
    + apply accumulate_keys in H. destruct H as [[] | H]. exact H.
    + apply accumulate_keys. now right.
  - intros name v H. apply accumulate_In in H. destruct H as (t & ts & -> & ->).
    rewrite addNormalized_fold. ring.
  - intros name v H. apply accumulate_In in H. destruct H as (t & ts & -> & ->).
    rewrite addNormalized_fold. ring.
  - intros name amount count H. apply accumulate_In in H.
    destruct H as (t & ts & -> & E).
    destruct (addProduct_fold (t :: ts) (0%Q, 0)) as [H1 H2].
    rewrite <- E in H1, H2. cbn [fst snd] in H1, H2.
    split; [rewrite H1; ring | exact H2].
Qed.

Section Ranking.

Context {A : Type}.
Variable amount : A -> Q.

Lemma byAmountDesc_le (y x : A) :
  Qle_bool (comparison (byAmountDesc amount y x)) 0 = true <->
  (amount x <= amount y)%Q.
Proof.
  unfold byAmountDesc, comparison. rewrite Qle_bool_iff. split; intros; lra.
Qed.

Lemma insertSorted_descending x l :
  descending amount l -> descending amount (insertSorted (byAmountDesc amount) x l).
Proof.
  unfold descending. induction l as [|y l IH]; intros H; cbn [insertSorted].
  - constructor; constructor.
  - apply StronglySorted_inv in H. destruct H as [Hl Hy].
    destruct (Qle_bool (comparison (byAmountDesc amount y x)) 0) eqn:E.
    + apply byAmountDesc_le in E. constructor; [now apply IH|].
      apply (Permutation_Forall (Permutation_sym (insertSorted_perm _ x l))).
      constructor; [exact E | exact Hy].
    + assert (Hlt : (amount y < amount x)%Q).
      { destruct (Qlt_le_dec (amount y) (amount x)) as [L|L]; [exact L|].
        apply byAmountDesc_le in L. congruence. }
      constructor; [constructor; assumption|].
      constructor; [lra|].
      apply Forall_forall. intros z Hz.
      rewrite Forall_forall in Hy. specialize (Hy z Hz). lra.
Qed.

Lemma sortArray_descending l : descending amount (sortArray (byAmountDesc amount) l).
Proof.
  unfold sortArray.
  enough (H : forall acc, descending amount acc ->
             descending amount
               (fold_left (fun sorted x => insertSorted (byAmountDesc amount) x sorted)
                          l acc))
    by (apply H; constructor).
  induction l as [|x l IH]; intros acc Hacc; simpl; [exact Hacc|].
  apply IH. now apply insertSorted_descending.
Qed.

Lemma descending_app l1 l2 :
  descending amount (l1 ++ l2) ->
  descending amount l1 /\
  forall a b, In a l1 -> In b l2 -> (amount b <= amount a)%Q.
Proof.
  unfold descending. induction l1 as [|x l1 IH]; intros H; simpl in *.
  - split; [constructor | intros a b []].
  - apply StronglySorted_inv in H. destruct H as [Hl Hx].
    destruct (IH Hl) as [H1 H2]. split.
    + constructor; [exact H1|]. apply Forall_app in Hx. tauto.
    + intros a b [<- | Ha] Hb; [|now apply H2].
      rewrite Forall_forall in Hx. apply Hx. apply in_or_app. now right.
Qed.

Lemma top_ranked n l :
  length (firstn n (sortArray (byAmountDesc amount) l)) = Nat.min n (length l) /\
  descending amount (firstn n (sortArray (byAmountDesc amount) l)) /\
  Permutation (firstn n (sortArray (byAmountDesc amount) l) ++
               skipn n (sortArray (byAmountDesc amount) l)) l /\
  (forall a b,
     In a (firstn n (sortArray (byAmountDesc amount) l)) ->
     In b (skipn n (sortArray (byAmountDesc amount) l)) ->
     (amount b <= amount a)%Q).
Proof.
  pose proof (sortArray_descending l) as Hs.
  rewrite <- (firstn_skipn n (sortArray (byAmountDesc amount) l)) in Hs.
  apply descending_app in Hs. destruct Hs as [H1 H2].
  split; [|split; [exact H1 | split; [|exact H2]]].
  - rewrite length_firstn, (Permutation_length (sortArray_perm _ l)). reflexivity.
  - rewrite firstn_skipn. apply sortArray_perm.
Qed.

End Ranking.

(** X13.  The rankings of the report are its breakdown maps in descending
    order of amount: the top debtors and the top products are the first
    five (or all, when fewer), and nothing left out has a larger amount than
    anything listed; the expense pie lists every category. *)
Theorem report_rankings (filtered : list Transaction) :
  (length (topDebtors filtered) =
     Nat.min 5 (length (debtorMap (reportMaps filtered))) /\
   descending snd (topDebtors filtered) /\
   exists rest,
     Permutation (topDebtors filtered ++ rest) (debtorMap (reportMaps filtered)) /\
     forall a b, In a (topDebtors filtered) -> In b rest -> (snd b <= snd a)%Q) /\
  (length (topProducts filtered) =
     Nat.min 5 (length (productMap (reportMaps filtered))) /\
   descending (fun e => fst (snd e)) (topProducts filtered) /\
   exists rest,
     Permutation (topProducts filtered ++ rest) (productMap (reportMaps filtered)) /\
     forall a b, In a (topProducts filtered) -> In b rest ->
                 (fst (snd b) <= fst (snd a))%Q) /\
  (descending snd (pieData filtered) /\
   Permutation (pieData filtered) (expenseCategoryMap (reportMaps filtered))).
Proof.
  unfold topDebtors, topProducts, pieData. split; [|split].
  - destruct (top_ranked snd 5 (debtorMap (reportMaps filtered)))
      as (H1 & H2 & H3 & H4).
    split; [exact H1|]. split; [exact H2|]. eexists. split; [exact H3 | exact H4].
  - destruct (top_ranked (fun e : jsstring * (Q * nat) => fst (snd e)) 5
                (productMap (reportMaps filtered))) as (H1 & H2 & H3 & H4).
    split; [exact H1|]. split; [exact H2|]. eexists. split; [exact H3 | exact H4].
  - split; [apply sortArray_descending | apply sortArray_perm].
Qed.

Lemma Qle_bool_ext (a b : Q) :
  ((a <= 0)%Q <-> (b <= 0)%Q) -> Qle_bool a 0 = Qle_bool b 0.
Proof.
  intros H. destruct (Qle_bool a 0) eqn:Ea, (Qle_bool b 0) eqn:Eb; try reflexivity.
  - apply Qle_bool_iff, H, Qle_bool_iff in Ea. congruence.
  - apply Qle_bool_iff, H, Qle_bool_iff in Eb. congruence.
Qed.

Lemma inject_Z_diff_le (a b : Z) :
  (inject_Z (a - b) <= 0)%Q <-> (inject_Z a - inject_Z b <= 0)%Q.
Proof.
  change 0%Q with (inject_Z 0). rewrite <- Zle_Qle. split; intros H.
  - assert (H' : (inject_Z a <= inject_Z b)%Q) by (rewrite <- Zle_Qle; lia).
    change (inject_Z 0) with 0%Q. lra.
  - change (inject_Z 0) with 0%Q in H.
    assert (H' : (inject_Z a <= inject_Z b)%Q) by lra.
    rewrite <- Zle_Qle in H'. lia.
Qed.

Section Sorting.

Context {A : Type}.
Variables f g : A -> A -> number.

Lemma insertSorted_ext_in x l :
  (forall y, In y l ->
     Qle_bool (comparison (f y x)) 0 = Qle_bool (comparison (g y x)) 0) ->
  insertSorted f x l = insertSorted g x l.
Proof.
  induction l as [|y l IH]; intros H; [reflexivity|].
  cbn [insertSorted]. rewrite (H y (or_introl eq_refl)).
  destruct (Qle_bool (comparison (g y x)) 0); [|reflexivity].
  f_equal. apply IH. intros z Hz. apply H. now right.
Qed.

Lemma sortArray_ext_in l :
  (forall x y, In x l -> In y l ->
     Qle_bool (comparison (f y x)) 0 = Qle_bool (comparison (g y x)) 0) ->
  sortArray f l = sortArray g l.
Proof.
  unfold sortArray.
  enough (H : forall l acc,
             (forall x y, In x (acc ++ l) -> In y (acc ++ l) ->
                Qle_bool (comparison (f y x)) 0 = Qle_bool (comparison (g y x)) 0) ->
             fold_left (fun sorted x => insertSorted f x sorted) l acc =
             fold_left (fun sorted x => insertSorted g x sorted) l acc)
    by (intros Hl; apply (H l []); exact Hl).
  clear l. induction l as [|x l IH]; intros acc H; [reflexivity|].
  cbn [fold_left].
  assert (E : insertSorted f x acc = insertSorted g x acc).
  { apply insertSorted_ext_in. intros y Hy.
    apply H; apply in_or_app; [right; now left | now left]. }
  rewrite E. apply IH. intros a b Ha Hb.
  assert (Hsub : forall c, In c (insertSorted g x acc ++ l) -> In c (acc ++ x :: l)).
  { intros c Hc. apply in_app_or in Hc. apply in_or_app.
    destruct Hc as [Hc | Hc]; [|right; now right].
    apply (Permutation_in _ (insertSorted_perm g x acc)) in Hc.
    destruct Hc as [<- | Hc]; [right; now left | now left]. }
  apply H; now apply Hsub.
Qed.

End Sorting.

Lemma StronglySorted_weaken {A : Type} (R R' : A -> A -> Prop) (l : list A) :
  (forall a b, In a l -> In b l -> R a b -> R' a b) ->
  StronglySorted R l -> StronglySorted R' l.
Proof.
  intros H S. induction S as [|a l S IH F]; [constructor|].
  constructor.
  - apply IH. intros x y Hx Hy. apply H; now right.
  - rewrite Forall_forall in *. intros b Hb.
    apply H; [now left | now right | now apply F].
Qed.

(** X8.  Sorting only reorders the working set: whatever the sort option,
    the working set is a rearrangement of the transactions the search and
    type filter keeps, so it is never longer than the store.  Sorted by
    highest amount it is in descending order of amount, by lowest in
    ascending order; when the date and time of every transaction the filter
    keeps parse, sorted by newest it is in descending order of time and by
    oldest in ascending order. *)
Theorem working_set_sorting
    (activeTab : Tab) (searchTerm searchQuery : jsstring)
    (sortOption historySortOption : SortOption)
    (historyFilterType : HistoryFilter) (transactions : list Transaction) :
  let activeSort :=
    match activeTab with TabDashboard => sortOption | _ => historySortOption end in
  let matching :=
    matchingTransactions activeTab searchTerm searchQuery historyFilterType
      transactions in
  let result :=
    filteredTransactions activeTab searchTerm searchQuery sortOption
      historySortOption historyFilterType transactions in
  Permutation result matching /\
  length result <= length transactions /\
  (activeSort = highest ->
   StronglySorted (fun a b => (tx_amount b <= tx_amount a)%Q) result) /\
  (activeSort = lowest ->
   StronglySorted (fun a b => (tx_amount a <= tx_amount b)%Q) result) /\
  ((forall t, In t matching -> dateTimeOf t <> None) ->
   (activeSort = newest ->
    StronglySorted
      (fun a b => forall za zb, dateTimeOf a = Some za -> dateTimeOf b = Some zb ->
                                (zb <= za)%Z) result) /\
   (activeSort = oldest ->
    StronglySorted
      (fun a b => forall za zb, dateTimeOf a = Some za -> dateTimeOf b = Some zb ->
                                (za <= zb)%Z) result)).
Proof.
  intros activeSort matching result.
  assert (Hperm : Permutation result matching) by apply sortArray_perm.
  assert (Hres : result = sortArray (compareTransactions activeSort) matching)
    by reflexivity.
  split; [exact Hperm|]. split; [|split; [|split]].
  - rewrite (Permutation_length Hperm). unfold matching, matchingTransactions.
    apply filter_length_le.
  - intros E. rewrite Hres, E.
    apply (sortArray_descending tx_amount matching).
  - intros E. rewrite Hres, E.
    rewrite (sortArray_ext_in (compareTransactions lowest)
               (byAmountDesc (fun t => (- tx_amount t)%Q)) matching).
    + apply StronglySorted_weaken
        with (R := fun a b => (- tx_amount b <= - tx_amount a)%Q).
      * intros a b _ _ H. lra.
      * apply (sortArray_descending (fun t => (- tx_amount t)%Q) matching).
    + intros x y _ _. apply Qle_bool_ext.
      unfold compareTransactions, byAmountDesc, comparison. split; intros; lra.
  - intros Hparse.
    set (key := fun t => match dateTimeOf t with
                         | Some z => inject_Z z
                         | None => 0%Q
                         end).
    assert (Hkey : forall t, In t matching ->
                     exists z, dateTimeOf t = Some z /\ key t = inject_Z z).
    { intros t Ht. unfold key. destruct (dateTimeOf t) as [z|] eqn:E.
      - now exists z.
      - now elim (Hparse t Ht). }
    split.
    + intros E. rewrite Hres, E.
      rewrite (sortArray_ext_in (compareTransactions newest) (byAmountDesc key)
                 matching).
      * apply StronglySorted_weaken with (R := fun a b => (key b <= key a)%Q).
        -- intros a b Ha Hb H za zb Ea Eb.
           apply (Permutation_in _ (sortArray_perm _ _)) in Ha, Hb.
           destruct (Hkey a Ha) as (za' & Ea' & Ka).
           destruct (Hkey b Hb) as (zb' & Eb' & Kb).
           rewrite Ka, Kb, <- Zle_Qle in H. congruence.
        -- apply (sortArray_descending key matching).
      * intros x y Hx Hy.
        destruct (Hkey x Hx) as (zx & Ex & Kx), (Hkey y Hy) as (zy & Ey & Ky).
        apply Qle_bool_ext.
        unfold compareTransactions, byAmountDesc, comparison, timeDiff.
        rewrite Ex, Ey, Kx, Ky. apply inject_Z_diff_le.
    + intros E. rewrite Hres, E.
      rewrite (sortArray_ext_in (compareTransactions oldest)
                 (byAmountDesc (fun t => (- key t)%Q)) matching).
      * apply StronglySorted_weaken with (R := fun a b => (- key b <= - key a)%Q).
        -- intros a b Ha Hb H za zb Ea Eb.
           apply (Permutation_in _ (sortArray_perm _ _)) in Ha, Hb.
           destruct (Hkey a Ha) as (za' & Ea' & Ka).
           destruct (Hkey b Hb) as (zb' & Eb' & Kb).
           rewrite Ka, Kb in H.
           assert (H' : (inject_Z za' <= inject_Z zb')%Q) by lra.
           rewrite <- Zle_Qle in H'. congruence.
        -- apply (sortArray_descending (fun t => (- key t)%Q) matching).
      * intros x y Hx Hy.
        destruct (Hkey x Hx) as (zx & Ex & Kx), (Hkey y Hy) as (zy & Ey & Ky).
        apply Qle_bool_ext.
        unfold compareTransactions, byAmountDesc, comparison, timeDiff.
        rewrite Ex, Ey, Kx, Ky, inject_Z_diff_le. split; intros; lra.
Qed.

Lemma getOr_mapSet {V : Type} (d v : V) (k k' : jsstring) (m : JSMap V) :
  getOr d k' (mapSet k v m) = if eqb k' k then v else getOr d k' m.
Proof.
  unfold getOr. rewrite mapGet_mapSet. now destruct (eqb k' k).
Qed.

Lemma mapsStep_dailyMap maps t :
  (forall key,
     (fst (getOr (0%Q, 0%Q) key (dailyMap (mapsStep maps t))) ==
      fst (getOr (0%Q, 0%Q) key (dailyMap maps)) +
      (if isRevenue t && eqb (tx_date t) key then normalized t else 0))%Q /\
     (snd (getOr (0%Q, 0%Q) key (dailyMap (mapsStep maps t))) ==
      snd (getOr (0%Q, 0%Q) key (dailyMap maps)) +
      (if isExpense t && eqb (tx_date t) key then normalized t else 0))%Q) /\
  (NoDup (map fst (dailyMap maps)) -> NoDup (map fst (dailyMap (mapsStep maps t)))) /\
  (forall key, In key (map fst (dailyMap (mapsStep maps t))) <->
               In key (map fst (dailyMap maps)) \/ key = tx_date t).
Proof.
  set (m := dailyMap maps).
  set (daily := if mapHas (tx_date t) m then m else mapSet (tx_date t) (0%Q, 0%Q) m).
  assert (Hd : forall key, getOr (0%Q, 0%Q) key daily = getOr (0%Q, 0%Q) key m).
  { intros key. unfold daily, mapHas.
    destruct (mapGet (tx_date t) m) eqn:E; [reflexivity|].
    rewrite getOr_mapSet. destruct (eqb key (tx_date t)) eqn:K; [|reflexivity].
    apply eqb_eq in K. subst key. unfold getOr. now rewrite E. }
  assert (Hnd : NoDup (map fst m) -> NoDup (map fst daily)).
  { unfold daily. destruct (mapHas (tx_date t) m); [auto|]. apply mapSet_NoDup. }
  assert (Hkeys : forall key, In key (map fst daily) <->
                              In key (map fst m) \/ key = tx_date t).
  { intros key. unfold daily, mapHas.
    destruct (mapGet (tx_date t) m) eqn:E.
    - split; [now left|]. intros [H | ->]; [exact H|].
      apply mapGet_In in E. change (tx_date t) with (fst (tx_date t, p)).
      now apply in_map.
    - apply mapSet_In_keys. }
  assert (Hset : forall v,
            (NoDup (map fst m) -> NoDup (map fst (mapSet (tx_date t) v daily))) /\
            (forall key, In key (map fst (mapSet (tx_date t) v daily)) <->
                         In key (map fst m) \/ key = tx_date t)).
  { intros v. split.
    - intros H. apply mapSet_NoDup. auto.
    - intros key. rewrite mapSet_In_keys, Hkeys. split.
      + intros [[H | H] | H]; auto.
      + intros [H | H]; auto. }
  assert (Hval : forall key,
            getOr (0%Q, 0%Q) key
                  (mapSet (tx_date t)
                          (fst (getOr (0%Q, 0%Q) (tx_date t) daily) + normalized t,
                           snd (getOr (0%Q, 0%Q) (tx_date t) daily))%Q daily) =
            (if eqb (tx_date t) key
             then (fst (getOr (0%Q, 0%Q) key m) + normalized t,
                   snd (getOr (0%Q, 0%Q) key m))%Q
             else getOr (0%Q, 0%Q) key m) /\
            getOr (0%Q, 0%Q) key
                  (mapSet (tx_date t)
                          (fst (getOr (0%Q, 0%Q) (tx_date t) daily),
                           snd (getOr (0%Q, 0%Q) (tx_date t) daily) + normalized t)%Q
                          daily) =
            (if eqb (tx_date t) key
             then (fst (getOr (0%Q, 0%Q) key m),
                   snd (getOr (0%Q, 0%Q) key m) + normalized t)%Q
             else getOr (0%Q, 0%Q) key m)).
  { intros key. rewrite !getOr_mapSet, (eqb_sym key (tx_date t)).
    destruct (eqb (tx_date t) key) eqn:K.
    - apply eqb_eq in K. subst key. now rewrite Hd.
    - now rewrite Hd. }
  unfold mapsStep, isRevenue, isCompleted, isExpense.
  fold m. fold daily.
  split; [|split].
  - intros key. destruct (Hval key) as [Vr Ve].
    destruct (tx_type t), (tx_status t);
      cbn [type_eqb status_eqb andb orb dailyMap];
      rewrite ?Vr, ?Ve, ?Hd;
      destruct (eqb (tx_date t) key); cbn [fst snd]; split; ring.
  - destruct (tx_type t), (tx_status t); cbn [type_eqb status_eqb andb dailyMap];
      first [exact Hnd | apply Hset].
  - destruct (tx_type t), (tx_status t); cbn [type_eqb status_eqb andb dailyMap];
      first [exact Hkeys | apply Hset].
Qed.

Lemma daily_fold l : forall maps,
  (forall key,
     (fst (getOr (0%Q, 0%Q) key (dailyMap (fold_left mapsStep l maps))) ==
      fst (getOr (0%Q, 0%Q) key (dailyMap maps)) +
      sumQ (map normalized (entriesOn isRevenue key l)))%Q /\
     (snd (getOr (0%Q, 0%Q) key (dailyMap (fold_left mapsStep l maps))) ==
      snd (getOr (0%Q, 0%Q) key (dailyMap maps)) +
      sumQ (map normalized (entriesOn isExpense key l)))%Q) /\
  (NoDup (map fst (dailyMap maps)) ->
   NoDup (map fst (dailyMap (fold_left mapsStep l maps)))) /\
  (forall key, In key (map fst (dailyMap (fold_left mapsStep l maps))) <->
               In key (map fst (dailyMap maps)) \/
               exists t, In t l /\ tx_date t = key).
Proof.
  unfold entriesOn.
  induction l as [|t l IH]; intros maps.
  - simpl. split; [intros key; split; ring|]. split; [auto|].
    intros key. split; [now left|]. intros [H | (t & [] & _)]. exact H.
  - cbn [fold_left]. destruct (IH (mapsStep maps t)) as (Hv & Hn & Hk).
    destruct (mapsStep_dailyMap maps t) as (Sv & Sn & Sk).
    split; [|split].
    + intros key. destruct (Hv key) as [Hr He], (Sv key) as [Sr Se].
      rewrite Hr, He, Sr, Se, !sum_filter_cons. split; ring.
    + auto.
    + intros key. rewrite Hk, Sk. split.
      * intros [[H | ->] | (t' & Hin & E)].
        -- now left.
        -- right. exists t. split; [now left | reflexivity].
        -- right. exists t'. split; [now right | exact E].
      * intros [H | (t' & [<- | Hin] & E)].
        -- left. now left.
        -- left. right. now symmetry.
        -- right. now exists t'.
Qed.

(** X14.  The daily series behind the report chart has exactly one point
    per distinct date among the transactions of the report (also for a date
    that only has pending debts); the revenue of a day is the sum, in list
    order, of what the completed sales and settled debts dated that day
    bring, and its expenses the sum of the expenses dated that day. *)
Theorem daily_series_spec (filtered : list Transaction) :
  NoDup (map fst (dailyMap (reportMaps filtered))) /\
  (forall key, In key (map fst (dailyMap (reportMaps filtered))) <->
               exists t, In t filtered /\ tx_date t = key) /\
  (forall key dayRevenue dayExpenses,
     In (key, (dayRevenue, dayExpenses)) (dailyMap (reportMaps filtered)) ->
     (dayRevenue == sumQ (map normalized (entriesOn isRevenue key filtered)))%Q /\
     (dayExpenses == sumQ (map normalized (entriesOn isExpense key filtered)))%Q).
Proof.
  destruct (daily_fold filtered (mkReportMaps [] [] [] [] (repeat 0%Q 7)))
    as (Hv & Hn & Hk).
  fold (reportMaps filtered) in Hv, Hn, Hk. cbn [dailyMap map] in Hn, Hk.
  assert (Hnd : NoDup (map fst (dailyMap (reportMaps filtered))))
    by (apply Hn; constructor).
  split; [exact Hnd|]. split.
  - intros key. rewrite Hk. split.
    + intros [[] | H]. exact H.
    + intros H. now right.
  - intros key r e Hin. apply (In_mapGet _ _ _ Hnd) in Hin.
    destruct (Hv key) as [Hr He]. unfold getOr in Hr, He. rewrite Hin in Hr, He.
    cbn [dailyMap mapGet fst snd] in Hr, He. rewrite Hr, He. split; ring.
Qed.







(* ------------------------------------------------------------------ *)
(** * More on settlement and deletion *)

Lemma dropKey_mapSet_same {V : Type} (name : jsstring) (v : V) (m : JSMap V) :
  dropKey name (mapSet name v m) = dropKey name m.
Proof.
  unfold dropKey. induction m as [|[k0 v0] m IH]; simpl.
  - now rewrite eqb_refl.
  - destruct (eqb name k0) eqn:E; simpl.
    + apply eqb_eq in E. subst k0. now rewrite eqb_refl.
    + rewrite IH. reflexivity.
Qed.

Lemma dropKey_mapSet_other {V : Type} (name k : jsstring) (v : V) (m : JSMap V) :
  k <> name -> dropKey name (mapSet k v m) = mapSet k v (dropKey name m).
Proof.
  intros Hk. unfold dropKey. induction m as [|[k0 v0] m IH]; simpl.
  - now rewrite (proj2 (eqb_neq k name) Hk).
  - destruct (eqb k k0) eqn:E; simpl.
    + apply eqb_eq in E. subst k0. rewrite (proj2 (eqb_neq k name) Hk). simpl.
      now rewrite eqb_refl.
    + rewrite IH. destruct (eqb k0 name); simpl; [reflexivity|].
      now rewrite E.
Qed.

Lemma mapGet_dropKey_other {V : Type} (name k : jsstring) (m : JSMap V) :
  k <> name -> mapGet k (dropKey name m) = mapGet k m.
Proof.
  intros Hk. unfold dropKey. induction m as [|[k0 v0] m IH]; simpl; [reflexivity|].
  destruct (eqb k0 name) eqn:E; simpl.
  - apply eqb_eq in E. subst k0. now rewrite (proj2 (eqb_neq k name) Hk).
  - now rewrite IH.
Qed.

Lemma groupStep_dropKey name l : forall m,
  fold_left groupStep (filter (fun t => negb (eqb (tx_client t) name)) l)
            (dropKey name m) =
  dropKey name (fold_left groupStep l m).
Proof.
  induction l as [|t l IH]; intros m; [reflexivity|].
  cbn [filter fold_left]. rewrite <- IH.
  destruct (eqb (tx_client t) name) eqn:E; cbn [negb fold_left].
  - apply eqb_eq in E. unfold groupStep. rewrite E.
    now rewrite dropKey_mapSet_same.
  - apply eqb_neq in E. f_equal. unfold groupStep.
    now rewrite (dropKey_mapSet_other name _ _ m E), mapGet_dropKey_other.
Qed.

Lemma settlement_nothing_pending today clientName transactions :
  (forall t, In t transactions -> isClientPendingDebt clientName t = false) ->
  handleSettleClientDebt true today clientName transactions = transactions.
Proof.
  intros H. unfold handleSettleClientDebt, applySettlement, settledCopies.
  assert (E : filter (isClientPendingDebt clientName) transactions = []).
  { destruct (filter (isClientPendingDebt clientName) transactions) as [|t l] eqn:E;
      [reflexivity|].
    assert (Hin : In t (filter (isClientPendingDebt clientName) transactions))
      by (rewrite E; now left).
    apply filter_In in Hin. destruct Hin as [Hin Hp].
    rewrite (H t Hin) in Hp. discriminate. }
  rewrite E. simpl. rewrite <- (map_id transactions) at 2.
  apply map_ext. reflexivity.
Qed.

(** X16.  In a store with pairwise distinct ids, settling a client removes
    exactly that client from the list of debtors: the grouped debts after
    the settlement are those before it without the client's entry, the
    summaries of all other clients being the same and in the same order. *)
Theorem settlement_clears_debtor (today clientName : jsstring)
    (transactions : list Transaction) :
  NoDup (map tx_id transactions) ->
  debtList (handleSettleClientDebt true today clientName transactions) =
  dropKey clientName (debtList transactions) /\
  ~ In clientName
       (map fst (debtList (handleSettleClientDebt true today clientName transactions))).
Proof.
  intros Hnd.
  assert (E : debtList (handleSettleClientDebt true today clientName transactions) =
              dropKey clientName (debtList transactions)).
  { rewrite (settlement_map today clientName transactions Hnd).
    unfold debtList. rewrite <- groupStep_dropKey. cbn [dropKey filter]. f_equal.
    clear Hnd. induction transactions as [|t l IH]; [reflexivity|].
    cbn [map filter]. rewrite IH.
    destruct (isClientPendingDebt clientName t) eqn:P.
    - pose proof P as P'. apply isClientPendingDebt_iff in P'.
      destruct P' as (Hc & Hty & Hst).
      assert (Hs : isPendingDebt (settled today t) = false).
      { unfold isPendingDebt, isPending. simpl. now rewrite andb_false_r. }
      assert (Ht : isPendingDebt t = true).
      { unfold isPendingDebt, isDebt, isPending. rewrite Hty, Hst. reflexivity. }
      rewrite Hs, Ht. cbn [filter]. rewrite Hc, eqb_refl. reflexivity.
    - destruct (isPendingDebt t) eqn:D; [|reflexivity].
      cbn [filter].
      destruct (eqb (tx_client t) clientName) eqn:C; [|reflexivity].
      exfalso. unfold isClientPendingDebt in P. rewrite C in P.
      unfold isPendingDebt, isDebt, isPending in D.
      apply andb_true_iff in D. destruct D as [D1 D2].
      rewrite D1, D2 in P. discriminate. }
  split; [exact E|]. rewrite E. unfold dropKey. intros H.
  apply in_map_iff in H. destruct H as ([k v] & Hk & Hin).
  apply filter_In in Hin. destruct Hin as [_ Hf]. simpl in Hk, Hf. subst k.
  now rewrite eqb_refl in Hf.
Qed.

(** X17.  Whatever the ids, a settlement leaves no pending debt of the
    client, so that settling the same client again changes nothing; settling
    a client who has no pending debt, or declining the confirmation, leaves
    the store as it is. *)
Theorem settlement_idempotent (today today' clientName : jsstring)
    (transactions : list Transaction) :
  (forall t', In t' (handleSettleClientDebt true today clientName transactions) ->
     ~ (tx_client t' = clientName /\ tx_type t' = debt /\ tx_status t' = pending)) /\
  handleSettleClientDebt true today' clientName
    (handleSettleClientDebt true today clientName transactions) =
  handleSettleClientDebt true today clientName transactions /\
  ((forall t, In t transactions ->
      ~ (tx_client t = clientName /\ tx_type t = debt /\ tx_status t = pending)) ->
   handleSettleClientDebt true today clientName transactions = transactions) /\
  handleSettleClientDebt false today clientName transactions = transactions.
Proof.
  split; [|split; [|split]].
  - intros t' Hin H. apply isClientPendingDebt_iff in H.
    rewrite (settlement_leaves_none today clientName transactions t' Hin) in H.
    discriminate.
  - apply settlement_nothing_pending. intros t. apply settlement_leaves_none.
  - intros H. apply settlement_nothing_pending. intros t Hin.
    destruct (isClientPendingDebt clientName t) eqn:P; [|reflexivity].
    apply isClientPendingDebt_iff in P. now elim (H t Hin).
  - reflexivity.
Qed.

(** X18.  The settlement replaces records by id: a record that has the id
    of one of the client's pending debts comes out as a settled debt of that
    client -- completed, dated today -- whatever it was before, even a
    record of another client or of another type. *)
Theorem settlement_overwrites_same_id (today clientName : jsstring)
    (transactions : list Transaction) (i : nat) (t u : Transaction) :
  nth_error transactions i = Some t ->
  In u transactions ->
  tx_client u = clientName -> tx_type u = debt -> tx_status u = pending ->
  tx_id u = tx_id t ->
  exists t',
    nth_error (handleSettleClientDebt true today clientName transactions) i = Some t' /\
    tx_id t' = tx_id t /\ tx_client t' = clientName /\ tx_type t' = debt /\
    tx_status t' = completed /\ tx_date t' = today.
Proof.
  intros Hi Hu Hc Hty Hst Hid.
  assert (Hp : isClientPendingDebt clientName u = true)
    by (apply isClientPendingDebt_iff; auto).
  destruct (settledCopies_find today clientName transactions u Hu Hp) as [t' Hf].
  rewrite Hid in Hf.
  exists t'. unfold handleSettleClientDebt, applySettlement.
  rewrite nth_error_map, Hi. cbn [option_map]. rewrite Hf.
  split; [reflexivity|].
  pose proof (find_some _ _ Hf) as [Hin Heq]. apply eqb_eq in Heq.
  split; [exact Heq|]. now apply settledCopies_shape in Hin.
Qed.

(** X19.  Confirming the deletion of one transaction removes every record
    with the target id and nothing else: the other records stay; with
    pairwise distinct ids exactly one record goes when the id is present,
    and none when it is absent.  A single deletion without a target id does
    nothing, and "delete all" empties the transactions and the inventory. *)
Theorem delete_confirm_spec (deleteModal : DeleteModal)
    (transactions : list Transaction) (inventory : list InventoryItem) :
  (forall id, dm_type deleteModal = DeleteSingle ->
     dm_targetId deleteModal = Some id -> id <> [] ->
     snd (handleDeleteConfirm deleteModal transactions inventory) = inventory /\
     (forall t, In t (fst (handleDeleteConfirm deleteModal transactions inventory)) <->
                In t transactions /\ tx_id t <> id) /\
     (~ In id (map tx_id transactions) ->
      fst (handleDeleteConfirm deleteModal transactions inventory) = transactions) /\
     (NoDup (map tx_id transactions) -> In id (map tx_id transactions) ->
      S (length (fst (handleDeleteConfirm deleteModal transactions inventory))) =
      length transactions)) /\
  (dm_type deleteModal = DeleteSingle ->
   dm_targetId deleteModal = None \/ dm_targetId deleteModal = Some [] ->
   handleDeleteConfirm deleteModal transactions inventory = (transactions, inventory)) /\
  (dm_type deleteModal = DeleteAll ->
   handleDeleteConfirm deleteModal transactions inventory = ([], [])).
Proof.
  split; [|split].
  - intros id Hty Hid Hne. unfold handleDeleteConfirm. rewrite Hty, Hid.
    destruct id as [|c rest]; [congruence|]. cbn [fst snd].
    set (id := c :: rest) in *.
    split; [reflexivity|]. split; [|split].
    + intros t. rewrite filter_In, negb_true_iff, eqb_neq. reflexivity.
    + intros Habs. clear Hid. induction transactions as [|t l IH]; [reflexivity|].
      cbn [filter]. simpl in Habs.
      rewrite (proj2 (eqb_neq (tx_id t) id)) by (intros E; apply Habs; now left).
      cbn [negb]. f_equal. apply IH. intros H. apply Habs. now right.
    + clear Hid. induction transactions as [|t l IH]; intros Hnd Hin; [destruct Hin|].
      cbn [map] in Hnd, Hin. inversion Hnd as [|? ? Hx Hnd']; subst.
      cbn [filter length]. destruct (eqb (tx_id t) id) eqn:E; cbn [negb].
      * apply eqb_eq in E. f_equal.
        assert (Habs : ~ In id (map tx_id l)) by (now rewrite <- E).
        clear IH Hnd Hnd' Hin Hx.
        induction l as [|t' l IH]; [reflexivity|].
        cbn [filter]. simpl in Habs.
        rewrite (proj2 (eqb_neq (tx_id t') id)) by (intros E'; apply Habs; now left).
        cbn [negb length]. f_equal. apply IH. intros H. apply Habs. now right.
      * cbn [length]. f_equal. apply IH; [exact Hnd'|].
        destruct Hin as [Hin | Hin]; [|exact Hin].
        apply eqb_neq in E. congruence.
  - intros Hty [Hid | Hid]; unfold handleDeleteConfirm; now rewrite Hty, Hid.
  - intros Hty. unfold handleDeleteConfirm. rewrite Hty.
    now destruct (dm_targetId deleteModal) as [[|c r]|].
Qed.

(* ------------------------------------------------------------------ *)
(** * Manual entry and editing *)

Lemma Qle_bool_false (a b : Q) : Qle_bool a b = false <-> (b < a)%Q.
Proof.
  split.
  - intros E. destruct (Qlt_le_dec b a) as [L|L]; [exact L|].
    apply Qle_bool_iff in L. congruence.
  - intros L. destruct (Qle_bool a b) eqn:E; [|reflexivity].
    apply Qle_bool_iff in E. lra.
Qed.

(** X20.  A manual entry is dropped, leaving inventory and transactions as
    they are, exactly when the amount typed does not parse to a positive
    number.  Otherwise one record is put in front of the transactions, with
    that amount, today's date and method "Manual": a pending debt for a
    debt, a completed expense named by the description for an expense, a
    completed sale otherwise; so a store whose amounts are all positive
    stays so. *)
Theorem manual_entry_spec (manualForm : ManualForm)
    (companySearch currencySymbol : jsstring) (r : Q) (today timeNow : jsstring)
    (inventory : list InventoryItem) (transactions : list Transaction) :
  ((parseUserFloat (mf_amount manualForm) = NaN \/
    exists v, parseUserFloat (mf_amount manualForm) = Num v /\ (v <= 0)%Q) ->
   handleManualTransaction manualForm companySearch currencySymbol r today timeNow
     inventory transactions = (inventory, transactions)) /\
  (forall v, parseUserFloat (mf_amount manualForm) = Num v -> (0 < v)%Q ->
   exists newTx,
     snd (handleManualTransaction manualForm companySearch currencySymbol r today
            timeNow inventory transactions) = newTx :: transactions /\
     tx_amount newTx = v /\ tx_date newTx = today /\ tx_time newTx = timeNow /\
     tx_method newTx = lit "Manual" /\ tx_id newTx = generateId r /\
     (mf_type manualForm = debt -> tx_type newTx = debt /\ tx_status newTx = pending) /\
     (mf_type manualForm = expense ->
        tx_type newTx = expense /\ tx_status newTx = completed /\
        tx_client newTx = mf_description manualForm) /\
     (mf_type manualForm <> debt -> mf_type manualForm <> expense ->
        tx_type newTx = sale /\ tx_status newTx = completed)) /\
  ((forall t, In t transactions -> (0 < tx_amount t)%Q) ->
   forall t, In t (snd (handleManualTransaction manualForm companySearch
                          currencySymbol r today timeNow inventory transactions)) ->
             (0 < tx_amount t)%Q).
Proof.
  unfold handleManualTransaction. split; [|split].
  - intros [E | (v & E & Hv)]; rewrite E; [reflexivity|].
    apply Qle_bool_iff in Hv. now rewrite Hv.
  - intros v E Hv. rewrite E. rewrite (proj2 (Qle_bool_false v 0) Hv).
    eexists. cbn [snd]. split; [reflexivity|]. cbn.
    repeat (split; [reflexivity|]).
    split; [|split].
    + intros ->. split; reflexivity.
    + intros ->. repeat split.
    + intros Hd He. destruct (mf_type manualForm); try (split; reflexivity);
        congruence.
  - intros Hall t. destruct (parseUserFloat (mf_amount manualForm)) as [|v];
      [apply Hall|].
    destruct (Qle_bool v 0) eqn:E; [apply Hall|].
    apply Qle_bool_false in E. cbn [snd]. intros [<- | Hin]; [exact E | now apply Hall].
Qed.

Lemma soldOne_low item : isLowStock item = true -> isLowStock (soldOne item) = true.
Proof.
  unfold isLowStock, soldOne. cbn [inv_quantity inv_minLevel].
  rewrite !Qle_bool_iff. lra.
Qed.

Lemma lowStock_map (f : InventoryItem -> InventoryItem) l :
  (forall i, isLowStock i = true -> isLowStock (f i) = true) ->
  lowStockCount l <= lowStockCount (map f l).
Proof.
  intros Hf. unfold lowStockCount.
  induction l as [|x l IH]; [reflexivity|].
  cbn [map filter]. destruct (isLowStock x) eqn:E.
  - rewrite (Hf x E). cbn [length]. lia.
  - destruct (isLowStock (f x)); cbn [length]; lia.
Qed.

(** X21.  A manual entry touches the inventory only for a sale or a debt
    that names an item the inventory has: an expense, an entry without item,
    an unknown item or a dropped entry leave it as it is.  With pairwise
    distinct item ids, an accepted sale or debt of a known item lowers that
    item's quantity by exactly one -- below zero if need be -- keeps every
    other item, and takes no item off the low stock list: the low stock
    count does not go down and an item that was low on stock still is. *)
Theorem manual_entry_stock (manualForm : ManualForm)
    (companySearch currencySymbol : jsstring) (r : Q) (today timeNow : jsstring)
    (inventory : list InventoryItem) (transactions : list Transaction) :
  (mf_type manualForm = expense \/ mf_itemId manualForm = [] \/
   ~ In (mf_itemId manualForm) (map inv_id inventory) ->
   fst (handleManualTransaction manualForm companySearch currencySymbol r today
          timeNow inventory transactions) = inventory) /\
  (forall v item,
     parseUserFloat (mf_amount manualForm) = Num v -> (0 < v)%Q ->
     mf_type manualForm = sale \/ mf_type manualForm = debt ->
     mf_itemId manualForm <> [] ->
     NoDup (map inv_id inventory) ->
     In item inventory -> inv_id item = mf_itemId manualForm ->
     fst (handleManualTransaction manualForm companySearch currencySymbol r today
            timeNow inventory transactions) =
     map (fun i => if eqb (inv_id i) (mf_itemId manualForm) then soldOne i else i)
         inventory /\
     inv_quantity (soldOne item) = (inv_quantity item - 1)%Q /\
     lowStockCount inventory <=
     lowStockCount (fst (handleManualTransaction manualForm companySearch
                           currencySymbol r today timeNow inventory transactions)) /\
     (In item (lowStockItems inventory) ->
      In (soldOne item)
         (lowStockItems (fst (handleManualTransaction manualForm companySearch
                                currencySymbol r today timeNow inventory
                                transactions))))).
Proof.
  unfold handleManualTransaction. split.
  - intros H. destruct (parseUserFloat (mf_amount manualForm)) as [|v]; [reflexivity|].
    destruct (Qle_bool v 0); [reflexivity|]. cbn [fst].
    destruct H as [H | [H | H]];
      try (rewrite H; reflexivity).
    + rewrite H. cbn [isEmptyString negb]. now rewrite andb_false_r.
    + destruct ((type_eqb (mf_type manualForm) sale || type_eqb (mf_type manualForm) debt)
                && negb (isEmptyString (mf_itemId manualForm))); [|reflexivity].
      destruct (find (fun i => eqb (inv_id i) (mf_itemId manualForm)) inventory)
        as [item|] eqn:E; [|reflexivity].
      exfalso. apply find_some in E. destruct E as [Hin Hid].
      apply eqb_eq in Hid. apply H. rewrite <- Hid. now apply in_map.
  - intros v item E Hv Hty Hne Hnd Hin Hid.
    rewrite E, (proj2 (Qle_bool_false v 0) Hv). cbn [fst].
    assert (Hg : (type_eqb (mf_type manualForm) sale || type_eqb (mf_type manualForm) debt)
                 && negb (isEmptyString (mf_itemId manualForm)) = true).
    { destruct Hty as [-> | ->];
        destruct (mf_itemId manualForm); try congruence; reflexivity. }
    rewrite Hg.
    assert (Hfind : find (fun i => eqb (inv_id i) (mf_itemId manualForm)) inventory =
                    Some item).
    { clear Hg. induction inventory as [|x l IH]; [destruct Hin|].
      cbn [map] in Hnd. inversion Hnd as [|? ? Hx Hnd']; subst.
      cbn [find]. destruct Hin as [-> | Hin].
      - now rewrite Hid, eqb_refl.
      - rewrite (proj2 (eqb_neq (inv_id x) (mf_itemId manualForm))).
        + now apply IH.
        + intros Ex. apply Hx. rewrite Ex, <- Hid. now apply in_map. }
    rewrite Hfind.
    assert (Hmap : map (fun i => if eqb (inv_id i) (mf_itemId manualForm)
                                 then soldOne item else i) inventory =
                   map (fun i => if eqb (inv_id i) (mf_itemId manualForm)
                                 then soldOne i else i) inventory).
    { apply map_ext_in. intros i Hi.
      destruct (eqb (inv_id i) (mf_itemId manualForm)) eqn:Ei; [|reflexivity].
      apply eqb_eq in Ei. f_equal.
      clear Hfind Hg. induction inventory as [|x l IH]; [destruct Hin|].
      cbn [map] in Hnd. inversion Hnd as [|? ? Hx Hnd']; subst.
      destruct Hin as [-> | Hin], Hi as [-> | Hi]; auto.
      - exfalso. apply Hx. rewrite Hid, <- Ei. now apply in_map.
      - exfalso. apply Hx. rewrite Ei, <- Hid. now apply in_map. }
    split; [exact Hmap|]. split; [reflexivity|].
    split.
    + rewrite Hmap. apply lowStock_map. intros i Hi.
      destruct (eqb (inv_id i) (mf_itemId manualForm)); [now apply soldOne_low | exact Hi].
    + unfold lowStockItems. rewrite !filter_In. intros [_ Hlow].
      split; [|now apply soldOne_low].
      apply in_map_iff. exists item. split; [|exact Hin].
      now rewrite Hid, eqb_refl.
Qed.

(** X22.  Saving an edit is refused when no record is being edited or when
    the amount is zero or negative; an amount that is [NaN] is not refused.
    A saved edit puts the edited record in the place of every record with its
    id and keeps all others, so the number of records is unchanged, an edit
    of a record that is no longer in the store changes nothing, and positive
    amounts stay positive. *)
Theorem edit_save_spec (item : Transaction) (prev : list Transaction) :
  handleEditSave None prev = Ignored /\
  (forall a, (a <= 0)%Q -> handleEditSave (Some (item, Num a)) prev = Ignored) /\
  handleEditSave (Some (item, NaN)) prev <> Ignored /\
  (forall a, (0 < a)%Q ->
   exists out,
     handleEditSave (Some (item, Num a)) prev = Stored out /\
     length out = length prev /\
     (forall k t, nth_error prev k = Some t ->
        nth_error out k =
        Some (if eqb (tx_id t) (tx_id item) then withAmount item a else t)) /\
     (~ In (tx_id item) (map tx_id prev) -> out = prev) /\
     ((forall t, In t prev -> (0 < tx_amount t)%Q) ->
      forall t, In t out -> (0 < tx_amount t)%Q)).
Proof.
  split; [reflexivity|]. split; [|split; [discriminate|]].
  - intros a Ha. unfold handleEditSave. apply Qle_bool_iff in Ha. now rewrite Ha.
  - intros a Ha. unfold handleEditSave. rewrite (proj2 (Qle_bool_false a 0) Ha).
    eexists. split; [reflexivity|]. split; [apply length_map|]. split; [|split].
    + intros k t Hk. now rewrite nth_error_map, Hk.
    + intros Habs. rewrite <- (map_id prev) at 2. apply map_ext_in.
      intros t Ht. rewrite (proj2 (eqb_neq (tx_id t) (tx_id item))); [reflexivity|].
      intros E. apply Habs. rewrite <- E. now apply in_map.
    + intros Hall t Ht. apply in_map_iff in Ht. destruct Ht as (t0 & <- & Ht0).
      destruct (eqb (tx_id t0) (tx_id item)); [exact Ha | now apply Hall].
Qed.

(* ------------------------------------------------------------------ *)
(** * Inventory and companies *)

Lemma findIndex_None id l :
  findIndex id l = None <-> ~ In id (map inv_id l).
Proof.
  induction l as [|x l IH]; simpl; [split; [intros _ [] | reflexivity]|].
  destruct (eqb (inv_id x) id) eqn:E.
  - apply eqb_eq in E. split; [discriminate|]. intros H. exfalso. auto.
  - apply eqb_neq in E. destruct (findIndex id l) as [k|]; simpl.
    + split; [discriminate|]. intros H. exfalso.
      destruct IH as [_ IH]. discriminate IH. intros Hin. apply H. now right.
    + split; [|reflexivity]. intros _ [H | H]; [congruence|].
      now apply (proj1 IH).
Qed.

Lemma findIndex_Some id l : forall k,
  findIndex id l = Some k ->
  k < length l /\
  (forall item, find (fun i => eqb (inv_id i) id) (replaceAt k item l) =
                if eqb (inv_id item) id then Some item
                else find (fun i => eqb (inv_id i) id) (skipn (S k) l)) /\
  (forall item j, j <> k -> nth_error (replaceAt k item l) j = nth_error l j) /\
  (forall item, length (replaceAt k item l) = length l) /\
  (forall item, inv_id item = id ->
     filter (fun i => negb (eqb (inv_id i) id)) (replaceAt k item l) =
     filter (fun i => negb (eqb (inv_id i) id)) l).
Proof.
  induction l as [|x l IH]; intros k; [discriminate|].
  cbn [findIndex]. destruct (eqb (inv_id x) id) eqn:E.
  - intros H. injection H as <-. split; [simpl; lia|]. split; [|split; [|split]].
    + intros item. reflexivity.
    + intros item [|j] Hj; [congruence | reflexivity].
    + reflexivity.
    + intros item Hid. cbn [replaceAt filter]. now rewrite Hid, eqb_refl, E.
  - destruct (findIndex id l) as [k'|]; [|discriminate].
    intros H. injection H as <-.
    destruct (IH k' eq_refl) as (Hk & Hfind & Hnth & Hlen & Hfil).
    split; [simpl; lia|]. split; [|split; [|split]].
    + intros item. cbn [replaceAt find skipn]. rewrite E. apply Hfind.
    + intros item [|j] Hj; [reflexivity|]. cbn [replaceAt nth_error].
      apply Hnth. congruence.
    + intros item. cbn [replaceAt length]. now rewrite Hlen.
    + intros item Hid. cbn [replaceAt filter]. now rewrite (Hfil item Hid).
Qed.

Lemma find_append id l item :
  ~ In id (map inv_id l) ->
  find (fun i => eqb (inv_id i) id) (l ++ [item]) =
  if eqb (inv_id item) id then Some item else None.
Proof.
  intros H. induction l as [|x l IH]; [reflexivity|].
  cbn [app find]. rewrite (proj2 (eqb_neq (inv_id x) id)).
  - apply IH. intros Hin. apply H. now right.
  - intros E. apply H. left. exact E.
Qed.

Lemma filter_absent id l :
  ~ In id (map inv_id l) -> filter (fun i => negb (eqb (inv_id i) id)) l = l.
Proof.
  intros H. induction l as [|x l IH]; [reflexivity|].
  cbn [filter]. rewrite (proj2 (eqb_neq (inv_id x) id)).
  - cbn [negb]. f_equal. apply IH. intros Hin. apply H. now right.
  - intros E. apply H. left. exact E.
Qed.

(** X23.  Saving an item is refused without a name or with a price that is
    zero or negative (a [NaN] price is not refused).  A saved item is stored
    under the id of the form or, when that is empty, under a generated one:
    looking that id up afterwards gives the saved item; an id the inventory
    did not have is appended at the end, and for a known id the first item
    with it is replaced in place, the inventory keeping its length and all
    its other entries. *)
Theorem inventory_save_spec (newItemForm : ItemForm) (r : Q)
    (prev : list InventoryItem) :
  (if_name newItemForm = [] \/
   (exists p, if_price newItemForm = Num p /\ (p <= 0)%Q) ->
   handleInventorySave newItemForm r prev = Ignored) /\
  (if_name newItemForm <> [] -> if_price newItemForm = NaN ->
   handleInventorySave newItemForm r prev = StoredNaN) /\
  (forall q m p c,
     if_name newItemForm <> [] ->
     if_quantity newItemForm = Num q -> if_minLevel newItemForm = Num m ->
     if_price newItemForm = Num p -> (0 < p)%Q -> if_cost newItemForm = Num c ->
     exists out,
       handleInventorySave newItemForm r prev = Stored out /\
       find (fun i => eqb (inv_id i) (savedId newItemForm r)) out =
       Some (mkItem (savedId newItemForm r) (if_name newItemForm)
                    (if_category newItemForm) q m p c) /\
       (~ In (savedId newItemForm r) (map inv_id prev) ->
        out = prev ++ [mkItem (savedId newItemForm r) (if_name newItemForm)
                              (if_category newItemForm) q m p c]) /\
       (In (savedId newItemForm r) (map inv_id prev) ->
        length out = length prev /\
        exists k, forall j, j <> k -> nth_error out j = nth_error prev j)).
Proof.
  unfold handleInventorySave. fold (savedId newItemForm r).
  split; [|split].
  - intros [H | (p & Hp & Hle)].
    + now rewrite H.
    + rewrite Hp. cbn [priceRejected]. apply Qle_bool_iff in Hle. rewrite Hle.
      now rewrite orb_true_r.
  - intros Hn Hp. rewrite Hp. destruct (if_name newItemForm); [congruence|].
    cbn [isEmptyString priceRejected orb]. unfold formItem. rewrite Hp.
    now destruct (if_quantity newItemForm), (if_minLevel newItemForm).
  - intros q m p c Hn Hq Hm Hp Hpos Hc.
    rewrite Hp. cbn [priceRejected]. rewrite (proj2 (Qle_bool_false p 0) Hpos).
    assert (Hne : isEmptyString (if_name newItemForm) = false)
      by (destruct (if_name newItemForm); [congruence | reflexivity]).
    rewrite Hne. cbn [orb]. unfold formItem. rewrite Hq, Hm, Hp, Hc.
    set (item := mkItem (savedId newItemForm r) (if_name newItemForm)
                        (if_category newItemForm) q m p c).
    assert (Hid : eqb (inv_id item) (savedId newItemForm r) = true)
      by apply eqb_refl.
    eexists. split; [reflexivity|].
    destruct (findIndex (savedId newItemForm r) prev) as [k|] eqn:E.
    + destruct (findIndex_Some _ _ _ E) as (Hk & Hfind & Hnth & Hlen & _).
      split; [|split].
      * now rewrite Hfind, Hid.
      * intros Habs. apply findIndex_None in Habs. congruence.
      * intros _. split; [apply Hlen|]. exists k. apply Hnth.
    + apply findIndex_None in E. split; [|split].
      * now rewrite (find_append _ _ item E), Hid.
      * reflexivity.
      * intros Hin. contradiction.
Qed.

(** X24.  Deleting an item, once confirmed, removes every item with that id
    and keeps the others; declined, it changes nothing.  It undoes a save:
    deleting the id under which an item was just saved gives back the
    inventory without the entries of that id, that is the inventory itself
    when the id was new. *)
Theorem inventory_delete_spec (id : jsstring) (prev : list InventoryItem) :
  handleDeleteInventory false id prev = prev /\
  (forall i, In i (handleDeleteInventory true id prev) <->
             In i prev /\ inv_id i <> id) /\
  (~ In id (map inv_id prev) -> handleDeleteInventory true id prev = prev) /\
  (forall newItemForm r out,
     handleInventorySave newItemForm r prev = Stored out ->
     savedId newItemForm r = id ->
     handleDeleteInventory true id out = handleDeleteInventory true id prev).
Proof.
  split; [reflexivity|]. split; [|split].
  - intros i. unfold handleDeleteInventory.
    rewrite filter_In, negb_true_iff, eqb_neq. reflexivity.
  - apply filter_absent.
  - intros f r out Hs Hid. unfold handleInventorySave in Hs.
    fold (savedId f r) in Hs. rewrite Hid in Hs.
    destruct (isEmptyString (if_name f) || priceRejected (if_price f)); [discriminate|].
    destruct (formItem f id) as [item|] eqn:Ef; [|discriminate].
    assert (Hitem : inv_id item = id).
    { unfold formItem in Ef.
      destruct (if_quantity f), (if_minLevel f), (if_price f), (if_cost f);
        try discriminate. injection Ef as <-. reflexivity. }
    injection Hs as <-. unfold handleDeleteInventory.
    destruct (findIndex id prev) as [k|] eqn:E.
    + now destruct (findIndex_Some _ _ _ E) as (_ & _ & _ & _ & Hfil); apply Hfil.
    + rewrite filter_app. cbn [filter]. rewrite Hitem, eqb_refl. cbn [negb].
      now rewrite app_nil_r.
Qed.

Lemma existsb_eqb c l : existsb (eqb c) l = true <-> In c l.
Proof.
  rewrite existsb_exists. split.
  - intros (x & Hx & E). apply eqb_eq in E. now subst.
  - intros H. exists c. split; [exact H | apply eqb_refl].
Qed.

(** X25.  The list of known companies never receives an empty name nor a
    name it already has, so a list without duplicates stays without
    duplicates and adding twice is adding once; deleting a company removes
    it wherever it stands and keeps the others, and deleting a name right
    after adding it, when it was new, gives the list back. *)
Theorem companies_spec (name : jsstring) (knownCompanies : list jsstring) :
  handleAddCompany [] knownCompanies = knownCompanies /\
  (In name knownCompanies -> handleAddCompany name knownCompanies = knownCompanies) /\
  (name <> [] -> In name (handleAddCompany name knownCompanies)) /\
  (NoDup knownCompanies -> NoDup (handleAddCompany name knownCompanies)) /\
  handleAddCompany name (handleAddCompany name knownCompanies) =
    handleAddCompany name knownCompanies /\
  (forall c, In c (handleDeleteCompany name knownCompanies) <->
             In c knownCompanies /\ c <> name) /\
  (~ In name knownCompanies ->
   handleDeleteCompany name (handleAddCompany name knownCompanies) = knownCompanies).
Proof.
  assert (Habsent : forall l, ~ In name l -> handleDeleteCompany name l = l).
  { intros l H. unfold handleDeleteCompany. induction l as [|x l IH]; [reflexivity|].
    cbn [filter]. rewrite (proj2 (eqb_neq x name)).
    - cbn [negb]. f_equal. apply IH. intros Hin. apply H. now right.
    - intros E. apply H. now left. }
  unfold handleAddCompany.
  split; [reflexivity|]. split; [|split; [|split; [|split; [|split]]]].
  - intros H. apply existsb_eqb in H. rewrite H. now rewrite andb_false_r.
  - intros Hne. destruct name as [|c0 rest]; [congruence|]. cbn [isEmptyString negb andb].
    destruct (existsb (eqb (c0 :: rest)) knownCompanies) eqn:E; cbn [negb].
    + now apply existsb_eqb.
    + apply in_or_app. right. now left.
  - intros Hnd.
    destruct (negb (isEmptyString name) && negb (existsb (eqb name) knownCompanies))
      eqn:E; [|exact Hnd].
    apply andb_true_iff in E. destruct E as [_ E]. apply negb_true_iff in E.
    apply NoDup_rev in Hnd. rewrite <- (rev_involutive (knownCompanies ++ [name])).
    apply NoDup_rev. rewrite rev_app_distr. cbn [rev app]. constructor; [|exact Hnd].
    rewrite <- in_rev. intros Hin. apply existsb_eqb in Hin. congruence.
  - destruct (isEmptyString name); [reflexivity|].
    destruct (existsb (eqb name) knownCompanies) eqn:E; cbn [negb andb].
    + now rewrite E.
    + assert (Hin : existsb (eqb name) (knownCompanies ++ [name]) = true).
      { apply existsb_eqb, in_or_app. right. now left. }
      now rewrite Hin.
  - intros c. unfold handleDeleteCompany.
    rewrite filter_In, negb_true_iff, eqb_neq. reflexivity.
  - intros H.
    destruct (negb (isEmptyString name) && negb (existsb (eqb name) knownCompanies));
      [|now apply Habsent].
    unfold handleDeleteCompany. rewrite filter_app. cbn [filter].
    rewrite eqb_refl. cbn [negb]. rewrite app_nil_r. now apply Habsent.
Qed.

(* ------------------------------------------------------------------ *)
(** * Pages of the transaction table *)

Lemma totalPages_ceilDiv (len n : nat) :
  0 < n -> totalPages len n = Some (Nat.max 1 (ceilDiv len n)).
Proof.
  intros Hn. pose proof (windowSizeOf_ceilDiv len n Hn) as E.
  unfold totalPages. unfold windowSizeOf in E.
  destruct n as [|n']; [lia|]. rewrite E.
  now destruct (ceilDiv len (S n')).
Qed.

Lemma ceilDiv_tight (len n : nat) :
  0 < n -> 0 < len -> (ceilDiv len n - 1) * n < len.
Proof.
  intros Hn Hl. unfold ceilDiv.
  pose proof (Nat.div_mod (len + n - 1) n ltac:(lia)) as E.
  pose proof (Nat.mod_upper_bound (len + n - 1) n ltac:(lia)) as R.
  nia.
Qed.

Lemma ceilDiv_zero (n : nat) : 0 < n -> ceilDiv 0 n = 0.
Proof.
  intros Hn. unfold ceilDiv. apply Nat.div_small. lia.
Qed.

Lemma firstn_add {A : Type} (a b : nat) : forall l : list A,
  firstn (a + b) l = firstn a l ++ firstn b (skipn a l).
Proof.
  induction a as [|a IH]; intros l; [reflexivity|].
  destruct l as [|x l]; [now destruct b|].
  cbn [Nat.add firstn skipn app]. now rewrite IH.
Qed.

Lemma currentItems_page {A : Type} (l : list A) (q n : nat) :
  currentItems l (S q) n = firstn n (skipn (q * n) l).
Proof.
  unfold currentItems, slice. f_equal. lia.
Qed.

Lemma pages_prefix {A : Type} (l : list A) (n k : nat) :
  concat (map (fun p => currentItems l p n) (seq 1 k)) = firstn (k * n) l.
Proof.
  induction k as [|k IH]; [reflexivity|].
  rewrite seq_S, map_app, concat_app, IH. cbn [map concat Nat.add].
  rewrite app_nil_r, currentItems_page.
  replace (S k * n) with (k * n + n) by lia. now rewrite firstn_add.
Qed.

(** X26.  With a positive page size the table has at least one page, the
    pages 1 to [totalPages] put one after the other are the filtered list,
    every page before the last is full and no page is longer than the page
    size, no page of a non-empty list is empty, the pages after the last
    are empty, and the previous and next buttons never leave the range
    1 to [totalPages]. *)
Theorem pagination_spec {A : Type} (filtered : list A) (itemsPerPage : nat) :
  0 < itemsPerPage ->
  exists pages,
    totalPages (length filtered) itemsPerPage = Some pages /\
    1 <= pages /\
    concat (map (fun p => currentItems filtered p itemsPerPage) (seq 1 pages))
      = filtered /\
    (forall p, length (currentItems filtered p itemsPerPage) <= itemsPerPage) /\
    (forall p, 1 <= p < pages ->
       length (currentItems filtered p itemsPerPage) = itemsPerPage) /\
    (forall p, 1 <= p <= pages -> filtered <> [] ->
       currentItems filtered p itemsPerPage <> []) /\
    (forall p, pages < p -> currentItems filtered p itemsPerPage = []) /\
    (forall p, 1 <= p <= pages ->
       1 <= previousPage p <= pages /\ 1 <= nextPage p (Some pages) <= pages).
Proof.
  intros Hn. set (len := length filtered). set (n := itemsPerPage) in *.
  pose proof (ceilDiv_covers len n Hn) as Hcov.
  exists (Nat.max 1 (ceilDiv len n)).
  split; [apply totalPages_ceilDiv, Hn|]. split; [lia|].
  split; [|split; [|split; [|split; [|split]]]].
  - rewrite pages_prefix. apply firstn_all2. fold len. nia.
  - intros [|q]; [cbn; lia|]. rewrite currentItems_page, length_firstn. lia.
  - intros [|q] Hp; [lia|].
    rewrite currentItems_page, length_firstn, length_skipn. fold len.
    assert (Hlen : 0 < len).
    { destruct (Nat.eq_dec len 0) as [E | E]; [|lia].
      rewrite E, (ceilDiv_zero n Hn) in Hp. lia. }
    pose proof (ceilDiv_tight len n Hn Hlen).
    assert (S q <= ceilDiv len n - 1) by lia. nia.
  - intros [|q] Hp Hne; [lia|].
    assert (Hlen : 0 < len) by (unfold len; destruct filtered; [congruence | cbn; lia]).
    pose proof (ceilDiv_tight len n Hn Hlen).
    intros E. apply (f_equal (@length A)) in E.
    rewrite currentItems_page, length_firstn, length_skipn in E. fold len in E.
    cbn [length] in E. assert (q <= ceilDiv len n - 1) by lia. nia.
  - intros [|q] Hp; [lia|]. rewrite currentItems_page.
    rewrite skipn_all2; [now destruct n|]. fold len. nia.
  - intros p Hp. unfold previousPage, nextPage. lia.
Qed.

(* ------------------------------------------------------------------ *)
(** * The profit margin *)



(* ------------------------------------------------------------------ *)
(** * The displayed name of a transaction *)

Lemma trimStart_nonempty (s : jsstring) :
  (exists c, In c s /\ isWhite c = false) -> trimStart s <> [].
Proof.
  induction s as [|x s IH]; intros (c & Hin & Hc); [destruct Hin|].
  cbn [trimStart]. destruct (isWhite x) eqn:E; [|discriminate].
  apply IH. destruct Hin as [-> | Hin]; [congruence|]. now exists c.
Qed.

Lemma trim_nonempty (c : N) (s : jsstring) :
  isWhite c = false -> trim (c :: s) <> [].
Proof.
  intros Hc. unfold trim. cbn [trimStart]. rewrite Hc.
  intros E. apply (f_equal (@rev N)) in E. rewrite rev_involutive in E.
  revert E. apply trimStart_nonempty. exists c. split; [|exact Hc].
  apply in_rev. rewrite rev_involutive. now left.
Qed.

Lemma replaceFirst_prefix (n : jsstring) :
  replaceFirst (lit "TX-") [] (lit "TX-" ++ n) = n.
Proof.
  change (lit "TX-" ++ n) with (84%N :: 88%N :: 45%N :: n).
  change (lit "TX-") with [84%N; 88%N; 45%N].
  cbn [replaceFirst]. cbn [startsWith]. rewrite !N.eqb_refl. reflexivity.
Qed.

(** X28.  The name shown for a transaction is never blank: it is the
    client when the client is neither blank nor the word Imported, and
    otherwise, for a generated id, the words Process # followed by the
    number of the id, without its TX- mark. *)
Theorem transaction_name_spec (t : Transaction) :
  trim (getTransactionName t) <> [] /\
  (trim (tx_client t) <> [] -> tx_client t <> lit "Imported" ->
   getTransactionName t = tx_client t) /\
  (trim (tx_client t) = [] \/ tx_client t = lit "Imported" ->
   forall r, tx_id t = generateId r ->
     getTransactionName t =
     lit "Process #" ++ numberToString (inject_Z (Math_floor (1000 + r * 9000)%Q))).
Proof.
  assert (Hcond : isEmptyString (tx_client t) || eqb (tx_client t) (lit "Imported") ||
                  isEmptyString (trim (tx_client t)) = true <->
                  trim (tx_client t) = [] \/ tx_client t = lit "Imported").
  { rewrite !orb_true_iff, eqb_eq. split.
    - intros [[H | H] | H].
      + left. now destruct (tx_client t).
      + now right.
      + left. now destruct (trim (tx_client t)).
    - intros [H | H].
      + right. now rewrite H.
      + left; right. exact H. }
  unfold getTransactionName. split; [|split].
  - destruct (isEmptyString (tx_client t) || eqb (tx_client t) (lit "Imported") ||
              isEmptyString (trim (tx_client t))) eqn:E.
    + now apply trim_nonempty.
    + intros Hb. discriminate (proj2 Hcond (or_introl Hb)).
  - intros Hb Hi.
    destruct (isEmptyString (tx_client t) || eqb (tx_client t) (lit "Imported") ||
              isEmptyString (trim (tx_client t))) eqn:E; [|reflexivity].
    destruct (proj1 Hcond eq_refl); contradiction.
  - intros H r Hid. apply Hcond in H. rewrite H, Hid. unfold generateId.
    now rewrite replaceFirst_prefix.
Qed.

(* ------------------------------------------------------------------ *)
(** * Sign-up and login *)

Lemma dotInside_iff (s : jsstring) :
  dotInside s = true <->
  exists b c, s = b ++ dot :: c /\ b <> [] /\ c <> [].
Proof.
  induction s as [|x rest IH].
  - split; [discriminate|]. intros (b & c & E & _). now destruct b.
  - cbn [dotInside]. destruct rest as [|y [|z r]].
    + split; [discriminate|]. intros (b & c & E & Hb & Hc).
      destruct b as [|b0 [|b1 b]]; try congruence; discriminate E.
    + split; [discriminate|]. intros (b & c & E & Hb & Hc).
      destruct b as [|b0 [|b1 [|b2 b]]]; try congruence;
        destruct c; try congruence; discriminate E.
    + rewrite orb_true_iff, IH, N.eqb_eq. split.
      * intros [-> | (b & c & E & Hb & Hc)].
        -- exists [x], (z :: r). repeat split; discriminate.
        -- exists (x :: b), c. rewrite E. repeat split; [discriminate | exact Hc].
      * intros (b & c & E & Hb & Hc).
        destruct b as [|b0 [|b1 b]]; [congruence | |].
        -- left. cbn in E. congruence.
        -- right. exists (b1 :: b), c. cbn [app] in E.
           assert (E' : y :: z :: r = (b1 :: b) ++ dot :: c) by (cbn [app]; congruence).
           repeat split; [exact E' | discriminate | exact Hc].
Qed.

Lemma spanAddress_spec (s : jsstring) :
  s = fst (spanAddress s) ++ snd (spanAddress s) /\
  forallb isAddressChar (fst (spanAddress s)) = true /\
  match snd (spanAddress s) with
  | [] => True
  | c :: _ => isAddressChar c = false
  end.
Proof.
  induction s as [|c s IH]; [now repeat split|].
  cbn [spanAddress]. destruct (isAddressChar c) eqn:E.
  - destruct (spanAddress s) as [run rest]. cbn [fst snd] in *.
    destruct IH as (E1 & E2 & E3). repeat split.
    + cbn [app]. now f_equal.
    + cbn [forallb]. now rewrite E, E2.
    + exact E3.
  - cbn [fst snd]. now repeat split.
Qed.

Lemma spanAddress_run (a rest : jsstring) (c : N) :
  forallb isAddressChar a = true -> isAddressChar c = false ->
  spanAddress (a ++ c :: rest) = (a, c :: rest).
Proof.
  intros Ha Hc. induction a as [|x a IH].
  - cbn [app spanAddress]. now rewrite Hc.
  - cbn [forallb] in Ha. apply andb_true_iff in Ha. destruct Ha as [Hx Ha].
    cbn [app spanAddress]. now rewrite Hx, (IH Ha).
Qed.

Lemma validateEmail_iff (email : jsstring) :
  validateEmail email = true <->
  exists a b c,
    email = a ++ atSign :: b ++ dot :: c /\
    a <> [] /\ b <> [] /\ c <> [] /\
    forallb isAddressChar a = true /\
    forallb isAddressChar b = true /\
    forallb isAddressChar c = true.
Proof.
  split.
  - unfold validateEmail. destruct (spanAddress_spec email) as (E1 & E2 & _).
    destruct (spanAddress email) as [[|a0 a] [|x domain]]; try discriminate.
    cbn [fst snd] in E1, E2. intros H.
    apply andb_true_iff in H. destruct H as [H Hdot].
    apply andb_true_iff in H. destruct H as [Hat Hdom].
    apply N.eqb_eq in Hat. subst x.
    apply dotInside_iff in Hdot. destruct Hdot as (b & c & -> & Hb & Hc).
    rewrite forallb_app in Hdom. apply andb_true_iff in Hdom.
    destruct Hdom as [Hfb Hfc]. cbn [forallb] in Hfc.
    apply andb_true_iff in Hfc. destruct Hfc as [_ Hfc].
    exists (a0 :: a), b, c. repeat split; try assumption. discriminate.
  - intros (a & b & c & -> & Ha & Hb & Hc & Hfa & Hfb & Hfc).
    unfold validateEmail.
    rewrite (spanAddress_run a (b ++ dot :: c) atSign Hfa eq_refl).
    destruct a as [|a0 a]; [congruence|].
    rewrite N.eqb_refl, forallb_app. cbn [forallb].
    rewrite Hfb, Hfc. change (isAddressChar dot) with true. cbn [andb].
    apply dotInside_iff. now exists b, c.
Qed.

(** X29.  An address is accepted exactly when it reads: a local part, an
    at sign, a domain, a dot and an ending, all three non-empty and free of
    white space and of further at signs (the domain and the ending may hold
    more dots).  So an accepted address has exactly one at sign and at least
    five characters. *)
Theorem validateEmail_spec (email : jsstring) :
  (validateEmail email = true <->
   exists a b c,
     email = a ++ atSign :: b ++ dot :: c /\
     a <> [] /\ b <> [] /\ c <> [] /\
     forallb isAddressChar a = true /\
     forallb isAddressChar b = true /\
     forallb isAddressChar c = true) /\
  (validateEmail email = true ->
   5 <= length email /\
   count_occ N.eq_dec email atSign = 1 /\
   forallb (fun ch => negb (isWhite ch)) email = true).
Proof.
  split; [apply validateEmail_iff|].
  intros H. apply validateEmail_iff in H.
  destruct H as (a & b & c & -> & Ha & Hb & Hc & Hfa & Hfb & Hfc).
  assert (Hcount : forall l, forallb isAddressChar l = true ->
                             count_occ N.eq_dec l atSign = 0 /\
                             forallb (fun ch => negb (isWhite ch)) l = true).
  { induction l as [|x l IH]; [now split|]. cbn [forallb]. intros H.
    apply andb_true_iff in H. destruct H as [Hx Hl].
    destruct (IH Hl) as [I1 I2]. unfold isAddressChar in Hx.
    apply andb_true_iff in Hx. destruct Hx as [Hw Hat].
    apply negb_true_iff, N.eqb_neq in Hat.
    split; [now rewrite count_occ_cons_neq | now rewrite Hw, I2]. }
  destruct (Hcount a Hfa) as [A1 A2], (Hcount b Hfb) as [B1 B2],
           (Hcount c Hfc) as [C1 C2].
  split; [|split].
  - rewrite length_app. cbn [length]. rewrite length_app. cbn [length].
    destruct a; [congruence|]. destruct b; [congruence|]. destruct c; [congruence|].
    cbn [length]. lia.
  - rewrite count_occ_app, count_occ_cons_eq by reflexivity.
    rewrite count_occ_app, count_occ_cons_neq by discriminate.
    lia.
  - rewrite forallb_app. cbn [forallb]. rewrite forallb_app. cbn [forallb].
    now rewrite A2, B2, C2.
Qed.

(** X30.  A sign-up is accepted exactly when store name, full name, address
    and password are filled in, the address is accepted by [validateEmail]
    and the password has at least 6 characters; the record stored is the
    form as it stands, and a login with its address and password then
    succeeds.  A login succeeds exactly with the stored address and
    password or with the built-in pair admin / 123456, whatever is stored,
    and fails with the wrong-credentials outcome otherwise. *)
Theorem auth_spec (signUpData : SignUpData) (loginEmail loginPassword : jsstring)
    (storedUser : option SignUpData) :
  (forall userData,
     handleAuthSubmit true signUpData loginEmail loginPassword storedUser
       = SignedUp userData <->
     userData = signUpData /\
     su_storeName signUpData <> [] /\ su_fullName signUpData <> [] /\
     su_email signUpData <> [] /\ su_password signUpData <> [] /\
     validateEmail (su_email signUpData) = true /\
     6 <= length (su_password signUpData)) /\
  (forall userData other email password,
     handleAuthSubmit true signUpData loginEmail loginPassword storedUser
       = SignedUp userData ->
     handleAuthSubmit false other (su_email userData) (su_password userData)
       (Some userData) = LoggedIn /\
     (handleAuthSubmit false other email password (Some userData) = LoggedIn <->
      (email = su_email signUpData /\ password = su_password signUpData) \/
      (email = lit "admin" /\ password = lit "123456"))) /\
  (handleAuthSubmit false signUpData loginEmail loginPassword storedUser = LoggedIn <->
   (exists u, storedUser = Some u /\ su_email u = loginEmail /\
              su_password u = loginPassword) \/
   (loginEmail = lit "admin" /\ loginPassword = lit "123456")) /\
  handleAuthSubmit false signUpData (lit "admin") (lit "123456") storedUser = LoggedIn /\
  (handleAuthSubmit false signUpData loginEmail loginPassword storedUser = LoggedIn \/
   handleAuthSubmit false signUpData loginEmail loginPassword storedUser = BadCredentials).
Proof.
  assert (Hne : forall s, isEmptyString s = false <-> s <> []).
  { intros [|c s]; split; try congruence; try discriminate. reflexivity. }
  assert (Hup : forall userData,
     handleAuthSubmit true signUpData loginEmail loginPassword storedUser
       = SignedUp userData <->
     userData = signUpData /\
     su_storeName signUpData <> [] /\ su_fullName signUpData <> [] /\
     su_email signUpData <> [] /\ su_password signUpData <> [] /\
     validateEmail (su_email signUpData) = true /\
     6 <= length (su_password signUpData)).
  { intros userData. unfold handleAuthSubmit.
    rewrite <- !Hne.
    destruct (isEmptyString (su_storeName signUpData)),
             (isEmptyString (su_fullName signUpData)),
             (isEmptyString (su_email signUpData)),
             (isEmptyString (su_password signUpData)); cbn [orb];
      try (split; [discriminate | intros (_ & ? & ? & ? & ? & _); discriminate]).
    destruct (validateEmail (su_email signUpData)); cbn [negb];
      [|split; [discriminate | intros (_ & _ & _ & _ & _ & ? & _); discriminate]].
    destruct (Nat.ltb_spec (length (su_password signUpData)) 6) as [L | L].
    - split; [discriminate|]. intros (_ & _ & _ & _ & _ & _ & ?). lia.
    - split.
      + intros E. injection E as <-. repeat split. exact L.
      + intros (-> & _). reflexivity. }
  assert (Hin : forall other email password u,
     handleAuthSubmit false other email password u = LoggedIn <->
     (exists v, u = Some v /\ su_email v = email /\ su_password v = password) \/
     (email = lit "admin" /\ password = lit "123456")).
  { intros other email password u.
    assert (Hif : forall c : bool,
              (if c then LoggedIn else BadCredentials) = LoggedIn <-> c = true)
      by (intros []; split; congruence).
    unfold handleAuthSubmit. cbv zeta.
    rewrite Hif, orb_true_iff, andb_true_iff, !eqb_eq.
    destruct u as [v|].
    - rewrite andb_true_iff, !eqb_eq. split.
      + intros [[H1 H2] | H]; [left; now exists v | now right].
      + intros [(w & Ew & H1 & H2) | H]; [|now right].
        injection Ew as <-. left. now split.
    - split.
      + intros [H | H]; [discriminate | now right].
      + intros [(w & Ew & _) | H]; [discriminate | now right]. }
  split; [exact Hup|]. split; [|split; [|split]].
  - intros userData other email password H. apply Hup in H. destruct H as (-> & _).
    split.
    + apply Hin. left. now exists signUpData.
    + rewrite Hin. split.
      * intros [(v & Ev & H1 & H2) | H]; [|now right].
        injection Ev as <-. left. now split.
      * intros [[-> ->] | H]; [|now right]. left. now exists signUpData.
  - apply Hin.
  - apply Hin. now right.
  - unfold handleAuthSubmit.
    match goal with |- (if ?c then _ else _) = _ \/ _ => destruct c end;
      [now left | now right].
Qed.

End Engine.

(* ------------------------------------------------------------------ *)
(** * The statements at concrete inputs *)

Lemma exampleStore_ids : NoDup (map tx_id exampleStore).
Proof.
  repeat (constructor; [simpl; intros H;
                        repeat (destruct H as [H | H]; [discriminate H|]);
                        exact H|]).
  constructor.
Qed.

Lemma not_isYmd_timestamp : ~ isYmd (lit "2024-01-05T09:30").
Proof. intros H. apply isYmd_length in H. discriminate H. Qed.

(** C1, as first stated, fails: a cell holding a timestamp is not a
    YYYY-MM-DD string, yet it is kept as the date instead of today's date. *)
Lemma extractDate_keeps_timestamp :
  ~ isYmd (cellString Demo.showNumber (CStr (lit "2024-01-05T09:30"))) /\
  extractDate Demo.showNumber exampleToday (CStr (lit "2024-01-05T09:30")) =
    lit "2024-01-05T09:30" /\
  extractDate Demo.showNumber exampleToday (CStr (lit "2024-01-05T09:30")) <>
    exampleToday.
Proof.
  split; [exact not_isYmd_timestamp|]. split; [reflexivity|].
  vm_compute. discriminate.
Qed.

Lemma extractDate_spec_witness :
  extractDate Demo.showNumber exampleToday (CStr (lit "2024-01-05")) =
    lit "2024-01-05" /\
  extractDate Demo.showNumber exampleToday (CNum 0%Q) = exampleToday.
Proof.
  destruct (extractDate_spec Demo.showNumber Demo.lowerAscii exampleToday (CNum 0%Q))
    as (Hymd & _ & Hother & _).
  split.
  - apply Hymd. exists (lit "2024"), (lit "01"), (lit "05").
    repeat split; reflexivity.
  - apply Hother. left. reflexivity.
Defined.

Lemma exact_arithmetic_mean (l : list Q) : exactMean Qplus Qdiv l.
Proof.
  unfold exactMean, computedMean, mean.
  enough (H : forall a, (fold_left Qplus l a == a + sumQ l)%Q)
    by (rewrite H; unfold Qdiv; ring).
  induction l as [|x l IH]; intros a; simpl; [ring|].
  rewrite IH. ring.
Qed.

(** C2, as first stated, fails: the doubles 0.7 and 0.3 add up to 1 and
    the point that stands for their window carries 1, while their mean is
    below one half and the integer nearest to it is 0. *)
Lemma downsampling_mean_off_by_one :
  exists out p,
    chartData Demo.doubleAdd Demo.doubleDiv tieSeries = Some out /\
    hd_error out = Some p /\
    revenue p = 1%Q /\
    nearestInteger (mean (map revenue (firstn 2 tieSeries))) 0%Q /\
    ~ summarises p (firstn 2 tieSeries).
Proof.
  assert (Hlow : (mean (map revenue (firstn 2 tieSeries)) < 1 # 2)%Q)
    by (vm_compute; reflexivity).
  assert (Hpos : (0 <= mean (map revenue (firstn 2 tieSeries)))%Q)
    by (vm_compute; discriminate).
  destruct (chartData Demo.doubleAdd Demo.doubleDiv tieSeries) as [out|] eqn:E;
    [|vm_compute in E; discriminate E].
  destruct out as [|p out]; [vm_compute in E; discriminate E|].
  exists (p :: out), p. split; [reflexivity|]. split; [reflexivity|].
  assert (Hp : revenue p = 1%Q).
  { vm_compute in E. injection E as <- _. reflexivity. }
  split; [exact Hp|]. split.
  - exists 0%Z. split; [reflexivity|]. change (inject_Z 0) with 0%Q. split; lra.
  - intros (_ & _ & (z & Hz & _ & Hhi) & _). rewrite Hp in Hz.
    assert (Ez : z = 1%Z) by (injection Hz as Hz; lia).
    subst z. change (inject_Z 1) with 1%Q in Hhi. lra.
Qed.

Lemma downsampling_spec_witness :
  (exists out ws,
     chartData Demo.doubleAdd Demo.doubleDiv tieSeries = Some out /\
     partitions (ceilDiv (length tieSeries) 100) tieSeries ws /\
     Forall2 (averages Demo.doubleAdd Demo.doubleDiv) out ws /\
     length out <= 100) /\
  (exists out ws,
     chartData Qplus Qdiv longSeries = Some out /\
     partitions (ceilDiv (length longSeries) 100) longSeries ws /\
     Forall2 summarises out ws /\
     length out <= 100).
Proof.
  split.
  - destruct (proj1 (proj2 (downsampling_spec Demo.doubleAdd Demo.doubleDiv
                              tieSeries)))
      as (out & ws & E & P & A & L & _).
    + apply Nat.ltb_lt. reflexivity.
    + exists out, ws. split; [exact E|]. split; [exact P|]. split; [exact A | exact L].
  - destruct (proj1 (proj2 (downsampling_spec Qplus Qdiv longSeries)))
      as (out & ws & E & P & _ & L & Hexact).
    + apply Nat.ltb_lt. reflexivity.
    + exists out, ws. split; [exact E|]. split; [exact P|]. split; [|exact L].
      apply Hexact. intros w _. split; apply exact_arithmetic_mean.
Defined.

Lemma import_amount_positive_witness :
  length (processFile Demo.showNumber Demo.lowerAscii Demo.draws [] exampleToday
            ([gridHeader; gridBill] ++ gridPriced :: [gridRefund])) =
  S (length (processFile Demo.showNumber Demo.lowerAscii Demo.draws [] exampleToday
               ([gridHeader; gridBill] ++ gridUnpriced :: [gridRefund]))).
Proof.
  destruct (import_amount_positive Demo.showNumber Demo.lowerAscii Demo.draws
              [] exampleToday) as (_ & _ & _ & _ & Hdrop).
  apply Hdrop with
    (lay := locateHeader Demo.showNumber Demo.lowerAscii
              ([gridHeader; gridBill] ++ gridUnpriced :: [gridRefund])).
  - reflexivity.
  - vm_compute. reflexivity.
  - apply Nat.leb_le. vm_compute. reflexivity.
  - vm_compute. reflexivity.
  - vm_compute. reflexivity.
Defined.

Lemma classification_precedence_witness :
  classifiedByKeywords Demo.lowerAscii billRecord /\
  exists row,
    In row (skipn (startDataRow (locateHeader Demo.showNumber Demo.lowerAscii
                                   [gridHeader; gridBill; gridRefund]))
                  [gridHeader; gridBill; gridRefund]) /\
    tx_client billRecord =
    extractName Demo.showNumber
      (nameCol (locateHeader Demo.showNumber Demo.lowerAscii
                  [gridHeader; gridBill; gridRefund])) row.
Proof.
  apply (classification_precedence Demo.showNumber Demo.lowerAscii Demo.draws
           [] exampleToday).
  vm_compute. left. reflexivity.
Defined.

Lemma header_fallback_policy_witness :
  (nameCol (locateHeader Demo.showNumber Demo.lowerAscii headerlessGrid) = 3 /\
   priceCol (locateHeader Demo.showNumber Demo.lowerAscii headerlessGrid) = 8 /\
   dateCol (locateHeader Demo.showNumber Demo.lowerAscii headerlessGrid) = 0 /\
   startDataRow (locateHeader Demo.showNumber Demo.lowerAscii headerlessGrid) = 1) /\
  (startDataRow (locateHeader Demo.showNumber Demo.lowerAscii
                   [[CStr (lit "report")]; [CStr (lit "Name"); CStr (lit "qty")]]) = 1 + 1 /\
   priceCol (locateHeader Demo.showNumber Demo.lowerAscii
               [[CStr (lit "report")]; [CStr (lit "Name"); CStr (lit "qty")]]) = 8 /\
   nameCol (locateHeader Demo.showNumber Demo.lowerAscii
              [[CStr (lit "report")]; [CStr (lit "Name"); CStr (lit "qty")]]) = 0).
Proof.
  split.
  - destruct (header_fallback_policy Demo.showNumber Demo.lowerAscii Demo.draws
                headerlessGrid) as (Hnone & _).
    destruct Hnone as (_ & Hn & Hp & Hd & Hs).
    + intros i Hi. simpl in Hi.
      destruct i as [|[|i]]; [reflexivity | reflexivity | lia].
    + repeat split; assumption.
  - destruct (header_fallback_policy Demo.showNumber Demo.lowerAscii Demo.draws
                [[CStr (lit "report")]; [CStr (lit "Name"); CStr (lit "qty")]])
      as (_ & Hat & _).
    destruct (Hat 1) as (_ & Hs & _ & Hp & _ & Hn & _).
    + split; [simpl; lia|]. split; [reflexivity|].
      intros j Hj. destruct j as [|j]; [reflexivity | lia].
    + split; [exact Hs|]. split.
      * apply Hp. intros j Hj. simpl in Hj.
        destruct j as [|[|j]]; [reflexivity | reflexivity | lia].
      * apply Hn. split; [simpl; lia|]. split; [reflexivity|].
        intros j Hj. simpl in Hj.
        destruct j as [|[|j]]; [lia | reflexivity | lia].
Defined.


(** C7, as first stated, fails: a sale to Bob stored under the id of a
    pending debt of Ali is replaced by the settled debt when Ali is
    settled. *)
Lemma settlement_overwrites_other_client :
  nth_error [bobDuplicate; ali1] 0 = Some bobDuplicate /\
  tx_client bobDuplicate <> lit "Ali" /\
  nth_error (handleSettleClientDebt true exampleToday (lit "Ali")
               [bobDuplicate; ali1]) 0 =
  Some (settled exampleToday ali1) /\
  settled exampleToday ali1 <> bobDuplicate.
Proof.
  split; [reflexivity|]. split; [discriminate|]. split; [reflexivity|].
  discriminate.
Qed.

Lemma settlement_frame_witness :
  length (handleSettleClientDebt true exampleToday (lit "Ali") exampleStore) =
  length exampleStore /\
  nth_error (handleSettleClientDebt true exampleToday (lit "Ali") exampleStore) 1 =
  Some bobSale /\
  nth_error (handleSettleClientDebt true exampleToday (lit "Ali")
               [bobDuplicate; bobSale; ali1]) 1 = Some bobSale.
Proof.
  destruct (settlement_frame exampleToday (lit "Ali") exampleStore)
    as (Hlen & _ & _ & _ & Hdistinct).
  destruct (settlement_frame exampleToday (lit "Ali") [bobDuplicate; bobSale; ali1])
    as (_ & _ & _ & Hfree & _).
  split; [exact Hlen|]. split.
  - destruct (Hdistinct exampleStore_ids 1 bobSale eq_refl) as (t' & E & _ & Hsame).
    rewrite E. f_equal. apply Hsame. left. discriminate.
  - apply Hfree; [reflexivity|].
    intros u [<- | [<- | [<- | []]]] Hc Hty Hst; discriminate.
Defined.

(** C8, as first stated, fails: a first pending debt whose date is no
    calendar day keeps its date as the last date, whatever the dates of the
    later debts. *)
Lemma debt_grouping_keeps_unparsable_date :
  exists g,
    In (lit "Ali", g) (debtList Demo.isoTime [aliUndated; ali2]) /\
    lastDate g = lit "9999-99-99" /\
    Demo.isoTime (lastDate g) = None /\
    In ali2 (debtsOf (lit "Ali") [aliUndated; ali2]) /\
    Demo.isoTime (tx_date ali2) = Some 1704153600000%Z.
Proof.
  eexists. split; [left; reflexivity|].
  split; [reflexivity|]. split; [reflexivity|].
  split; [right; left; reflexivity | reflexivity].
Qed.

Lemma debt_grouping_spec_witness :
  (exists g,
     In (lit "Ali", g) (debtList Demo.isoTime exampleStore) /\
     (total g == 60)%Q /\ count g = 3 /\ lastDate g = lit "2024-01-03") /\
  (exists g, In (lit "Ali", g) (debtList Demo.isoTime [aliUndated; ali2]) /\
             lastDate g = tx_date aliUndated).
Proof.
  split.
  - destruct (debt_grouping_spec Demo.isoTime exampleStore) as (_ & _ & _ & _ & Hthree).
    apply (Hthree (lit "Ali") ali1 ali2 ali3
             1704067200000%Z 1704153600000%Z 1704240000000%Z).
    + change (Permutation (rev [ali1; ali2; ali3]) [ali1; ali2; ali3]).
      apply Permutation_sym, Permutation_rev.
    + reflexivity.
    + reflexivity.
    + reflexivity.
    + reflexivity.
    + reflexivity.
    + reflexivity.
    + reflexivity.
    + reflexivity.
  - destruct (debt_grouping_spec Demo.isoTime [aliUndated; ali2])
      as (_ & _ & _ & Hgroup & _).
    exists (mkGroup 30%Q (lit "9999-99-99") (lit "0770") 2).
    assert (Hin : In (lit "Ali", mkGroup 30%Q (lit "9999-99-99") (lit "0770") 2)
                     (debtList Demo.isoTime [aliUndated; ali2]))
      by (left; reflexivity).
    split; [exact Hin|].
    destruct (Hgroup _ _ Hin) as (_ & _ & _ & _ & first & rest & E & Hnone & _).
    injection E as <- _. apply Hnone. reflexivity.
Defined.

Lemma dashboard_derived_totals_witness :
  normalized bobSale = (500 / 1520)%Q /\
  (ds_totalSalesIQD (dashboardStats Demo.isoDay exampleStore) ==
   ds_totalSalesUSD (dashboardStats Demo.isoDay exampleStore) * 1520)%Q.
Proof.
  destruct (dashboard_derived_totals Demo.isoDay exampleStore) as (Hiqd & _ & _ & Hn & _).
  split; [apply Hn; reflexivity | exact Hiqd].
Defined.

Lemma debt_grouping_raw_amounts_witness :
  debtList Demo.isoTime (map (fun t => withCurrency IQD t) exampleStore) =
  debtList Demo.isoTime exampleStore /\
  (ds_totalDebt (dashboardStats Demo.isoDay mixedDebts) == 11 * 1520)%Q.
Proof.
  destruct (debt_grouping_raw_amounts Demo.isoTime Demo.isoDay exampleStore (fun _ => IQD))
    as (Hsame & _ & _ & _ & Hdash & _).
  split; [exact Hsame | exact Hdash].
Defined.

(** ** The scenarios of the specification *)

Example amount_with_separators :
  match extractAmount 0 [CStr (lit "1,234.56 IQD")] with
  | Num q => (q == 123456 # 100)%Q
  | NaN => False
  end.
Proof. reflexivity. Qed.

Example amount_unparsable :
  extractAmount 0 [CStr (lit "n/a")] = NaN /\
  extractAmount 0 [CStr (lit "..5")] = NaN /\
  extractAmount 3 [CStr (lit "12")] = Num 0%Q.
Proof. repeat split. Qed.

(** The rows ["date","name","price"], ["2024-01-01","فاتورة كهرباء","5000"],
    ["2024-01-02","Acme","1200"]. *)
Example end_to_end_import :
  map (fun t => (tx_type t, tx_amount t, tx_status t, tx_date t))
      (processFile Demo.showNumber Demo.lowerAscii Demo.draws [] exampleToday
         [ [CStr (lit "date"); CStr (lit "name"); CStr (lit "price")];
           [CStr (lit "2024-01-01");
            CStr [1601; 1575; 1578; 1608; 1585; 1577; 32;
                  1603; 1607; 1585; 1576; 1575; 1569]%N;
            CStr (lit "5000")];
           [CStr (lit "2024-01-02"); CStr (lit "Acme"); CStr (lit "1200")] ]) =
  [ (expense, 5000%Q, completed, lit "2024-01-01");
    (sale, 1200%Q, completed, lit "2024-01-02") ].
Proof. vm_compute. reflexivity. Qed.

Example settle_ali :
  map (fun t => (tx_client t, tx_status t, tx_date t))
      (handleSettleClientDebt true exampleToday (lit "Ali") exampleStore) =
  [ (lit "Ali", completed, exampleToday); (lit "Bob", completed, lit "2024-01-02");
    (lit "Ali", completed, exampleToday); (lit "Ali", completed, exampleToday) ].
Proof. vm_compute. reflexivity. Qed.

Example downsample_101 :
  option_map (@length ChartPoint)
             (chartData Demo.doubleAdd Demo.doubleDiv longSeries) = Some 51 /\
  option_map (map revenue)
             (chartData Demo.doubleAdd Demo.doubleDiv (firstn 4 longSeries)) =
    Some [0%Q; 1%Q; 2%Q; 3%Q] /\
  option_map (fun out => map revenue (firstn 3 out))
             (optimizeChartData Demo.doubleAdd Demo.doubleDiv longSeries 100) =
    Some [1%Q; 3%Q; 5%Q].
Proof. vm_compute. repeat split. Qed.

(* ------------------------------------------------------------------ *)
(** * The further properties at concrete inputs *)

Lemma exampleInventory_ids : NoDup (map inv_id exampleInventory).
Proof.
  repeat (constructor; [simpl; intros H;
                        repeat (destruct H as [H | H]; [discriminate H|]);
                        exact H|]).
  constructor.
Qed.

Lemma half_is_a_draw : forall k : nat, (0 <= (fun _ : nat => 1 # 2) k < 1)%Q.
Proof. intros k. split; [discriminate | reflexivity]. Qed.

Lemma import_record_shape_witness :
  tx_method billRecord = lit "Import" /\ tx_time billRecord = lit "12:00" /\
  tx_currency billRecord = IQD.
Proof.
  destruct (import_record_shape Demo.showNumber Demo.lowerAscii Demo.draws
              [] exampleToday [gridHeader; gridBill; gridRefund] billRecord)
    as (Hm & Ht & Hc & _).
  - vm_compute. left. reflexivity.
  - repeat split; assumption.
Defined.

Lemma import_follows_rows_witness :
  processFile Demo.showNumber Demo.lowerAscii Demo.draws [] exampleToday
    [gridHeader] = [].
Proof.
  destruct (import_follows_rows Demo.showNumber Demo.lowerAscii Demo.draws
              [] exampleToday [gridHeader]) as (_ & _ & Hshort).
  apply Hshort. simpl. lia.
Defined.

Lemma import_inventory_link_witness :
  exists pre item post,
    exampleInventory = pre ++ item :: post /\ inv_id item = lit "ITM-10001" /\
    Demo.lowerAscii (inv_name item) = Demo.lowerAscii (tx_client acmeRecord) /\
    forall other, In other pre ->
      Demo.lowerAscii (inv_name other) <> Demo.lowerAscii (tx_client acmeRecord).
Proof.
  apply (import_inventory_link Demo.showNumber Demo.lowerAscii
           (fun _ => (1 # 2)%Q) exampleInventory exampleToday
           [gridHeader; gridPriced] acmeRecord).
  vm_compute. left. reflexivity.
Defined.

Lemma import_ids_from_pool_witness :
  In (tx_id acmeRecord) (idPool Demo.showNumber).
Proof.
  destruct (import_ids_from_pool Demo.showNumber Demo.lowerAscii
              (fun _ => (1 # 2)%Q) exampleInventory exampleToday
              [gridHeader; gridPriced] half_is_a_draw) as (Hpool & _).
  apply Hpool. vm_compute. left. reflexivity.
Defined.

Lemma text_price_nonnegative_witness :
  (0 <= 1200)%Q /\ (Qabs 1200 == 1200)%Q /\
  extractAmount 2 gridPriced =
  parseFloat (filter (fun c => isDigit c || (c =? dot)%N) (lit "1,200 IQD")).
Proof.
  apply (text_price_nonnegative 2 gridPriced (lit "1,200 IQD") 1200%Q);
    reflexivity.
Defined.

Lemma dashboard_buckets_witness :
  dashStep Demo.isoDay (mkDashAcc 1%Q 2%Q 3%Q (repeat 0%Q 7)) refundRecord =
  mkDashAcc 1%Q 2%Q 3%Q (repeat 0%Q 7).
Proof.
  destruct (dashboard_buckets Demo.isoDay exampleStore) as (_ & _ & _ & Hskip).
  apply Hskip. left. reflexivity.
Defined.

Lemma dashboard_weekly_witness :
  exists v,
    In (2, v) (ds_weeklyData (dashboardStats Demo.isoDay exampleStore)) /\
    (v == sumQ (map normalized (filter (soldOn Demo.isoDay 2) exampleStore)))%Q.
Proof.
  destruct (dashboard_weekly Demo.isoDay exampleStore) as (_ & Hbars & _).
  exists (snd (nth 2 (ds_weeklyData (dashboardStats Demo.isoDay exampleStore))
                   (0, 0%Q))).
  assert (Hin : In (2, snd (nth 2 (ds_weeklyData (dashboardStats Demo.isoDay
                                                    exampleStore)) (0, 0%Q)))
                   (ds_weeklyData (dashboardStats Demo.isoDay exampleStore)))
    by (vm_compute; right; right; left; reflexivity).
  split; [exact Hin | exact (proj2 (Hbars _ _ Hin))].
Defined.

Lemma working_set_sorting_witness :
  StronglySorted (fun a b => (tx_amount b <= tx_amount a)%Q)
    (filteredTransactions Demo.showNumber Demo.lowerAscii
       (fun s => Demo.isoTime (firstn 10 s)) TabDashboard [] [] highest newest
       FilterAll exampleStore) /\
  StronglySorted
    (fun a b => forall za zb,
       dateTimeOf (fun s => Demo.isoTime (firstn 10 s)) a = Some za ->
       dateTimeOf (fun s => Demo.isoTime (firstn 10 s)) b = Some zb ->
       (zb <= za)%Z)
    (filteredTransactions Demo.showNumber Demo.lowerAscii
       (fun s => Demo.isoTime (firstn 10 s)) TabTransactions [] [] highest newest
       FilterAll exampleStore).
Proof.
  split.
  - destruct (working_set_sorting Demo.showNumber Demo.lowerAscii
                (fun s => Demo.isoTime (firstn 10 s)) TabDashboard [] [] highest
                newest FilterAll exampleStore) as (_ & _ & Hhigh & _).
    apply Hhigh. reflexivity.
  - destruct (working_set_sorting Demo.showNumber Demo.lowerAscii
                (fun s => Demo.isoTime (firstn 10 s)) TabTransactions [] []
                highest newest FilterAll exampleStore) as (_ & _ & _ & _ & Htime).
    destruct Htime as [Hnew _].
    + intros t [<- | [<- | [<- | [<- | []]]]]; vm_compute; discriminate.
    + apply Hnew. reflexivity.
Defined.

Lemma report_revenue_recognition_witness :
  reportStep (mkReportAcc 1%Q 2%Q 3%Q 4%Q) refundRecord = mkReportAcc 1%Q 2%Q 3%Q 4%Q.
Proof.
  destruct (report_revenue_recognition exampleStore)
    as (_ & _ & _ & _ & _ & Hskip).
  apply Hskip. right. left. reflexivity.
Defined.

Lemma report_range_edges_witness :
  reportFiltered Demo.showNumber Demo.lowerAscii Demo.isoTime
    (lit "2024-12-31") (lit "2024-01-01") [] exampleStore = [].
Proof.
  destruct (report_range_edges Demo.showNumber Demo.lowerAscii Demo.isoTime
              (lit "2024-12-31") (lit "2024-01-01") [] exampleStore)
    as (_ & Hempty).
  apply Hempty. right. right.
  exists 1735603200000%Z, 1704067200000%Z.
  split; [vm_compute; reflexivity|]. split; [vm_compute; reflexivity | reflexivity].
Defined.


Lemma report_breakdowns_witness :
  (60 == sumQ (map normalized (entriesOf isPendingDebt (lit "Ali") exampleStore)))%Q.
Proof.
  destruct (report_breakdowns Demo.isoDay exampleStore) as (_ & _ & Hdebt & _).
  apply (Hdebt (lit "Ali") 60%Q). vm_compute. left. reflexivity.
Defined.

Lemma report_rankings_witness :
  descending snd (topDebtors Demo.isoDay (exampleStore ++ mixedDebts)) /\
  descending snd (pieData Demo.isoDay [rentExpense]).
Proof.
  destruct (report_rankings Demo.isoDay (exampleStore ++ mixedDebts))
    as ((_ & Hd & _) & _).
  destruct (report_rankings Demo.isoDay [rentExpense]) as (_ & _ & Hp & _).
  split; assumption.
Defined.

Lemma daily_series_spec_witness :
  (500 # 1520 ==
   sumQ (map normalized (entriesOn isRevenue (lit "2024-01-02") exampleStore)))%Q.
Proof.
  destruct (daily_series_spec Demo.isoDay exampleStore) as (_ & _ & Hday).
  apply (Hday (lit "2024-01-02") (500 # 1520)%Q 0%Q).
  right. left. reflexivity.
Defined.


Lemma settlement_clears_debtor_witness :
  ~ In (lit "Ali")
       (map fst (debtList Demo.isoTime
                   (handleSettleClientDebt true exampleToday (lit "Ali") exampleStore))).
Proof.
  apply (settlement_clears_debtor Demo.isoTime exampleToday (lit "Ali") exampleStore).
  exact exampleStore_ids.
Defined.

Lemma settlement_idempotent_witness :
  handleSettleClientDebt true exampleToday (lit "Ali") [bobSale] = [bobSale].
Proof.
  destruct (settlement_idempotent exampleToday exampleToday (lit "Ali") [bobSale])
    as (_ & _ & Hnone & _).
  apply Hnone. intros t [<- | []] (H & _). discriminate H.
Defined.

Lemma settlement_overwrites_same_id_witness :
  exists t',
    nth_error (handleSettleClientDebt true exampleToday (lit "Ali")
                 [bobDuplicate; ali1]) 0 = Some t' /\
    tx_id t' = tx_id bobDuplicate /\ tx_client t' = lit "Ali" /\ tx_type t' = debt /\
    tx_status t' = completed /\ tx_date t' = exampleToday.
Proof.
  apply (settlement_overwrites_same_id exampleToday (lit "Ali")
           [bobDuplicate; ali1] 0 bobDuplicate ali1); try reflexivity.
  right. left. reflexivity.
Defined.

Lemma delete_confirm_spec_witness :
  S (length (fst (handleDeleteConfirm
                    (mkDeleteModal true DeleteSingle (Some (lit "TX-1004"))
                                   (Some (lit "Bob")))
                    exampleStore exampleInventory))) = length exampleStore.
Proof.
  destruct (delete_confirm_spec
              (mkDeleteModal true DeleteSingle (Some (lit "TX-1004")) (Some (lit "Bob")))
              exampleStore exampleInventory) as (Hsingle & _).
  destruct (Hsingle (lit "TX-1004") eq_refl eq_refl) as (_ & _ & _ & Hone).
  - discriminate.
  - apply Hone; [exact exampleStore_ids|]. right. left. reflexivity.
Defined.

Lemma manual_entry_spec_witness :
  exists newTx,
    snd (handleManualTransaction Demo.showNumber parseFloat exampleManualForm []
           (lit "$") (1 # 2)%Q exampleToday (lit "09:30 AM")
           exampleInventory exampleStore) = newTx :: exampleStore /\
    tx_type newTx = debt /\ tx_status newTx = pending.
Proof.
  destruct (manual_entry_spec Demo.showNumber parseFloat exampleManualForm []
              (lit "$") (1 # 2)%Q exampleToday (lit "09:30 AM")
              exampleInventory exampleStore) as (_ & Hnew & _).
  destruct (Hnew 25%Q eq_refl eq_refl)
    as (newTx & E & _ & _ & _ & _ & _ & Hdebt & _).
  exists newTx. split; [exact E|]. apply Hdebt. reflexivity.
Defined.

Lemma manual_entry_stock_witness :
  In (soldOne (mkItem (lit "ITM-10001") (lit "ACME") (lit "tools") 3%Q 5%Q 10%Q 7%Q))
     (lowStockItems
        (fst (handleManualTransaction Demo.showNumber parseFloat
                exampleManualForm [] (lit "$") (1 # 2)%Q exampleToday
                (lit "09:30 AM") exampleInventory exampleStore))).
Proof.
  destruct (manual_entry_stock Demo.showNumber parseFloat exampleManualForm []
              (lit "$") (1 # 2)%Q exampleToday (lit "09:30 AM")
              exampleInventory exampleStore) as (_ & Hsold).
  destruct (Hsold 25%Q (mkItem (lit "ITM-10001") (lit "ACME") (lit "tools")
                               3%Q 5%Q 10%Q 7%Q))
    as (_ & _ & _ & Hlow).
  - reflexivity.
  - reflexivity.
  - right. reflexivity.
  - discriminate.
  - exact exampleInventory_ids.
  - left. reflexivity.
  - reflexivity.
  - apply Hlow. vm_compute. left. reflexivity.
Defined.

Lemma edit_save_spec_witness :
  exists out,
    handleEditSave (Some (bobSale, Num 700%Q)) exampleStore = Stored _ out /\
    length out = length exampleStore.
Proof.
  destruct (edit_save_spec bobSale exampleStore) as (_ & _ & _ & Hsave).
  destruct (Hsave 700%Q eq_refl) as (out & E & Hlen & _).
  exists out. split; assumption.
Defined.

Lemma inventory_save_spec_witness :
  handleInventorySave Demo.showNumber exampleItemForm (1 # 2)%Q exampleInventory =
  Stored _ (exampleInventory ++
          [mkItem (lit "ITM-55000") (lit "Nail") (lit "parts") 10%Q 5%Q 2%Q 1%Q]).
Proof.
  destruct (inventory_save_spec Demo.showNumber exampleItemForm (1 # 2)%Q
              exampleInventory) as (_ & _ & Hsave).
  destruct (Hsave 10%Q 5%Q 2%Q 1%Q) as (out & E & _ & Hnew & _).
  - discriminate.
  - reflexivity.
  - reflexivity.
  - reflexivity.
  - reflexivity.
  - reflexivity.
  - rewrite E. f_equal. apply Hnew.
    vm_compute. intros [H | [H | []]]; discriminate H.
Defined.

Lemma inventory_delete_spec_witness :
  handleDeleteInventory true (lit "ITM-99999") exampleInventory = exampleInventory.
Proof.
  destruct (inventory_delete_spec Demo.showNumber (lit "ITM-99999") exampleInventory)
    as (_ & _ & Habsent & _).
  apply Habsent. vm_compute. intros [H | [H | []]]; discriminate H.
Defined.

Lemma companies_spec_witness :
  handleDeleteCompany (lit "Acme") (handleAddCompany (lit "Acme") [lit "Zain"]) =
  [lit "Zain"].
Proof.
  destruct (companies_spec (lit "Acme") [lit "Zain"])
    as (_ & _ & _ & _ & _ & _ & Hback).
  apply Hback. intros [H | []]. discriminate H.
Defined.

Lemma pagination_spec_witness :
  exists pages,
    totalPages (length (seq 0 23)) 10 = Some pages /\
    concat (map (fun p => currentItems (seq 0 23) p 10) (seq 1 pages)) = seq 0 23.
Proof.
  destruct (pagination_spec (seq 0 23) 10) as (pages & Hpages & _ & Hcat & _).
  - lia.
  - exists pages. split; assumption.
Defined.


Lemma transaction_name_spec_witness :
  getTransactionName
    (mkTx (generateId Demo.showNumber (1 # 2)%Q) sale (lit "Imported") None None
          (lit "2024-01-02") (lit "12:00") 1200%Q IQD completed (lit "Import") None) =
  lit "Process #" ++
  Demo.showNumber (inject_Z (Math_floor (1000 + (1 # 2) * 9000)%Q)).
Proof.
  destruct (transaction_name_spec Demo.showNumber
              (mkTx (generateId Demo.showNumber (1 # 2)%Q) sale (lit "Imported")
                    None None (lit "2024-01-02") (lit "12:00") 1200%Q IQD completed
                    (lit "Import") None)) as (_ & _ & Hfallback).
  apply Hfallback; [right|]; reflexivity.
Defined.

Lemma validateEmail_spec_witness :
  5 <= length (lit "ali@shop.iq") /\
  count_occ N.eq_dec (lit "ali@shop.iq") atSign = 1 /\
  forallb (fun ch => negb (isWhite ch)) (lit "ali@shop.iq") = true.
Proof.
  apply (proj2 (validateEmail_spec (lit "ali@shop.iq"))). reflexivity.
Defined.

Lemma auth_spec_witness :
  handleAuthSubmit false exampleSignUp (su_email exampleSignUp)
    (su_password exampleSignUp) (Some exampleSignUp) = LoggedIn.
Proof.
  destruct (auth_spec exampleSignUp [] [] None) as (_ & Hround & _).
  destruct (Hround exampleSignUp exampleSignUp [] [] eq_refl) as (Hlogin & _).
  exact Hlogin.
Defined.
